(** * ChartDrawer: the per-nuclide visual encoding of [draw_nuclide]

    A shallow embedding of [draw_nuclide] (ChartDrawer.py, lines 427-810) and
    of the isomer flag computed by the main loop (lines 1039-1052).

    - Python strings are [string]; a character is read as a code point
      below 256.
    - [float(...)] is the IEEE binary64 value of the literal, correctly
      rounded, as a [spec_float] with precision 53 and maximal exponent 1024.
    - The drawing primitives ([_draw_rectangle], [_draw_text], ...) append
      nodes to an SVG layer; a call is recorded as a [DrawCall] with the
      arguments it receives.  Coordinates, which the source computes in
      floating point from the integer cell position, are exact rationals.
    - [draw_nuclide] mutates [nuclide.decay_modes] and may leave by an early
      [return] or by an exception: its result is the decay-mode list it
      leaves behind, the calls issued so far and the way it left. *)

From Stdlib Require Import List String Ascii ZArith QArith Lia Bool.
From Stdlib Require Import Permutation.
From Stdlib Require Import Floats.SpecFloat DecimalString.
Import ListNotations.
Open Scope string_scope.
Open Scope Z_scope.

(** ** Python built-ins *)

Module Py.

Definition code (c : ascii) : nat := nat_of_ascii c.

Definition between (lo hi : nat) (c : ascii) : bool :=
  (lo <=? code c)%nat && (code c <=? hi)%nat.

Definition is_digit : ascii -> bool := between 48 57.
Definition is_lower : ascii -> bool := between 97 122.
Definition is_upper : ascii -> bool := between 65 90.

(** The characters that [float] strips from both ends, among the code
    points below 256: tab to carriage return, space, U+0085 and U+00A0. *)
Definition is_space (c : ascii) : bool :=
  between 9 13 c || (code c =? 32)%nat
  || (code c =? 133)%nat || (code c =? 160)%nat.

Definition lower (c : ascii) : ascii :=
  if is_upper c then ascii_of_nat (code c + 32) else c.

Definition digit_val (c : ascii) : Z := Z.of_nat (code c) - 48.

Definition digit_char (d : Z) : ascii := ascii_of_nat (Z.to_nat (d + 48)).

Fixpoint span (p : ascii -> bool) (l : list ascii) : list ascii * list ascii :=
  match l with
  | c :: t =>
      if p c then let (a, b) := span p t in (c :: a, b) else ([], l)
  | [] => ([], [])
  end.

Fixpoint chars_eqb (a b : list ascii) : bool :=
  match a, b with
  | [], [] => true
  | x :: a', y :: b' => Ascii.eqb x y && chars_eqb a' b'
  | _, _ => false
  end.

(** [x in l] for a list of strings. *)
Definition str_in (x : string) (l : list string) : bool :=
  existsb (String.eqb x) l.

(** [s.strip(cs)]: every leading and every trailing character of [cs]. *)
Fixpoint lstrip (p : ascii -> bool) (l : list ascii) : list ascii :=
  match l with
  | c :: t => if p c then lstrip p t else l
  | [] => []
  end.

Definition strip (p : ascii -> bool) (l : list ascii) : list ascii :=
  rev (lstrip p (rev (lstrip p l))).

Definition str_strip (s cs : string) : string :=
  let set := list_ascii_of_string cs in
  string_of_list_ascii
    (strip (fun c => existsb (Ascii.eqb c) set) (list_ascii_of_string s)).

(** [s.find(sub)]: lowest index of [sub] in [s], or -1. *)
Definition str_find (s sub : string) : Z :=
  match String.index 0 sub s with
  | Some n => Z.of_nat n
  | None => -1
  end.

(** [str(n)] for an integer. *)
Definition str_of_int (n : Z) : string := NilZero.string_of_int (Z.to_int n).

(** *** [float(s)] *)

Definition prec : Z := 53.
Definition emax : Z := 1024.

Fixpoint digits_val (acc : Z) (l : list ascii) : Z :=
  match l with
  | [] => acc
  | c :: t => digits_val (10 * acc + digit_val c) t
  end.

(** An underscore is allowed only between two digits. *)
Fixpoint underscores_ok (prev : ascii) (l : list ascii) : bool :=
  match l with
  | [] => negb (Ascii.eqb prev "_")
  | c :: t =>
      (if Ascii.eqb c "_" then is_digit prev
       else negb (Ascii.eqb prev "_") || is_digit c)
      && underscores_ok c t
  end.

Definition parse_sign (l : list ascii) : bool * list ascii :=
  match l with
  | c :: t =>
      if Ascii.eqb c "-" then (true, t)
      else if Ascii.eqb c "+" then (false, t)
      else (false, l)
  | [] => (false, [])
  end.

(** What follows the mantissa: nothing, or [e], an optional sign and at
    least one digit, up to the end of the text. *)
Definition parse_exponent (l : list ascii) : option Z :=
  match l with
  | [] => Some 0
  | c :: t =>
      if Ascii.eqb (lower c) "e" then
        let (neg, t') := parse_sign t in
        let (ds, rest) := span is_digit t' in
        match ds, rest with
        | _ :: _, [] => Some (if neg then - digits_val 0 ds else digits_val 0 ds)
        | _, _ => None
        end
      else None
  end.

(** The binary64 nearest to [m * 10^e], ties to even. *)
Definition of_decimal (neg : bool) (m e : Z) : spec_float :=
  match m with
  | Zpos p =>
      if 0 <=? e
      then SFdiv prec emax (S754_finite neg (p * Z.to_pos (10 ^ e)) 0)
                           (S754_finite false 1 0)
      else SFdiv prec emax (S754_finite neg p 0)
                           (S754_finite false (Z.to_pos (10 ^ (- e))) 0)
  | _ => S754_zero neg
  end.

(** [float(s)]; [None] stands for [ValueError]. *)
Definition float (s : string) : option spec_float :=
  let l := strip is_space (list_ascii_of_string s) in
  if underscores_ok zero l then
    let l := filter (fun c => negb (Ascii.eqb c "_")) l in
    let (neg, body) := parse_sign l in
    let low := map lower body in
    if chars_eqb low (list_ascii_of_string "inf")
       || chars_eqb low (list_ascii_of_string "infinity")
    then Some (S754_infinity neg)
    else if chars_eqb low (list_ascii_of_string "nan") then Some S754_nan
    else
      let (ip, r1) := span is_digit body in
      let (fp, r2) :=
        match r1 with
        | c :: t => if Ascii.eqb c "." then span is_digit t else ([], r1)
        | [] => ([], r1)
        end in
      match (ip ++ fp)%list with
      | [] => None
      | ds =>
          match parse_exponent r2 with
          | Some e =>
              Some (of_decimal neg (digits_val 0 ds) (e - Z.of_nat (List.length fp)))
          | None => None
          end
      end
  else None.

(** [a > b] on floats: false as soon as one side is a NaN. *)
Definition float_gt (a b : spec_float) : bool := SFltb b a.

(** The literals [5.0] and [0.0], and the value of [float('5.0001')]. *)
Definition lit_5_0 : spec_float := Eval vm_compute in of_decimal false 50 (-1).
Definition lit_0_0 : spec_float := Eval vm_compute in of_decimal false 0 (-1).
Definition val_5_0001 : spec_float := Eval vm_compute in of_decimal false 50001 (-4).

(** *** ['{0:.1e}'.format(x)] *)

Fixpoint ndigits10 (fuel : nat) (z : Z) : Z :=
  match fuel with
  | O => 1
  | S f => if z <? 10 then 1 else 1 + ndigits10 f (z / 10)
  end.

Definition digits10 (z : Z) : Z := ndigits10 (Z.to_nat (Z.log2 z) + 1) z.

(** The [x] with [10^x <= num/den < 10^(x+1)], for positive [num], [den]. *)
Definition dec_exponent (num den : Z) : Z :=
  if den <=? num then digits10 (num / den) - 1
  else
    let k := digits10 (den / num) - 1 in
    if num * 10 ^ k =? den then - k else - (k + 1).

(** Nearest integer to [num/den], ties to even. *)
Definition round_half_even (num den : Z) : Z :=
  let q := num / den in
  let r := num mod den in
  match 2 * r ?= den with
  | Lt => q
  | Gt => q + 1
  | Eq => if Z.even q then q else q + 1
  end.

Definition exp_digits (x : Z) : string :=
  let s := str_of_int (Z.abs x) in
  if Z.abs x <? 10 then "0" ++ s else s.

Definition format_1e (x : spec_float) : string :=
  match x with
  | S754_nan => "nan"
  | S754_infinity neg => if neg then "-inf" else "inf"
  | S754_zero neg => (if neg then "-" else "") ++ "0.0e+00"
  | S754_finite neg m e =>
      let num := if 0 <=? e then Zpos m * 2 ^ e else Zpos m in
      let den := if 0 <=? e then 1 else 2 ^ (- e) in
      let x0 := dec_exponent num den in
      let r0 :=
        if 1 <=? x0 then round_half_even num (den * 10 ^ (x0 - 1))
        else round_half_even (num * 10 ^ (1 - x0)) den in
      let (r, x1) := if r0 =? 100 then (10, x0 + 1) else (r0, x0) in
      (if neg then "-" else "")
      ++ String (digit_char (r / 10)) (String "." (String (digit_char (r mod 10))
           ("e" ++ (if x1 <? 0 then "-" else "+") ++ exp_digits x1)))
  end.

End Py.

(** ** The two regular expressions, as recognisers *)

Module Re.
Import Py.

Definition is_sign (c : ascii) : bool := Ascii.eqb c "+" || Ascii.eqb c "-".

Definition drop_sign (l : list ascii) : list ascii :=
  match l with
  | c :: t => if is_sign c then t else l
  | [] => []
  end.

(** [$]: the end of the text, or the position before a final newline. *)
Definition at_end (l : list ascii) : bool :=
  match l with
  | [] => true
  | [c] => Ascii.eqb c "010"
  | _ => false
  end.

(** [re.search(r'^[-+]?[0-9]*\.?[0-9]+([eE]+[-+]?[0-9]+)$', s) is not None] *)
Definition sci_re (s : string) : bool :=
  let l := drop_sign (list_ascii_of_string s) in
  let (ip, r1) := span is_digit l in
  let number :=
    match r1 with
    | c :: t =>
        if Ascii.eqb c "." then
          let (fp, r2) := span is_digit t in
          match fp with [] => None | _ :: _ => Some r2 end
        else match ip with [] => None | _ :: _ => Some r1 end
    | [] => None
    end in
  match number with
  | None => false
  | Some r2 =>
      let (es, r3) := span (fun c => Ascii.eqb (lower c) "e") r2 in
      match es with
      | [] => false
      | _ :: _ =>
          let (ds, r4) := span is_digit (drop_sign r3) in
          match ds with [] => false | _ :: _ => at_end r4 end
      end
  end.

(** Two digits, then one or more lower-case letters, read backwards. *)
Definition digits_letters_rev (r : list ascii) : bool :=
  let (ls, rest) := span is_lower r in
  match ls, rest with
  | _ :: _, d1 :: d2 :: _ => is_digit d1 && is_digit d2
  | _, _ => false
  end.

(** [re.search(r'[0-9]{2}([a-z]+)$', s) is not None] *)
Definition cluster_re (s : string) : bool :=
  let r := rev (list_ascii_of_string s) in
  digits_letters_rev r
  || match r with
     | c :: t => Ascii.eqb c "010" && digits_letters_rev t
     | [] => false
     end.

End Re.

(** ** Data model *)

(** One entry of [nuclide.decay_modes]: the keys ['mode'] and ['value']. *)
Record DecayMode : Set := mkDecayMode {
  dm_mode : string;
  dm_value : string
}.

(** A [half_life] dictionary; ['extrapolated'] holds the text of the XML
    attribute. *)
Record HalfLife : Set := mkHalfLife {
  hl_value : string;
  hl_unit : string;
  hl_relation : string;
  hl_extrapolated : string
}.

(** One entry of [nuclide.isomers]. *)
Record Isomer : Set := mkIsomer {
  iso_half_life : HalfLife;
  iso_decay_modes : list DecayMode
}.

(** A [Nuclide] object.  The class is imported from another module;
    [nuc_str] is the text that [str(nuclide)] yields. *)
Record Nuclide : Set := mkNuclide {
  nuc_Z : Z;
  nuc_A : Z;
  element : string;
  decay_modes : list DecayMode;
  half_life : HalfLife;
  isomers : list Isomer;
  nuc_str : string
}.

(** The command-line switches read by [draw_nuclide]. *)
Record Args : Set := mkArgs {
  arg_names : bool;
  arg_halflives : bool;
  arg_isomers : bool;
  arg_unknown : bool
}.

Definition with_decay_modes (n : Nuclide) (dms : list DecayMode) : Nuclide :=
  mkNuclide (nuc_Z n) (nuc_A n) (element n) dms (half_life n) (isomers n)
            (nuc_str n).

Definition with_isomers (n : Nuclide) (l : list Isomer) : Nuclide :=
  mkNuclide (nuc_Z n) (nuc_A n) (element n) (decay_modes n) (half_life n) l
            (nuc_str n).

(** ** Constants *)

Definition COLORS_table : list (string * string) :=
  [ ("is", "#000000"); ("b-", "#62aeff"); ("2b-", "#62aeff");
    ("b+", "#ff7e75"); ("ec", "#ff7e75"); ("2ec", "#ff7e75");
    ("a", "#fffe49"); ("sf", "#5cbc57"); ("p", "#ffa425");
    ("2p", "#ffa425"); ("n", "#9fd7ff"); ("2n", "#9fd7ff");
    ("it", "#ffffff"); ("cluster", "#a564cc"); ("?", "#cccccc") ].

Fixpoint assoc (k : string) (l : list (string * string)) : option string :=
  match l with
  | (k', v) :: t => if String.eqb k k' then Some v else assoc k t
  | [] => None
  end.

(** [COLORS[k]].  Every key the function looks up is in the table (lemma
    [COLORS_keys]), so the [KeyError] case is not reached. *)
Definition COLORS (k : string) : string :=
  match assoc k COLORS_table with
  | Some c => c
  | None => ""
  end.

Definition FONT_COLOR_DARK : string := "#000000".
Definition FONT_COLOR_BRIGHT : string := "#aaaaaa".
Definition SIZE_SHAPE : Z := 30.
Definition SIZE_GAP : Z := 2.
Definition SIZE_FONT : Z := 7.
Definition SIZE_FONT_HL : Z := 5.

Definition basic_decay_modes : list string :=
  [ "is"; "a"; "b-"; "b+"; "ec"; "p"; "2p"; "sf"; "n"; "2n"; "2ec"; "2b-" ].

Definition genuine_units : list string :=
  [ "d"; "h"; "m"; "s"; "Yy"; "Zy"; "Ey"; "Py"; "Ty"; "Gy"; "My"; "ky"; "y" ].

(** ** What [draw_nuclide] leaves behind *)

Definition Pos : Set := (Q * Q)%type.

(** A call of a drawing primitive: layer index, then the arguments. *)
Inductive DrawCall : Set :=
| draw_rectangle (layer : nat) (position : Pos) (color name : string)
| draw_isomer_rectangle (layer : nat) (position : Pos) (color name : string)
| draw_triangle (layer : nat) (position : Pos) (color name corner : string)
| draw_small_triangle (layer : nat) (position : Pos) (color name corner : string)
| draw_small_isomer_triangle (layer : nat) (position : Pos)
    (color name corner : string)
| draw_isomer_line (layer : nat) (p_begin p_end : Pos) (name : string)
| draw_text (layer : nat) (position : Pos) (font_color : string)
    (font_size : Z) (text : string).

Inductive Exn : Set := IndexError | ValueError | UnboundLocalError.

Inductive Exit : Set := Returned | Raised (e : Exn).

Record Outcome : Set := mkOutcome {
  out_decay_modes : list DecayMode;
  out_calls : list DrawCall;
  out_exit : Exit
}.

Inductive result (A : Type) : Type :=
| Ok (a : A)
| Err (e : Exn).

Arguments Ok {A} a.
Arguments Err {A} e.

(** ** Loops with [break] *)

Inductive Step (S : Type) : Type :=
| Next (s : S)
| Break (s : S).

Arguments Next {S} s.
Arguments Break {S} s.

(** [for x in l: body], where the body may [break]. *)
Fixpoint for_each {A S : Type} (body : A -> S -> Step S) (l : list A) (s : S) : S :=
  match l with
  | [] => s
  | a :: t =>
      match body a s with
      | Next s' => for_each body t s'
      | Break s' => s'
      end
  end.

(** [l[i] = x] for an index inside the list. *)
Fixpoint set_nth {A : Type} (i : nat) (x : A) (l : list A) : list A :=
  match l, i with
  | [], _ => []
  | _ :: t, O => x :: t
  | a :: t, S j => a :: set_nth j x t
  end.

(** [l[0], l[i] = l[i], l[0]] *)
Definition swap_first {A : Type} (l : list A) (i : nat) : list A :=
  match nth_error l i, nth_error l 0 with
  | Some li, Some l0 => set_nth i l0 (set_nth 0 li l)
  | _, _ => l
  end.

(** ** Primary decay mode (lines 444-462) *)

Definition is_basic (dm : DecayMode) : bool :=
  Py.str_in (dm_mode dm) basic_decay_modes.

(** The first [i] in [range(start, start + len(l))] whose entry is basic;
    [l] is the list from index [start] on. *)
Fixpoint first_basic (start : nat) (l : list DecayMode) : option nat :=
  match l with
  | [] => None
  | dm :: t => if is_basic dm then Some start else first_basic (S start) t
  end.

Inductive Primary : Set :=
| primary_ok (dms : list DecayMode) (primary_color : string)
| primary_return
| primary_index_error.

Definition primary_pass (dms : list DecayMode) (unknown : bool) : Primary :=
  match dms with
  | [] => primary_index_error
  | dm0 :: rest =>
      if is_basic dm0 then primary_ok dms (COLORS (dm_mode dm0))
      else if (dm_mode dm0 =? "?")%string && unknown
      then primary_ok dms (COLORS "?")
      else if (1 <? List.length dms)%nat then
        match first_basic 1 rest with
        | Some i =>
            let dms' := swap_first dms i in
            primary_ok dms' (COLORS (dm_mode (hd dm0 dms')))
        | None => primary_return
        end
      else primary_return
  end.

(** ** Secondary and tertiary decay modes (lines 477-515) *)

Inductive Size : Set := large | small.

(** The variables [secondary_size] and [secondary_color] (or the tertiary
    pair): the size starts as Python's [None], the colour starts unbound. *)
Record Marker : Set := mkMarker {
  m_size : option Size;
  m_color : option string
}.

Definition no_marker : Marker := mkMarker None None.

Definition size_is (s : Size) (m : Marker) : bool :=
  match m_size m, s with
  | Some large, large => true
  | Some small, small => true
  | _, _ => false
  end.

Definition is_stable_color (c : string) : bool := (c =? COLORS "is")%string.

(** Body of the loop of lines 480-495. *)
Definition secondary_body (primary_color : string) (dm : DecayMode)
    (st : Marker) : Step Marker :=
  if is_basic dm then
    match Py.float (Py.str_strip (dm_value dm) "#") with
    | None => Next st
    | Some v =>
        let secondary_color := Some (COLORS (dm_mode dm)) in
        if Py.float_gt v Py.lit_5_0 && negb (is_stable_color primary_color)
        then Next (mkMarker (Some large) secondary_color)
        else if Py.float_gt v Py.lit_0_0
        then Next (mkMarker (Some small) secondary_color)
        else Next (mkMarker (m_size st) secondary_color)
    end
  else if Re.cluster_re (dm_mode dm)
  then Break (mkMarker (Some small) (Some (COLORS "cluster")))
  else Next st.

(** Body of the loop of lines 500-515 (and of its copy, lines 661-676). *)
Definition tertiary_body (dm : DecayMode) (st : Marker) : Step Marker :=
  if is_basic dm then
    match Py.float (Py.str_strip (dm_value dm) "#") with
    | None => Next st
    | Some v =>
        if Py.float_gt v Py.lit_0_0
        then Break (mkMarker (Some small) (Some (COLORS (dm_mode dm))))
        else Break st
    end
  else if Re.cluster_re (dm_mode dm)
  then Break (mkMarker (Some small) (Some (COLORS "cluster")))
  else Next st.

Definition secondary_pass (primary_color : string) (dms : list DecayMode) : Marker :=
  if (1 <? List.length dms)%nat
  then for_each (secondary_body primary_color) (skipn 1 dms) no_marker
  else no_marker.

Definition tertiary_wanted (primary_color : string) (dms : list DecayMode)
    (sec : Marker) : bool :=
  (2 <? List.length dms)%nat
  && (size_is large sec || (size_is small sec && is_stable_color primary_color)).

Definition tertiary_pass (primary_color : string) (dms : list DecayMode)
    (sec : Marker) : Marker :=
  if (1 <? List.length dms)%nat && tertiary_wanted primary_color dms sec
  then for_each tertiary_body (skipn 2 dms) no_marker
  else no_marker.

(** ** Corners and triangles (lines 520-557 and 684-721) *)

Definition corner_large (color primary_color : string) : string :=
  if (color =? COLORS "a")%string then "lt"
  else if (color =? COLORS "b+")%string
          && negb (primary_color =? COLORS "a")%string
          && negb (primary_color =? COLORS "p")%string
  then "lt"
  else "rb".

Definition corner_small (color primary_color : string) : string :=
  if (color =? COLORS "a")%string then "lt"
  else if (color =? COLORS "b+")%string
          && negb (primary_color =? COLORS "a")%string
          && negb (primary_color =? COLORS "p")%string
  then "lt"
  else if (color =? COLORS "cluster")%string then "rt"
  else "rb".

(** The third test reads [secondary_color] only when the first two hold. *)
Definition corner_tertiary (color primary_color : string)
    (secondary_color : option string) : result string :=
  if (color =? COLORS "a")%string then Ok "lt"
  else if (color =? COLORS "b+")%string
          && negb (primary_color =? COLORS "a")%string
  then
    match secondary_color with
    | None => Err UnboundLocalError
    | Some sc =>
        if negb (sc =? COLORS "a")%string then Ok "lt"
        else if (color =? COLORS "cluster")%string then Ok "rt"
        else Ok "rb"
    end
  else if (color =? COLORS "cluster")%string then Ok "rt"
  else Ok "rb".

Definition Triangle : Set := nat -> Pos -> string -> string -> string -> DrawCall.

(** The secondary triangle; [small_triangle] is [_draw_small_triangle] for
    the ground state and [_draw_small_isomer_triangle] for an isomer. *)
Definition secondary_calls (small_triangle : Triangle) (nuclide : Nuclide)
    (position : Pos) (primary_color : string) (sec : Marker)
    : list DrawCall * option Exn :=
  match m_size sec with
  | Some large =>
      match m_color sec with
      | Some c =>
          ([draw_triangle 1 position c (nuc_str nuclide ++ "1")
              (corner_large c primary_color)], None)
      | None => ([], Some UnboundLocalError)
      end
  | Some small =>
      match m_color sec with
      | Some c =>
          ([small_triangle 1%nat position c (nuc_str nuclide ++ "1")
              (corner_small c primary_color)], None)
      | None => ([], Some UnboundLocalError)
      end
  | None => ([], None)
  end.

Definition tertiary_calls (small_triangle : Triangle) (nuclide : Nuclide)
    (position : Pos) (primary_color : string) (sec ter : Marker)
    : list DrawCall * option Exn :=
  match m_size ter with
  | Some small =>
      match m_color ter with
      | Some c =>
          match corner_tertiary c primary_color (m_color sec) with
          | Ok corner =>
              ([small_triangle 1%nat position c (nuc_str nuclide ++ "2") corner],
               None)
          | Err e => ([], Some e)
          end
      | None => ([], Some UnboundLocalError)
      end
  | _ => ([], None)
  end.

Definition marker_calls (small_triangle : Triangle) (nuclide : Nuclide)
    (position : Pos) (primary_color : string) (sec ter : Marker)
    : list DrawCall * option Exn :=
  match secondary_calls small_triangle nuclide position primary_color sec with
  | (c1, Some e) => (c1, Some e)
  | (c1, None) =>
      let (c2, e) :=
        tertiary_calls small_triangle nuclide position primary_color sec ter in
      ((c1 ++ c2)%list, e)
  end.

(** ** Half-life texts *)

Definition element_name (nuclide : Nuclide) : string :=
  "$*" ++ Py.str_of_int (nuc_A nuclide) ++ "*$" ++ element nuclide.

(** Lines 790-797 and 738-745: a value in scientific notation is rewritten
    with [{0:.1e}]; the [ValueError] of [float] is not caught there. *)
Definition sci_format (half_life_string : string) : result string :=
  if Re.sci_re half_life_string then
    match Py.float half_life_string with
    | Some hl => Ok (Py.format_1e hl)
    | None => Err ValueError
    end
  else Ok half_life_string.

(** Lines 789-803: the text under the name on the normal path. *)
Definition half_life_text (nuclide : Nuclide) (dms : list DecayMode)
    (primary_color : string) : result string :=
  let hl := half_life nuclide in
  if negb (is_stable_color primary_color) then
    match sci_format (hl_value hl) with
    | Err e => Err e
    | Ok half_life_string =>
        if negb (hl_value hl =? "?")%string then
          let half_life_string := half_life_string ++ " " ++ hl_unit hl in
          if negb (hl_relation hl =? "=")%string
          then Ok (hl_relation hl ++ " " ++ half_life_string)
          else Ok half_life_string
        else Ok half_life_string
    end
  else
    match dms with
    | dm0 :: _ => Ok (dm_value dm0 ++ "%")
    | [] => Err IndexError
    end.

(** Lines 738-753: [half_life_string] and [half_life_unit] on the isomer
    path; the second is left unbound when the value is ["?"]. *)
Definition isomer_captions (nuclide : Nuclide) (dms : list DecayMode)
    : result (string * option string) :=
  let hl := half_life nuclide in
  match sci_format (hl_value hl) with
  | Err e => Err e
  | Ok half_life_string =>
      if negb (hl_value hl =? "?")%string then
        if negb (hl_relation hl =? "=")%string
        then Ok (hl_relation hl, Some (hl_value hl))
        else Ok (half_life_string, Some (hl_unit hl))
      else
        match dms with
        | dm0 :: _ => Ok (dm_value dm0 ++ "%", None)
        | [] => Err IndexError
        end
  end.

(** ** Isomers (lines 588-759) *)

(** The test of lines 594 and 601 (and 1045, 1051). *)
Definition genuine (iso : Isomer) : bool :=
  (hl_relation (iso_half_life iso) =? "=")%string
  && Py.str_in (hl_unit (iso_half_life iso)) genuine_units.

Definition is_basic_or_it (dm : DecayMode) : bool :=
  is_basic dm || (dm_mode dm =? "it")%string.

(** Lines 617-627: the loop over [range(0, 1)]. *)
Definition isomer_primary (isomer_decay_modes : list DecayMode)
    (isomer_primary_color : string) : string :=
  match isomer_decay_modes with
  | dm :: _ =>
      if is_basic_or_it dm then
        match Py.float (Py.str_strip (dm_value dm) "#") with
        | Some _ => COLORS (dm_mode dm)
        | None => isomer_primary_color
        end
      else isomer_primary_color
  | [] => isomer_primary_color
  end.

(** Body of the loop of lines 630-656. *)
Definition isomer_secondary_body (isomer_primary_color : string)
    (dm : DecayMode) (st : Marker) : Step Marker :=
  if is_basic_or_it dm then
    match Py.float (Py.str_strip (dm_value dm) "#") with
    | None => Next st
    | Some v =>
        let isomer_secondary_color := Some (COLORS (dm_mode dm)) in
        if Py.float_gt v Py.lit_5_0 && negb (is_stable_color isomer_primary_color)
        then Next (mkMarker (Some large) isomer_secondary_color)
        else if Py.float_gt v Py.lit_0_0
        then Next (mkMarker (Some small) isomer_secondary_color)
        else Next (mkMarker (m_size st) isomer_secondary_color)
    end
  else if Re.cluster_re (dm_mode dm)
  then Break (mkMarker (Some small) (Some (COLORS "cluster")))
  else Next st.

Definition isomer_secondary_pass (isomer_primary_color : string)
    (dms : list DecayMode) : Marker :=
  if (1 <? List.length dms)%nat
  then for_each (isomer_secondary_body isomer_primary_color) (skipn 1 dms) no_marker
  else no_marker.

Definition qz (z : Z) : Q := inject_Z z.

Definition isomer_id (nuclide : Nuclide) (suffix : string) : string :=
  Py.str_of_int (nuc_A nuclide) ++ Py.str_of_int (nuc_Z nuclide) ++ suffix.

(** Lines 723-730: the inset rectangle and the divider line. *)
Definition isomer_inset (nuclide : Nuclide) (position : Pos) (color : string)
    : list DrawCall :=
  let loc_1 := (fst position + qz SIZE_SHAPE / 2,
                snd position + qz SIZE_SHAPE * 0.3 + 0.2)%Q in
  let loc_2 := (fst position + qz SIZE_SHAPE / 2,
                snd position + qz SIZE_SHAPE - 0.2)%Q in
  [ draw_isomer_rectangle 0 position color (isomer_id nuclide "ib");
    draw_isomer_line 1 loc_1 loc_2 (isomer_id nuclide "iline") ].

Definition isomer_text_y1 (position : Pos) : Q :=
  (snd position + qz SIZE_SHAPE * 0.5)%Q.
Definition isomer_text_y2 (position : Pos) : Q :=
  (isomer_text_y1 position + qz SIZE_FONT_HL * 0.75)%Q.
Definition isomer_text_x1 (position : Pos) : Q :=
  (fst position + 0.25 * qz SIZE_SHAPE)%Q.
Definition isomer_text_x2 (position : Pos) : Q :=
  (fst position + 0.75 * qz SIZE_SHAPE)%Q.

(** The calls of lines 756-759: a caption in one of the two columns and
    one of the two rows of the lower half of the cell. *)
Definition caption (position : Pos) (font_color : string)
    (x y : Pos -> Q) (text : string) : DrawCall :=
  draw_text 3 (x position, y position) font_color (SIZE_FONT_HL - 2) text.

(** One turn of the loop of line 588 for an isomer that passes the tests of
    lines 594 and 601.  [isomer_primary_color] is the only variable a turn
    hands to the next one. *)
Definition isomer_body (nuclide : Nuclide) (dms : list DecayMode)
    (position : Pos) (font_color : string) (possible_isomers : Isomer)
    (isomer_primary_color : string) : string * list DrawCall * option Exn :=
  let isomer_half_life := hl_value (iso_half_life possible_isomers) in
  let isomer_half_life_units := hl_unit (iso_half_life possible_isomers) in
  let isomer_decay_modes := iso_decay_modes possible_isomers in
  let isomer_primary_color := isomer_primary isomer_decay_modes isomer_primary_color in
  let sec := isomer_secondary_pass isomer_primary_color isomer_decay_modes in
  let ter := tertiary_pass isomer_primary_color isomer_decay_modes sec in
  match marker_calls draw_small_isomer_triangle nuclide position
          isomer_primary_color sec ter with
  | (shapes, Some e) => (isomer_primary_color, shapes, Some e)
  | (shapes, None) =>
      let inset := (shapes ++ isomer_inset nuclide position isomer_primary_color)%list in
      match isomer_captions nuclide dms with
      | Err e => (isomer_primary_color, inset, Some e)
      | Ok (half_life_string, half_life_unit) =>
          let text := caption position font_color in
          let first := text isomer_text_x2 isomer_text_y1 half_life_string in
          match half_life_unit with
          | None =>
              (isomer_primary_color, (inset ++ [first])%list, Some UnboundLocalError)
          | Some half_life_unit =>
              (isomer_primary_color,
               (inset ++
                [ first;
                  text isomer_text_x2 isomer_text_y2 half_life_unit;
                  text isomer_text_x1 isomer_text_y1 isomer_half_life;
                  text isomer_text_x1 isomer_text_y2 isomer_half_life_units ])%list,
               None)
          end
      end
  end.

(** The loop of line 588: there is no [break], every isomer is visited. *)
Fixpoint isomer_loop (nuclide : Nuclide) (dms : list DecayMode) (position : Pos)
    (font_color : string) (found_isomers : list Isomer)
    (isomer_primary_color : string) : list DrawCall * option Exn :=
  match found_isomers with
  | [] => ([], None)
  | possible_isomers :: rest =>
      if genuine possible_isomers then
        match isomer_body nuclide dms position font_color possible_isomers
                isomer_primary_color with
        | (_, calls, Some e) => (calls, Some e)
        | (color, calls, None) =>
            let (calls', e) :=
              isomer_loop nuclide dms position font_color rest color in
            ((calls ++ calls')%list, e)
        end
      else isomer_loop nuclide dms position font_color rest isomer_primary_color
  end.

(** ** [draw_nuclide] *)

Definition exit_of (e : option Exn) : Exit :=
  match e with
  | Some x => Raised x
  | None => Returned
  end.

(** Line 559. *)
Definition font_color_of (primary_color : string) : string :=
  if is_stable_color primary_color then FONT_COLOR_BRIGHT else FONT_COLOR_DARK.

(** Lines 464-810: what follows once the primary colour is known; [dms] is
    [nuclide.decay_modes] as the first block left it. *)
Definition draw_classified (nuclide : Nuclide) (dms : list DecayMode)
    (primary_color : string) (position : Pos) (args : Args) (is_isomer : bool)
    : Outcome :=
  if 0 <=? Py.str_find (hl_value (half_life nuclide)) "unstable"
  then mkOutcome dms [] Returned
  else
    let sec := secondary_pass primary_color dms in
    let ter := tertiary_pass primary_color dms sec in
    let rectangle :=
      draw_rectangle 0 position primary_color (nuc_str nuclide ++ "0") in
    match marker_calls draw_small_triangle nuclide position primary_color
            sec ter with
    | (triangles, Some e) => mkOutcome dms (rectangle :: triangles) (Raised e)
    | (triangles, None) =>
        let shapes := rectangle :: triangles in
        let font_color := font_color_of primary_color in
        if arg_isomers args && is_isomer then
          if arg_names args then
            let tx := (fst position + qz SIZE_SHAPE / 2)%Q in
            let ty := (snd position + qz SIZE_GAP + 0.9 * qz SIZE_FONT)%Q in
            let name :=
              draw_text 3 (tx, ty) font_color (SIZE_FONT - 2)
                (element_name nuclide) in
            let (calls, e) :=
              isomer_loop nuclide dms position font_color (isomers nuclide)
                primary_color in
            mkOutcome dms (shapes ++ name :: calls) (exit_of e)
          else mkOutcome dms shapes Returned
        else
          let name :=
            if arg_names args then
              let tx := (fst position + qz SIZE_SHAPE / 2)%Q in
              let ty := (snd position + qz SIZE_GAP + 1.25 * qz SIZE_FONT)%Q in
              [draw_text 3 (tx, ty) font_color SIZE_FONT (element_name nuclide)]
            else [] in
          if arg_halflives args
             && negb (hl_extrapolated (half_life nuclide) =? "True")%string
          then
            match half_life_text nuclide dms primary_color with
            | Err e => mkOutcome dms (shapes ++ name) (Raised e)
            | Ok half_life_string =>
                let tx := (fst position + qz SIZE_SHAPE / 2)%Q in
                let ty := (snd position + qz SIZE_SHAPE
                           - 1.5 * qz SIZE_FONT_HL)%Q in
                mkOutcome dms
                  (shapes ++ name
                   ++ [draw_text 3 (tx, ty) font_color SIZE_FONT_HL
                         half_life_string])
                  Returned
            end
          else mkOutcome dms (shapes ++ name) Returned
    end.

Definition draw_nuclide (nuclide : Nuclide) (position : Pos) (args : Args)
    (is_isomer : bool) : Outcome :=
  match primary_pass (decay_modes nuclide) (arg_unknown args) with
  | primary_index_error => mkOutcome (decay_modes nuclide) [] (Raised IndexError)
  | primary_return => mkOutcome (decay_modes nuclide) [] Returned
  | primary_ok dms primary_color =>
      draw_classified nuclide dms primary_color position args is_isomer
  end.

(** ** The main loop (lines 1019, 1039-1052 and 1237-1240) *)

(** [is_isomer]: set as soon as one isomer passes the two tests. *)
Definition main_is_isomer (nuclide : Nuclide) : bool :=
  fold_left (fun is_isomer possible_isomers =>
               if genuine possible_isomers then true else is_isomer)
            (isomers nuclide) false.

(** One turn of the main loop for a nuclide: line 1031 reads
    [nuclide.decay_modes[0]] outside any [try], so an empty list ends the
    program there with [IndexError]; then the call of line 1238, with the
    handler of line 1239. *)
Definition main_draw (nuclide : Nuclide) (position : Pos) (args : Args) : Outcome :=
  match decay_modes nuclide with
  | [] => mkOutcome [] [] (Raised IndexError)
  | _ :: _ =>
      let o := draw_nuclide nuclide position args (main_is_isomer nuclide) in
      match out_exit o with
      | Raised IndexError => mkOutcome (out_decay_modes o) (out_calls o) Returned
      | _ => o
      end
  end.

(** ** Reading an outcome *)

Definition step_state {S : Type} (s : Step S) : S :=
  match s with
  | Next x => x
  | Break x => x
  end.

(** The texts written, in the order of the calls. *)
Fixpoint texts (calls : list DrawCall) : list string :=
  match calls with
  | [] => []
  | draw_text _ _ _ _ t :: rest => t :: texts rest
  | _ :: rest => texts rest
  end.

(** The number of inset isomer rectangles drawn. *)
Fixpoint count_insets (calls : list DrawCall) : nat :=
  match calls with
  | [] => 0
  | draw_isomer_rectangle _ _ _ _ :: rest => S (count_insets rest)
  | _ :: rest => count_insets rest
  end.

(** A marker whose size is set has its colour bound. *)
Definition bound (m : Marker) : Prop :=
  m_size m = None \/ exists c, m_color m = Some c.

(** Two records that agree on everything but their decay modes and their
    isomers. *)
Definition same_cell (n n' : Nuclide) : Prop :=
  nuc_Z n = nuc_Z n' /\ nuc_A n = nuc_A n' /\ element n = element n'
  /\ half_life n = half_life n' /\ nuc_str n = nuc_str n'.

(** The resolver in the words of the specification: the first isomer, in
    the given order, that passes the test; used only to compare with what
    the loop of line 588 does. *)
Definition findGenuineIsomer (l : list Isomer) : option Isomer :=
  find genuine l.

Definition only_first_genuine (n : Nuclide) : Nuclide :=
  with_isomers n
    (match findGenuineIsomer (isomers n) with
     | Some iso => [iso]
     | None => []
     end).

(** The base rectangle and the triangles of lines 517-557. *)
Definition ground_shapes (n : Nuclide) (dms : list DecayMode) (pc : string)
    (pos : Pos) : list DrawCall :=
  draw_rectangle 0 pos pc (nuc_str n ++ "0")
  :: fst (marker_calls draw_small_triangle n pos pc (secondary_pass pc dms)
            (tertiary_pass pc dms (secondary_pass pc dms))).

(** The triangles of lines 684-721 for an isomer of primary colour [ipc]. *)
Definition isomer_triangles (n : Nuclide) (pos : Pos) (ipc : string)
    (idms : list DecayMode) : list DrawCall :=
  fst (marker_calls draw_small_isomer_triangle n pos ipc
         (isomer_secondary_pass ipc idms)
         (tertiary_pass ipc idms (isomer_secondary_pass ipc idms))).

(** The four captions of lines 756-759: ground state on the right, isomer
    on the left. *)
Definition four_captions (pos : Pos) (fc s u : string) (iso : Isomer)
    : list DrawCall :=
  [ caption pos fc isomer_text_x2 isomer_text_y1 s;
    caption pos fc isomer_text_x2 isomer_text_y2 u;
    caption pos fc isomer_text_x1 isomer_text_y1 (hl_value (iso_half_life iso));
    caption pos fc isomer_text_x1 isomer_text_y2 (hl_unit (iso_half_life iso)) ].

(** The texts of [four_captions]. *)
Definition captions_of (s u : string) (iso : Isomer) : list string :=
  [s; u; hl_value (iso_half_life iso); hl_unit (iso_half_life iso)].

(** Where lines 806-807 put the half-life text. *)
Definition half_life_position (pos : Pos) : Pos :=
  (fst pos + qz SIZE_SHAPE / 2, snd pos + qz SIZE_SHAPE - 1.5 * qz SIZE_FONT_HL)%Q.

(** ** Sample records *)

Definition origin : Pos := (0, 0)%Q.

Definition all_on : Args := mkArgs true true true true.
Definition names_off : Args := mkArgs false true true true.

Definition hl_years : HalfLife := mkHalfLife "12.3" "y" "=" "False".
Definition hl_upper_bound : HalfLife := mkHalfLife "12.3" "y" "<" "False".
Definition hl_unknown : HalfLife := mkHalfLife "?" "" "" "False".
Definition hl_extrapolated_years : HalfLife := mkHalfLife "12.3" "y" "=" "True".
Definition hl_p_unstable : HalfLife := mkHalfLife "p-unstable" "" "=" "False".

Definition iso_it : Isomer :=
  mkIsomer (mkHalfLife "1.5" "s" "=" "False") [mkDecayMode "it" "100"].
Definition iso_beta : Isomer :=
  mkIsomer (mkHalfLife "2.5" "h" "=" "False") [mkDecayMode "b-" "100"].
Definition iso_placeholder : Isomer :=
  mkIsomer (mkHalfLife "1" "s" "<" "False") [mkDecayMode "it" "100"].

Definition sample (dms : list DecayMode) (hl : HalfLife) (isos : list Isomer)
    : Nuclide :=
  mkNuclide 1 3 "H" dms hl isos "3H".

Definition beta_only : list DecayMode := [mkDecayMode "b-" "100"].

(** beta-minus first, then alpha at 10 % and fission at 3 %. *)
Definition three_modes : list DecayMode :=
  [mkDecayMode "b-" "100"; mkDecayMode "a" "10"; mkDecayMode "sf" "3"].

(** A delayed-proton mode listed before the basic mode it belongs to. *)
Definition out_of_order : list DecayMode :=
  [mkDecayMode "b+p" "1"; mkDecayMode "b+" "99"].

(** The same with a fission branch of 0 %. *)
Definition three_modes_zero : list DecayMode :=
  [mkDecayMode "b-" "100"; mkDecayMode "a" "10"; mkDecayMode "sf" "0"].

Definition no_basic_mode : list DecayMode :=
  [mkDecayMode "b+p" "60"; mkDecayMode "b-n" "40"].

(** A placeholder isomer followed by two genuine ones. *)
Definition three_isomers : list Isomer := [iso_placeholder; iso_it; iso_beta].

(** ** The loader (lines 105-156) *)

(** One [<nuclide>] element of the parsed document, as the loop of line 130
    sees it: [int_A] and [int_Z] are the results of
    [int(nuclide.getAttribute('A'))] and [int(nuclide.getAttribute('Z'))],
    [None] when [int] raises [ValueError]; [NuclideXml Z A] is the result of
    the constructor [NuclideXml(Z, A, nuclide)] of the imported class, [None]
    when it raises [ValueError] or [LookupError]. *)
Record XmlNuclide : Type := mkXmlNuclide {
  int_A : option Z;
  int_Z : option Z;
  NuclideXml : Z -> Z -> option Nuclide
}.

(** A two-element list [[low, high]]: a requested range, or found limits. *)
Definition Range : Set := (Z * Z)%type.

(** What the loader leaves: [False] or the list of nuclides, and in both
    cases the two limit lists of the caller, which it has updated in place. *)
Inductive Loaded : Type :=
| load_False (n_limits z_limits : Range)
| load_data (data : list Nuclide) (n_limits z_limits : Range).

(** [r[0] <= v <= r[1]] *)
Definition in_range (r : Range) (v : Z) : bool :=
  (fst r <=? v) && (v <=? snd r).

(** Lines 141-148, for one of the two limit lists. *)
Definition widen (limits : Range) (v : Z) : Range :=
  let low := if v <? fst limits then v else fst limits in
  let high := if snd limits <? v then v else snd limits in
  (low, high).

(** The loop of lines 130-155. *)
Fixpoint load_loop (n_range z_range : Range) (nodes : list XmlNuclide)
    (data : list Nuclide) (n_limits z_limits : Range) : Loaded :=
  match nodes with
  | [] => load_data data n_limits z_limits
  | nuclide :: rest =>
      match int_A nuclide with
      | None => load_False n_limits z_limits
      | Some A =>
          match int_Z nuclide with
          | None => load_False n_limits z_limits
          | Some Z_ =>
              let N := A - Z_ in
              if negb (in_range n_range N && in_range z_range Z_)
              then load_loop n_range z_range rest data n_limits z_limits
              else if (snd n_range <? N) && (snd z_range <? Z_)
              then load_data data n_limits z_limits
              else
                let n_limits := widen n_limits N in
                let z_limits := widen z_limits Z_ in
                match NuclideXml nuclide Z_ A with
                | None => load_False n_limits z_limits
                | Some isotope =>
                    load_loop n_range z_range rest (data ++ [isotope])
                      n_limits z_limits
                end
          end
      end
  end.

(** [load_xml_nuclear_table] once the document is parsed: the limits start
    as the requested ranges turned round (lines 117-121). *)
Definition load_xml_nuclear_table (nodes : list XmlNuclide)
    (n_range z_range : Range) : Loaded :=
  load_loop n_range z_range nodes []
    (snd n_range, fst n_range) (snd z_range, fst z_range).

(** The neutron and proton numbers of an element whose attributes parse. *)
Definition node_NZ (nuclide : XmlNuclide) : option (Z * Z) :=
  match int_A nuclide, int_Z nuclide with
  | Some A, Some Z_ => Some (A - Z_, Z_)
  | _, _ => None
  end.

(** An element that the loader keeps. *)
Definition node_kept (n_range z_range : Range) (nuclide : XmlNuclide) : bool :=
  match node_NZ nuclide with
  | Some (N, Z_) => in_range n_range N && in_range z_range Z_
  | None => false
  end.

(** An element on which the loader gives up: an attribute that is not an
    integer, or an element inside the ranges that the constructor rejects. *)
Definition node_fails (n_range z_range : Range) (nuclide : XmlNuclide) : bool :=
  match int_A nuclide, int_Z nuclide with
  | Some A, Some Z_ =>
      in_range n_range (A - Z_) && in_range z_range Z_
      && match NuclideXml nuclide Z_ A with Some _ => false | None => true end
  | _, _ => true
  end.

(** What the constructor gives for an element, as a list of zero or one
    nuclide. *)
Definition node_built (nuclide : XmlNuclide) : list Nuclide :=
  match int_A nuclide, int_Z nuclide with
  | Some A, Some Z_ =>
      match NuclideXml nuclide Z_ A with Some isotope => [isotope] | None => [] end
  | _, _ => []
  end.

(** ** The grid of the main program (lines 997-1011 and 1232-1236) *)

Definition SIZE_FIELD : Z := SIZE_SHAPE + SIZE_GAP.

Definition MAGIC_NUMBERS : list Z := [2; 8; 20; 28; 50; 82; 126].

(** Lines 997-998: [size]. *)
Definition picture_size (n_limits z_limits : Range) : Z * Z :=
  ((snd n_limits - fst n_limits + 2) * SIZE_FIELD + SIZE_GAP,
   (snd z_limits - fst z_limits + 2) * SIZE_FIELD + SIZE_GAP).

(** Lines 1235-1236: the upper left corner [[x, y]] of the cell of a
    nuclide. *)
Definition cell_position (n_limits z_limits : Range) (size : Z * Z) (N Z_ : Z)
    : Z * Z :=
  ((N - fst n_limits + 1) * SIZE_FIELD + SIZE_GAP,
   snd size - (Z_ - fst z_limits + 2) * SIZE_FIELD).

(** Lines 1006-1011: [shape], one list of flags per neutron number. *)
Definition empty_shape (n_limits z_limits : Range) : list (list bool) :=
  repeat (repeat false (Z.to_nat (snd z_limits + 1 - fst z_limits)))
         (Z.to_nat (snd n_limits + 1 - fst n_limits)).

(** A list index as Python resolves it: a negative index counts from the
    end, and [None] stands for [IndexError]. *)
Definition py_index (len : nat) (i : Z) : option nat :=
  if (0 <=? i) && (i <? Z.of_nat len) then Some (Z.to_nat i)
  else if (- Z.of_nat len <=? i) && (i <? 0) then Some (Z.to_nat (i + Z.of_nat len))
  else None.

(** Line 1232: [shape[N - n_limits[0]][Z - z_limits[0]] = True]. *)
Definition mark_shape (shape : list (list bool)) (n_limits z_limits : Range)
    (N Z_ : Z) : option (list (list bool)) :=
  match py_index (List.length shape) (N - fst n_limits) with
  | None => None
  | Some i =>
      match nth_error shape i with
      | None => None
      | Some row =>
          match py_index (List.length row) (Z_ - fst z_limits) with
          | None => None
          | Some j => Some (set_nth i (set_nth j true row) shape)
          end
      end
  end.

(** Line 1232 over the whole data, each nuclide given by its [(N, Z)]. *)
Fixpoint mark_all (shape : list (list bool)) (n_limits z_limits : Range)
    (cells : list (Z * Z)) : option (list (list bool)) :=
  match cells with
  | [] => Some shape
  | (N, Z_) :: rest =>
      match mark_shape shape n_limits z_limits N Z_ with
      | None => None
      | Some shape' => mark_all shape' n_limits z_limits rest
      end
  end.

(** ** Magic numbers (lines 1013-1014 and 1055-1066) *)

(** The dictionaries [n_magic] and [z_magic]: keys in insertion order, each
    with its list [[first, last]]. *)
Definition Magic : Set := list (Z * Range).

Fixpoint magic_get (m : Magic) (k : Z) : option Range :=
  match m with
  | [] => None
  | (k', limits) :: rest => if k =? k' then Some limits else magic_get rest k
  end.

(** [m[k][1] = v] *)
Fixpoint magic_set_last (m : Magic) (k v : Z) : Magic :=
  match m with
  | [] => []
  | (k', limits) :: rest =>
      if k =? k' then (k', (fst limits, v)) :: rest
      else (k', limits) :: magic_set_last rest k v
  end.

(** Lines 1056-1060 (and 1062-1066 with the roles of N and Z exchanged). *)
Definition magic_note (m : Magic) (k v : Z) : Magic :=
  match magic_get m k with
  | Some limits => if snd limits <? v then magic_set_last m k v else m
  | None => (m ++ [(k, (v, v))])%list
  end.

Definition is_magic (k : Z) : bool := existsb (Z.eqb k) MAGIC_NUMBERS.

(** Lines 1055-1060 over the whole data. *)
Fixpoint n_magic_of (m : Magic) (cells : list (Z * Z)) : Magic :=
  match cells with
  | [] => m
  | (N, Z_) :: rest =>
      n_magic_of (if is_magic N then magic_note m N Z_ else m) rest
  end.

(** Lines 1061-1066 over the whole data. *)
Fixpoint z_magic_of (m : Magic) (cells : list (Z * Z)) : Magic :=
  match cells with
  | [] => m
  | (N, Z_) :: rest =>
      z_magic_of (if is_magic Z_ then magic_note m Z_ N else m) rest
  end.

(** The proton numbers met for neutron number [k], in the order of the
    data. *)
Definition protons_at (k : Z) (cells : list (Z * Z)) : list Z :=
  map snd (filter (fun c => fst c =? k) cells).

(** ** Lines and numbers around the cells (lines 836-878) *)

(** A call of [_draw_line] or [_draw_border_line], or of [_draw_text] with
    the fractional font size of the axis numbers. *)
Inductive ChartCall : Set :=
| draw_line (layer : nat) (p_begin p_end : Pos) (name : string)
| draw_border_line (layer : nat) (p_begin p_end : Pos) (name : string)
| draw_number (layer : nat) (position : Pos) (font_color : string)
    (font_size : Q) (text : string).

(** Lines 838-846: the two vertical lines of one entry of [n_magic]. *)
Definition n_magic_lines (n_limits z_limits : Range) (size : Z * Z)
    (entry : Z * Range) : list ChartCall :=
  let N := fst entry in
  let limits := snd entry in
  let x1 := (qz ((N - fst n_limits + 1) * SIZE_FIELD) + qz SIZE_GAP / 2)%Q in
  let y1 := (qz (snd size - (snd limits - fst z_limits + 2) * SIZE_FIELD)
             - qz SIZE_GAP / 2)%Q in
  let y2 := (qz (snd size - (fst limits - fst z_limits + 1) * SIZE_FIELD)
             - qz SIZE_GAP / 2)%Q in
  let x1' := (qz ((N - fst n_limits + 2) * SIZE_FIELD) + qz SIZE_GAP / 2)%Q in
  [ draw_line 2 (x1, y1) (x1, y2) (Py.str_of_int N ++ "n0");
    draw_line 2 (x1', y1) (x1', y2) (Py.str_of_int N ++ "n1") ].

(** Lines 848-856: the two horizontal lines of one entry of [z_magic]. *)
Definition z_magic_lines (n_limits z_limits : Range) (size : Z * Z)
    (entry : Z * Range) : list ChartCall :=
  let Z_ := fst entry in
  let limits := snd entry in
  let x1 := (qz ((fst limits - fst n_limits + 1) * SIZE_FIELD) + qz SIZE_GAP / 2)%Q in
  let x2 := (qz ((snd limits - fst n_limits + 2) * SIZE_FIELD) + qz SIZE_GAP / 2)%Q in
  let y1 := (qz (snd size - (Z_ - fst z_limits + 2) * SIZE_FIELD)
             - qz SIZE_GAP / 2)%Q in
  let y1' := (qz (snd size - (Z_ - fst z_limits + 1) * SIZE_FIELD)
              - qz SIZE_GAP / 2)%Q in
  [ draw_line 2 (x1, y1) (x2, y1) (Py.str_of_int Z_ ++ "z0");
    draw_line 2 (x1, y1') (x2, y1') (Py.str_of_int Z_ ++ "z1") ].

(** [draw_magic_lines]: the dictionaries are walked in insertion order. *)
Definition draw_magic_lines (n_magic z_magic : Magic)
    (n_limits z_limits : Range) (size : Z * Z) : list ChartCall :=
  (flat_map (n_magic_lines n_limits z_limits size) n_magic
   ++ flat_map (z_magic_lines n_limits z_limits size) z_magic)%list.

(** Lines 814-822: the two vertical border lines of one entry of
    [n_targets]. *)
Definition n_target_lines (n_limits z_limits : Range) (size : Z * Z)
    (entry : Z * Range) : list ChartCall :=
  let N := fst entry in
  let limits := snd entry in
  let x1 := (qz ((N - fst n_limits + 1) * SIZE_FIELD) + qz SIZE_GAP / 2)%Q in
  let y1 := (qz (snd size - (snd limits - fst z_limits + 2) * SIZE_FIELD)
             - qz SIZE_GAP / 2)%Q in
  let y2 := (qz (snd size - (fst limits - fst z_limits + 1) * SIZE_FIELD)
             - qz SIZE_GAP / 2)%Q in
  let x1' := (qz ((N - fst n_limits + 2) * SIZE_FIELD) + qz SIZE_GAP / 2)%Q in
  [ draw_border_line 4 (x1, y1) (x1, y2) (Py.str_of_int N ++ "n0");
    draw_border_line 4 (x1', y1) (x1', y2) (Py.str_of_int N ++ "n1") ].

(** Lines 825-834: the loop over [z_targets], with its counter. *)
Fixpoint z_target_lines (n_limits z_limits : Range) (size : Z * Z)
    (Z_counter : Z) (z_targets : Magic) : list ChartCall :=
  match z_targets with
  | [] => []
  | (Z_, limits) :: rest =>
      let x1 := (qz ((fst limits - fst n_limits + 1) * SIZE_FIELD)
                 + qz SIZE_GAP / 2)%Q in
      let x2 := (qz ((snd limits - fst n_limits + 2) * SIZE_FIELD)
                 + qz SIZE_GAP / 2)%Q in
      let y1 := (qz (snd size - (Z_ - Z_counter - fst z_limits + 2) * SIZE_FIELD)
                 - qz SIZE_GAP / 2)%Q in
      let y1' := (qz (snd size - (Z_ - Z_counter - fst z_limits + 1) * SIZE_FIELD)
                  - qz SIZE_GAP / 2)%Q in
      draw_border_line 4 (x1, y1) (x2, y1) (Py.str_of_int Z_ ++ "z0")
      :: draw_border_line 4 (x1, y1') (x2, y1') (Py.str_of_int Z_ ++ "z1")
      :: z_target_lines n_limits z_limits size (Z_counter + 1) rest
  end.

(** [draw_target_border] *)
Definition draw_target_border (n_targets z_targets : Magic)
    (n_limits z_limits : Range) (size : Z * Z) : list ChartCall :=
  (flat_map (n_target_lines n_limits z_limits size) n_targets
   ++ z_target_lines n_limits z_limits size 0 z_targets)%list.

(** The [while] loop of lines 862-864 on the part of [shape[n]] from index
    [z_first] on: [shape[n][z_first]] is read before [z_first] is compared
    with the width, and raises [IndexError] past the end of the list. *)
Fixpoint first_in_column (column : list bool) (width z_first : Z) : result Z :=
  match column with
  | [] => Err IndexError
  | occupied :: rest =>
      if negb occupied && (z_first <? width)
      then first_in_column rest width (z_first + 1)
      else Ok z_first
  end.

(** The [while] loop of lines 872-874 on the rows of [shape] from index
    [n_first] on. *)
Fixpoint first_in_row (rows : list (list bool)) (z : nat) (height n_first : Z)
    : result Z :=
  match rows with
  | [] => Err IndexError
  | row :: rest =>
      match nth_error row z with
      | None => Err IndexError
      | Some occupied =>
          if negb occupied && (n_first <? height)
          then first_in_row rest z height (n_first + 1)
          else Ok n_first
      end
  end.

(** Lines 859-868, for the values [n] of [range] still to come. *)
Fixpoint number_columns (shape : list (list bool)) (n_limits z_limits : Range)
    (size : Z * Z) (ns : list nat) : list ChartCall * option Exn :=
  match ns with
  | [] => ([], None)
  | n :: rest =>
      let N := Z.of_nat n + fst n_limits in
      if (N mod 2 =? 0) && (0 <? N) then
        match nth_error shape n with
        | None => ([], Some IndexError)
        | Some column =>
            match first_in_column column (snd z_limits - fst z_limits + 1) 0 with
            | Err e => ([], Some e)
            | Ok z_first =>
                let x := (qz ((Z.of_nat n + 1) * SIZE_FIELD + SIZE_GAP)
                          + qz SIZE_SHAPE / 2)%Q in
                let y := (qz (snd size - (z_first + 1) * SIZE_FIELD + SIZE_GAP)
                          + 1.25 * qz SIZE_FONT)%Q in
                let (calls, e) :=
                  number_columns shape n_limits z_limits size rest in
                (draw_number 3 (x, y) "#000000" (qz SIZE_FONT * 1.5)
                   (Py.str_of_int N) :: calls, e)
            end
        end
      else number_columns shape n_limits z_limits size rest
  end.

(** Lines 869-878, for the values [z] of [range] still to come. *)
Fixpoint number_rows (shape : list (list bool)) (n_limits z_limits : Range)
    (size : Z * Z) (zs : list nat) : list ChartCall * option Exn :=
  match zs with
  | [] => ([], None)
  | z :: rest =>
      if ((Z.of_nat z + fst z_limits mod 2) mod 2 =? 0)
         && (0 <? Z.of_nat z + fst z_limits) then
        match first_in_row shape z (snd n_limits - fst n_limits + 1) 0 with
        | Err e => ([], Some e)
        | Ok n_first =>
            let x := (qz (n_first * SIZE_FIELD) + qz SIZE_SHAPE / 2
                      + qz (3 * SIZE_GAP))%Q in
            let y := (qz (snd size - (Z.of_nat z + 2) * SIZE_FIELD)
                      + qz SIZE_SHAPE / 2 + qz (2 * SIZE_GAP))%Q in
            let (calls, e) := number_rows shape n_limits z_limits size rest in
            (draw_number 3 (x, y) "#000000" (qz SIZE_FONT * 1.5)
               (Py.str_of_int (Z.of_nat z + fst z_limits)) :: calls, e)
        end
      else number_rows shape n_limits z_limits size rest
  end.

(** [draw_numbers] *)
Definition draw_numbers (shape : list (list bool)) (n_limits z_limits : Range)
    (size : Z * Z) : list ChartCall * option Exn :=
  match number_columns shape n_limits z_limits size
          (seq 0 (Z.to_nat (snd n_limits - fst n_limits + 1))) with
  | (calls, Some e) => (calls, Some e)
  | (calls, None) =>
      let (calls', e) :=
        number_rows shape n_limits z_limits size
          (seq 0 (Z.to_nat (snd z_limits - fst z_limits + 1))) in
      ((calls ++ calls')%list, e)
  end.

(** ** Further readings of the calls *)

(** Every primitive is given the layer the main program reserves for it:
    rectangles on layer 0, triangles and the isomer divider on layer 1, text
    on layer 3. *)
Definition on_its_layer (c : DrawCall) : Prop :=
  match c with
  | draw_rectangle l _ _ _ => l = 0%nat
  | draw_isomer_rectangle l _ _ _ => l = 0%nat
  | draw_triangle l _ _ _ _ => l = 1%nat
  | draw_small_triangle l _ _ _ _ => l = 1%nat
  | draw_small_isomer_triangle l _ _ _ _ => l = 1%nat
  | draw_isomer_line l _ _ _ => l = 1%nat
  | draw_text l _ _ _ _ => l = 3%nat
  end.

(** What the corner of a triangle can be, given its colour. *)
Definition small_corner_ok (color corner : string) : Prop :=
  (corner = "lt" \/ corner = "rb" \/ corner = "rt")
  /\ (color = COLORS "a" -> corner = "lt")
  /\ (corner = "rt" <-> color = COLORS "cluster").

Definition corner_ok (c : DrawCall) : Prop :=
  match c with
  | draw_triangle _ _ color _ corner =>
      (corner = "lt" \/ corner = "rb") /\ (color = COLORS "a" -> corner = "lt")
  | draw_small_triangle _ _ color _ corner => small_corner_ok color corner
  | draw_small_isomer_triangle _ _ color _ corner => small_corner_ok color corner
  | _ => True
  end.

Definition is_large_triangle (c : DrawCall) : bool :=
  match c with
  | draw_triangle _ _ _ _ _ => true
  | _ => false
  end.

(** The colours of the inset isomer rectangles, in the order of the calls. *)
Fixpoint inset_colours (calls : list DrawCall) : list string :=
  match calls with
  | [] => []
  | draw_isomer_rectangle _ _ color _ :: rest => color :: inset_colours rest
  | _ :: rest => inset_colours rest
  end.

(** An entry the loops of lines 480-515 pass over: a basic mode whose value
    does not parse, or a mode that is neither basic nor shaped like a
    cluster. *)
Definition inert (dm : DecayMode) : bool :=
  if is_basic dm
  then match Py.float (Py.str_strip (dm_value dm) "#") with
       | None => true
       | Some _ => false
       end
  else negb (Re.cluster_re (dm_mode dm)).

(** An isomer whose first decay mode leaves [isomer_primary_color] as it
    was (lines 617-627): no mode at all, a mode outside the basic modes and
    ["it"], or a value that does not parse. *)
Definition keeps_colour (iso : Isomer) : Prop :=
  match iso_decay_modes iso with
  | [] => True
  | dm :: _ =>
      is_basic_or_it dm = false
      \/ Py.float (Py.str_strip (dm_value dm) "#") = None
  end.

(** ** Reading the grid and the axis numbers *)

(** Three elements of a data file: tritium, an element far outside the
    ranges whose content the constructor would reject, and helium-4. *)
Definition sample_nodes : list XmlNuclide :=
  [ mkXmlNuclide (Some 3) (Some 1) (fun _ _ => Some (sample beta_only hl_years []));
    mkXmlNuclide (Some 300) (Some 1) (fun _ _ => None);
    mkXmlNuclide (Some 4) (Some 2)
      (fun _ _ => Some (sample [mkDecayMode "is" "100"] hl_years [])) ].

(** A cell [(N, Z)] inside the limits. *)
Definition cell_in_limits (n_limits z_limits : Range) (c : Z * Z) : bool :=
  in_range n_limits (fst c) && in_range z_limits (snd c).

(** [shape[i][j]], with [false] outside the lists. *)
Definition occupied (shape : list (list bool)) (i j : nat) : bool :=
  match nth_error shape i with
  | Some row => nth j row false
  | None => false
  end.

(** [shape] has [w] lists of [h] flags each. *)
Definition has_dims (shape : list (list bool)) (w h : nat) : Prop :=
  List.length shape = w /\ Forall (fun row => List.length row = h) shape.

(** The neutron numbers met for proton number [k], in the order of the
    data. *)
Definition neutrons_at (k : Z) (cells : list (Z * Z)) : list Z :=
  map fst (filter (fun c => snd c =? k) cells).

(** The limits that the bookkeeping of lines 1055-1066 leaves for a key
    with the values [vs] met in this order. *)
Definition first_and_largest (vs : list Z) : option Range :=
  match vs with
  | [] => None
  | v :: rest => Some (v, fold_left Z.max rest v)
  end.

(** The number that gets a label: even and positive. *)
Definition labelled (v : Z) : bool := (v mod 2 =? 0) && (0 <? v).

(** The values of [range(lo, hi + 1)]. *)
Definition span_of (limits : Range) : list Z :=
  map (fun i => Z.of_nat i + fst limits)
      (seq 0 (Z.to_nat (snd limits - fst limits + 1))).

Definition number_text (c : ChartCall) : list string :=
  match c with
  | draw_number _ _ _ _ text => [text]
  | draw_line _ _ _ _ => []
  | draw_border_line _ _ _ _ => []
  end.

(** The index of the first flag that is set. *)
Fixpoint lowest_occupied (column : list bool) : option nat :=
  match column with
  | [] => None
  | true :: _ => Some O
  | false :: rest => option_map S (lowest_occupied rest)
  end.

(** Some flag of [shape[n]] is set. *)
Definition column_occupied (shape : list (list bool)) (n : nat) : bool :=
  match nth_error shape n with
  | Some column => existsb (fun occ => occ) column
  | None => false
  end.

(** Some list of [shape] has its flag [z] set. *)
Definition row_occupied (shape : list (list bool)) (z : nat) : bool :=
  existsb (fun column => nth z column false) shape.

(** Every even positive neutron number between the limits, and every even
    positive proton number between the limits, has a nuclide in the data. *)
Definition labelled_lines_occupied (n_limits z_limits : Range)
    (cells : list (Z * Z)) : bool :=
  forallb (fun N => negb (labelled N) || existsb (fun c => fst c =? N) cells)
          (span_of n_limits)
  && forallb (fun Z_ => negb (labelled Z_) || existsb (fun c => snd c =? Z_) cells)
             (span_of z_limits).

(** A small chart: neutron numbers 1 to 3, proton numbers 1 and 2, with
    the nuclides [(1, 1)], [(2, 2)] and [(3, 2)]. *)
Definition sample_n_limits : Range := (1, 3).
Definition sample_z_limits : Range := (1, 2).
Definition sample_shape : list (list bool) :=
  [[true; false]; [false; true]; [false; true]].

(** The end points of a line, whatever its kind, layer and name. *)
Definition line_ends (c : ChartCall) : list (Pos * Pos) :=
  match c with
  | draw_line _ p_begin p_end _ => [(p_begin, p_end)]
  | draw_border_line _ p_begin p_end _ => [(p_begin, p_end)]
  | draw_number _ _ _ _ _ => []
  end.

Definition is_border_on_layer_4 (c : ChartCall) : bool :=
  match c with
  | draw_border_line 4 _ _ _ => true
  | _ => false
  end.

(** The keys of a dictionary, each lowered by its place in the insertion
    order (counted from [c]). *)
Fixpoint shift_keys (c : Z) (m : Magic) : Magic :=
  match m with
  | [] => []
  | (k, limits) :: rest => (k - c, limits) :: shift_keys (c + 1) rest
  end.

(** The inset rectangles among the calls, in order. *)
Definition inset_calls (calls : list DrawCall) : list DrawCall :=
  filter (fun c => match c with
                   | draw_isomer_rectangle _ _ _ _ => true
                   | _ => false
                   end) calls.

(** The value of [isomer_primary_color] after the turns of the loop of
    line 588 for the isomers [pre], starting from [pc] (line 575). *)
Definition carried_colour (pc : string) (pre : list Isomer) : string :=
  fold_left (fun c possible_isomers =>
               if genuine possible_isomers
               then isomer_primary (iso_decay_modes possible_isomers) c
               else c)
            pre pc.

(** A genuine isomer with three decay modes. *)
Definition iso_cascade : Isomer :=
  mkIsomer (mkHalfLife "3" "m" "=" "False")
    [mkDecayMode "it" "50"; mkDecayMode "a" "30"; mkDecayMode "b-" "20"].

(** A basic entry whose value parses to a number that is not greater than
    zero: line 484 takes its colour, lines 485-488 leave the size alone. *)
Definition zero_valued (dm : DecayMode) : bool :=
  is_basic dm
  && match Py.float (Py.str_strip (dm_value dm) "#") with
     | Some v => negb (Py.float_gt v Py.lit_0_0)
     | None => false
     end.

(** The colour after the entries [post], none of which is a cluster: an
    entry that the scan passes over leaves it, any other entry replaces
    it. *)
Definition last_colour (c : string) (post : list DecayMode) : string :=
  fold_left (fun c dm => if inert dm then c else COLORS (dm_mode dm)) post c.

(** * Properties *)

(** ** Worked cases *)

(** A pure beta-minus emitter with a measured half-life. *)
Example tritium_like :
  draw_nuclide (sample beta_only hl_years []) origin all_on false
  = mkOutcome beta_only
      [ draw_rectangle 0 origin "#62aeff" "3H0";
        draw_text 3 (30 # 2, 10.75)%Q "#000000" 7 "$*3*$H";
        draw_text 3 (30 # 2, 22.5)%Q "#000000" 5 "12.3 y" ]
      Returned.
Proof. reflexivity. Qed.

(** Alpha emitter with a 3 % fission branch: small green triangle, bottom
    right. *)
Example alpha_with_fission :
  ground_shapes (sample [mkDecayMode "a" "97"; mkDecayMode "sf" "3"] hl_years [])
    [mkDecayMode "a" "97"; mkDecayMode "sf" "3"] (COLORS "a") origin
  = [ draw_rectangle 0 origin "#fffe49" "3H0";
      draw_small_triangle 1 origin "#5cbc57" "3H1" "rb" ].
Proof. reflexivity. Qed.

(** A stable nuclide shows its abundance, whatever its half-life record. *)
Example stable_abundance :
  texts (out_calls (draw_nuclide (sample [mkDecayMode "is" "68.2"] hl_unknown [])
                      origin all_on false))
  = ["$*3*$H"; "68.2%"].
Proof. reflexivity. Qed.

(** A half-life in scientific notation is rewritten with two digits. *)
Example scientific_half_life :
  texts (out_calls
           (draw_nuclide (sample beta_only (mkHalfLife "1.26e3" "y" "=" "False") [])
              origin all_on false))
  = ["$*3*$H"; "1.3e+03 y"].
Proof. reflexivity. Qed.

(** A value with two exponent letters passes the pattern of line 791 and
    then makes [float] raise. *)
Example malformed_exponent :
  out_exit (draw_nuclide (sample beta_only (mkHalfLife "1eE5" "y" "=" "False") [])
              origin all_on false)
  = Raised ValueError.
Proof. reflexivity. Qed.

(** The out-of-order list is swapped and drawn in the colour of the basic
    mode found at index 1. *)
Example swap_then_draw :
  draw_nuclide (sample out_of_order hl_years []) origin
    (mkArgs false false true true) false
  = mkOutcome [mkDecayMode "b+" "99"; mkDecayMode "b+p" "1"]
      [draw_rectangle 0 origin "#ff7e75" "3H0"] Returned.
Proof. reflexivity. Qed.

(** The parser and the formatter on a few literals. *)
Example float_literals :
  Py.float "5.0" = Some Py.lit_5_0
  /\ Py.float " #5" = None
  /\ Py.float "1_0" = Py.float "10"
  /\ Py.float "1eE5" = None
  /\ option_map Py.format_1e (Py.float "125000") = Some "1.2e+05"
  /\ option_map Py.format_1e (Py.float "9.96e-10") = Some "1.0e-09".
Proof. repeat split; reflexivity. Qed.

Example patterns :
  Re.cluster_re "14c" = true /\ Re.cluster_re "4c" = false
  /\ Re.cluster_re "b+p" = false
  /\ Re.sci_re "1.26e3" = true /\ Re.sci_re "12.3" = false
  /\ Re.sci_re "1eE5" = true.
Proof. repeat split; reflexivity. Qed.

(** ** The colour table and the loops *)

Lemma COLORS_keys k :
  In k (basic_decay_modes ++ ["it"; "cluster"; "?"]) ->
  assoc k COLORS_table <> None.
Proof.
  simpl. intros H.
  repeat (destruct H as [<- | H]; [discriminate |]).
  contradiction.
Qed.

Lemma for_each_invariant {A S : Type} (P : S -> Prop) (body : A -> S -> Step S) :
  (forall a s, P s -> P (step_state (body a s))) ->
  forall l s, P s -> P (for_each body l s).
Proof.
  intros Hbody l. induction l as [| a t IH]; intros s Hs; simpl.
  - exact Hs.
  - specialize (Hbody a s Hs). destruct (body a s) as [s' | s']; simpl in Hbody.
    + apply IH. exact Hbody.
    + exact Hbody.
Qed.

Lemma bound_no_marker : bound no_marker.
Proof. left. reflexivity. Qed.

Lemma bound_colored sz c : bound (mkMarker sz (Some c)).
Proof. right. exists c. reflexivity. Qed.

Create HintDb markers.

#[local] Hint Resolve bound_no_marker bound_colored : markers.

Lemma secondary_body_bound pc dm st :
  bound st -> bound (step_state (secondary_body pc dm st)).
Proof.
  intros Hst. unfold secondary_body.
  destruct (is_basic dm).
  - destruct (Py.float _) as [v |]; simpl; auto.
    destruct (_ && _); simpl; auto with markers.
    destruct (Py.float_gt v Py.lit_0_0); simpl; auto with markers.
  - destruct (Re.cluster_re _); simpl; auto with markers.
Qed.

Lemma isomer_secondary_body_bound pc dm st :
  bound st -> bound (step_state (isomer_secondary_body pc dm st)).
Proof.
  intros Hst. unfold isomer_secondary_body.
  destruct (is_basic_or_it dm).
  - destruct (Py.float _) as [v |]; simpl; auto.
    destruct (_ && _); simpl; auto with markers.
    destruct (Py.float_gt v Py.lit_0_0); simpl; auto with markers.
  - destruct (Re.cluster_re _); simpl; auto with markers.
Qed.

Lemma tertiary_body_bound dm st :
  bound st -> bound (step_state (tertiary_body dm st)).
Proof.
  intros Hst. unfold tertiary_body.
  destruct (is_basic dm).
  - destruct (Py.float _) as [v |]; simpl; auto.
    destruct (Py.float_gt v Py.lit_0_0); simpl; auto with markers.
  - destruct (Re.cluster_re _); simpl; auto with markers.
Qed.

Lemma secondary_pass_bound pc dms : bound (secondary_pass pc dms).
Proof.
  unfold secondary_pass. destruct (1 <? _)%nat; auto with markers.
  apply for_each_invariant; auto with markers.
  intros; now apply secondary_body_bound.
Qed.

Lemma isomer_secondary_pass_bound pc dms : bound (isomer_secondary_pass pc dms).
Proof.
  unfold isomer_secondary_pass. destruct (1 <? _)%nat; auto with markers.
  apply for_each_invariant; auto with markers.
  intros; now apply isomer_secondary_body_bound.
Qed.

Lemma tertiary_pass_bound pc dms sec : bound (tertiary_pass pc dms sec).
Proof.
  unfold tertiary_pass. destruct (_ && _); auto with markers.
  apply for_each_invariant; auto with markers.
  intros; now apply tertiary_body_bound.
Qed.

(** A tertiary marker is only looked for once the secondary size is set. *)
Lemma tertiary_pass_needs_secondary pc dms sec :
  m_size sec = None -> tertiary_pass pc dms sec = no_marker.
Proof.
  intros H. unfold tertiary_pass, tertiary_wanted, size_is. rewrite H.
  rewrite !andb_false_r. reflexivity.
Qed.

(** With markers that come out of the passes, no triangle reads an unbound
    colour. *)
Lemma marker_calls_returns tri n pos pc sec ter :
  bound sec -> bound ter -> (m_size sec = None -> m_size ter = None) ->
  snd (marker_calls tri n pos pc sec ter) = None.
Proof.
  intros Hsec Hter Hdep. unfold marker_calls, secondary_calls, tertiary_calls.
  destruct Hsec as [Hs | [c Hc]].
  - rewrite Hs, (Hdep Hs). reflexivity.
  - rewrite Hc.
    assert (Hter' : snd (match m_size ter with
                         | Some small =>
                             match m_color ter with
                             | Some c0 =>
                                 match corner_tertiary c0 pc (Some c) with
                                 | Ok corner =>
                                     ([tri 1%nat pos c0 (nuc_str n ++ "2") corner], None)
                                 | Err e => ([], Some e)
                                 end
                             | None => ([], Some UnboundLocalError)
                             end
                         | _ => ([], None)
                         end) = None).
    { destruct Hter as [Ht | [c' Hc']].
      - rewrite Ht. reflexivity.
      - rewrite Hc'. destruct (m_size ter) as [[|] |]; try reflexivity.
        unfold corner_tertiary.
        repeat match goal with
               | |- context [if ?b then _ else _] => destruct b
               end; reflexivity. }
    destruct (m_size sec) as [[|] |]; simpl;
      match goal with
      | |- snd (let (_, _) := ?x in _) = None =>
          destruct x as [c2 e] eqn:E; simpl in Hter' |- *; exact Hter'
      end.
Qed.

Lemma ground_markers_return n pos pc dms :
  snd (marker_calls draw_small_triangle n pos pc (secondary_pass pc dms)
         (tertiary_pass pc dms (secondary_pass pc dms))) = None.
Proof.
  apply marker_calls_returns.
  - apply secondary_pass_bound.
  - apply tertiary_pass_bound.
  - intros H. now rewrite tertiary_pass_needs_secondary.
Qed.

Lemma isomer_markers_return n pos pc dms :
  snd (marker_calls draw_small_isomer_triangle n pos pc
         (isomer_secondary_pass pc dms)
         (tertiary_pass pc dms (isomer_secondary_pass pc dms))) = None.
Proof.
  apply marker_calls_returns.
  - apply isomer_secondary_pass_bound.
  - apply tertiary_pass_bound.
  - intros H. now rewrite tertiary_pass_needs_secondary.
Qed.

(** Replaces the pair returned by [marker_calls] by its calls, once the
    lemma [H] says that it raised nothing. *)
Ltac markers_returned H :=
  let Hm := fresh "Hm" in
  let e := fresh "e" in
  pose proof H as Hm;
  destruct (marker_calls _ _ _ _ _ _) as [? e];
  simpl in Hm; subst e.

(** ** The primary block *)

Lemma primary_pass_basic dm0 rest unknown :
  is_basic dm0 = true ->
  primary_pass (dm0 :: rest) unknown
  = primary_ok (dm0 :: rest) (COLORS (dm_mode dm0)).
Proof. intros H. unfold primary_pass. now rewrite H. Qed.

Lemma first_basic_none start l :
  (forall dm, In dm l -> is_basic dm = false) -> first_basic start l = None.
Proof.
  revert start. induction l as [| dm t IH]; intros start H; simpl.
  - reflexivity.
  - rewrite (H dm (or_introl eq_refl)). apply IH. intros; apply H; now right.
Qed.

Lemma first_basic_some start l i :
  first_basic start l = Some i ->
  exists j dm, i = (start + j)%nat /\ nth_error l j = Some dm /\ is_basic dm = true.
Proof.
  revert start. induction l as [| d t IH]; intros start H; simpl in H.
  - discriminate.
  - destruct (is_basic d) eqn:Hd.
    + injection H as <-. exists 0%nat, d. repeat split; auto; lia.
    + destruct (IH _ H) as (j & dm & -> & Hn & Hb).
      exists (S j), dm. repeat split; auto; lia.
Qed.

Lemma swap_first_cons {A : Type} (a : A) rest j x :
  nth_error rest j = Some x ->
  swap_first (a :: rest) (S j) = x :: set_nth j a rest.
Proof. intros H. unfold swap_first. simpl. now rewrite H. Qed.

(** After the first block the list starts with a basic mode, or with the
    accepted placeholder: running the block again changes nothing. *)
Lemma primary_pass_stable dms unknown dms' pc :
  primary_pass dms unknown = primary_ok dms' pc ->
  primary_pass dms' unknown = primary_ok dms' pc.
Proof.
  destruct dms as [| dm0 rest]; [discriminate |]. unfold primary_pass at 1.
  destruct (is_basic dm0) eqn:Hb.
  - intros [= <- <-]. now apply primary_pass_basic.
  - destruct ((dm_mode dm0 =? "?")%string && unknown) eqn:Hq.
    + intros [= <- <-]. unfold primary_pass. now rewrite Hb, Hq.
    + destruct (1 <? _)%nat; [| discriminate].
      destruct (first_basic 1 rest) as [i |] eqn:Hf; [| discriminate].
      destruct (first_basic_some _ _ _ Hf) as (j & dm & -> & Hn & Hdm).
      simpl. rewrite (swap_first_cons _ _ _ _ Hn). simpl.
      intros [= <- <-]. now apply primary_pass_basic.
Qed.

Lemma draw_classified_modes n dms pc pos args b :
  out_decay_modes (draw_classified n dms pc pos args b) = dms.
Proof.
  unfold draw_classified.
  repeat match goal with
         | |- out_decay_modes (if ?c then _ else _) = _ => destruct c
         | |- out_decay_modes (match ?x with _ => _ end) = _ => destruct x
         | |- out_decay_modes (let (_, _) := ?x in _) = _ => destruct x
         end; reflexivity.
Qed.

(** [draw_classified] reads the record only through its half-life, its
    numbers, its names and its isomers. *)
Lemma isomer_body_frame n n' dms pos fc iso c :
  same_cell n n' ->
  isomer_body n dms pos fc iso c = isomer_body n' dms pos fc iso c.
Proof.
  destruct n, n'. unfold same_cell. simpl. intros (-> & -> & -> & -> & ->).
  reflexivity.
Qed.

Lemma isomer_loop_frame n n' dms pos fc l :
  same_cell n n' ->
  forall c, isomer_loop n dms pos fc l c = isomer_loop n' dms pos fc l c.
Proof.
  intros H. induction l as [| iso t IH]; intros c; simpl.
  - reflexivity.
  - rewrite (isomer_body_frame n n' dms pos fc iso c H).
    destruct (genuine iso); [| apply IH].
    destruct (isomer_body n' dms pos fc iso c) as [[c' calls] [e |]].
    + reflexivity.
    + now rewrite IH.
Qed.

Lemma draw_classified_same n n' dms pc pos args b :
  same_cell n n' -> isomers n = isomers n' ->
  draw_classified n dms pc pos args b = draw_classified n' dms pc pos args b.
Proof.
  intros H Hi. unfold draw_classified.
  rewrite (isomer_loop_frame n n' dms pos _ (isomers n) H).
  destruct n, n'. unfold same_cell in H. simpl in H, Hi.
  destruct H as (-> & -> & -> & -> & ->). subst. reflexivity.
Qed.

Lemma draw_classified_frame n d dms pc pos args b :
  draw_classified (with_decay_modes n d) dms pc pos args b
  = draw_classified n dms pc pos args b.
Proof. apply draw_classified_same; destruct n; repeat split. Qed.

Lemma with_decay_modes_same n : with_decay_modes n (decay_modes n) = n.
Proof. destruct n. reflexivity. Qed.

(** Running [draw_nuclide] on the record it left behind gives the same
    outcome again. *)
Lemma draw_nuclide_rerun n pos args b :
  draw_nuclide (with_decay_modes n (out_decay_modes (draw_nuclide n pos args b)))
    pos args b
  = draw_nuclide n pos args b.
Proof.
  unfold draw_nuclide at 2 3.
  destruct (primary_pass (decay_modes n) (arg_unknown args)) as [dms pc | |] eqn:Hp.
  - rewrite draw_classified_modes. unfold draw_nuclide.
    replace (decay_modes (with_decay_modes n dms)) with dms by now destruct n.
    rewrite (primary_pass_stable _ _ _ _ Hp). apply draw_classified_frame.
  - simpl. rewrite with_decay_modes_same. unfold draw_nuclide. now rewrite Hp.
  - simpl. rewrite with_decay_modes_same. unfold draw_nuclide. now rewrite Hp.
Qed.

Lemma main_draw_call n pos args :
  decay_modes n <> [] ->
  main_draw n pos args
  = match out_exit (draw_nuclide n pos args (main_is_isomer n)) with
    | Raised IndexError =>
        mkOutcome (out_decay_modes (draw_nuclide n pos args (main_is_isomer n)))
          (out_calls (draw_nuclide n pos args (main_is_isomer n))) Returned
    | _ => draw_nuclide n pos args (main_is_isomer n)
    end.
Proof.
  intros H. unfold main_draw. destruct (decay_modes n); [congruence | reflexivity].
Qed.

Lemma primary_ok_has_modes dms0 unknown dms pc :
  primary_pass dms0 unknown = primary_ok dms pc -> dms0 <> [].
Proof. intros H ->. discriminate H. Qed.

(** ** Skipping and reordering *)

(** C6: when [decay_modes[0]['mode']] is neither a basic mode nor ["?"] and
    no later entry has a basic mode, [draw_nuclide] returns at once: no shape
    and no text is emitted, and the record is left as it was. *)
Theorem C6_no_basic_mode_is_skipped n pos args b dm0 rest :
  decay_modes n = dm0 :: rest ->
  is_basic dm0 = false ->
  dm_mode dm0 <> "?" ->
  (forall dm, In dm rest -> is_basic dm = false) ->
  draw_nuclide n pos args b = mkOutcome (decay_modes n) [] Returned
  /\ main_draw n pos args = mkOutcome (decay_modes n) [] Returned.
Proof.
  intros Hd Hb Hq Hrest.
  assert (H : forall b', draw_nuclide n pos args b'
                         = mkOutcome (decay_modes n) [] Returned).
  { intros b'. unfold draw_nuclide, primary_pass. rewrite Hd, Hb.
    apply String.eqb_neq in Hq. rewrite Hq. simpl andb. cbv iota.
    rewrite (first_basic_none 1 rest Hrest).
    now destruct (1 <? _)%nat. }
  split; [apply H |].
  rewrite main_draw_call by (rewrite Hd; discriminate). now rewrite H.
Qed.

Lemma C6_witness :
  draw_nuclide (sample no_basic_mode hl_years []) origin all_on false
  = mkOutcome no_basic_mode [] Returned
  /\ main_draw (sample no_basic_mode hl_years []) origin all_on
     = mkOutcome no_basic_mode [] Returned.
Proof.
  apply (C6_no_basic_mode_is_skipped (sample no_basic_mode hl_years [])
           origin all_on false (mkDecayMode "b+p" "60") [mkDecayMode "b-n" "40"]).
  - reflexivity.
  - reflexivity.
  - discriminate.
  - intros dm [<- | []]. reflexivity.
Defined.

(** C9: when [decay_modes[0]['mode']] is a basic mode the swap of line 456
    is not reached, so [decay_modes] is left unchanged; and running
    [draw_nuclide] again on the list it left gives the same outcome. *)
Theorem C9_basic_first_mode_is_never_swapped n pos args b dm0 rest :
  decay_modes n = dm0 :: rest ->
  is_basic dm0 = true ->
  out_decay_modes (draw_nuclide n pos args b) = decay_modes n
  /\ draw_nuclide
       (with_decay_modes n (out_decay_modes (draw_nuclide n pos args b)))
       pos args b
     = draw_nuclide n pos args b.
Proof.
  intros Hd Hb. split.
  - unfold draw_nuclide. rewrite Hd, (primary_pass_basic _ _ _ Hb).
    apply draw_classified_modes.
  - apply draw_nuclide_rerun.
Qed.

Lemma C9_witness :
  out_decay_modes (draw_nuclide (sample three_modes hl_years []) origin all_on false)
  = three_modes
  /\ draw_nuclide
       (with_decay_modes (sample three_modes hl_years [])
          (out_decay_modes
             (draw_nuclide (sample three_modes hl_years []) origin all_on false)))
       origin all_on false
     = draw_nuclide (sample three_modes hl_years []) origin all_on false.
Proof.
  apply (C9_basic_first_mode_is_never_swapped (sample three_modes hl_years [])
           origin all_on false (mkDecayMode "b-" "100")
           [mkDecayMode "a" "10"; mkDecayMode "sf" "3"]);
    reflexivity.
Defined.

(** C10: the swap of line 456 comes before the test of line 467.  A nuclide
    whose first mode is not accepted, which has a basic mode further down
    and whose half-life value contains ["unstable"] draws nothing, yet its
    [decay_modes] list is left swapped. *)
Theorem C10_swap_survives_unstable_skip n pos args b dm0 rest i :
  decay_modes n = dm0 :: rest ->
  is_basic dm0 = false ->
  (dm_mode dm0 =? "?")%string && arg_unknown args = false ->
  first_basic 1 rest = Some i ->
  0 <= Py.str_find (hl_value (half_life n)) "unstable" ->
  out_calls (draw_nuclide n pos args b) = []
  /\ out_exit (draw_nuclide n pos args b) = Returned
  /\ out_decay_modes (draw_nuclide n pos args b) = swap_first (decay_modes n) i
  /\ out_decay_modes (draw_nuclide n pos args b) <> decay_modes n.
Proof.
  intros Hd Hb Hq Hf Hu.
  destruct (first_basic_some _ _ _ Hf) as (j & dm & -> & Hn & Hdm).
  assert (Hlen : (1 <? List.length (dm0 :: rest))%nat = true).
  { destruct rest; [destruct j; discriminate | reflexivity]. }
  unfold draw_nuclide, primary_pass. rewrite Hd, Hb, Hq, Hlen, Hf.
  unfold draw_classified. apply Z.leb_le in Hu. rewrite Hu. simpl.
  repeat split.
  rewrite (swap_first_cons _ _ _ _ Hn). intros [= -> _]. congruence.
Qed.

Lemma C10_witness :
  out_calls (draw_nuclide (sample out_of_order hl_p_unstable []) origin all_on false) = []
  /\ out_exit (draw_nuclide (sample out_of_order hl_p_unstable []) origin all_on false)
     = Returned
  /\ out_decay_modes
       (draw_nuclide (sample out_of_order hl_p_unstable []) origin all_on false)
     = swap_first out_of_order 1
  /\ out_decay_modes
       (draw_nuclide (sample out_of_order hl_p_unstable []) origin all_on false)
     <> out_of_order.
Proof.
  apply (C10_swap_survives_unstable_skip (sample out_of_order hl_p_unstable [])
           origin all_on false (mkDecayMode "b+p" "1") [mkDecayMode "b+" "99"] 1%nat).
  - reflexivity.
  - reflexivity.
  - reflexivity.
  - reflexivity.
  - vm_compute. discriminate.
Defined.

(** ** The secondary marker *)

(** C7: the test of line 485 is strict.  A basic secondary entry whose value
    parses to exactly 5.0 sets the size to small, whatever the primary
    colour; one whose value parses as 5.0001 sets it to large when the
    primary colour is not the colour of stable nuclides (and to small when it
    is).  The same holds for the whole pass when the entry is the only
    secondary one. *)
Theorem C7_large_threshold_is_strict pc dm0 exact above st :
  is_basic exact = true ->
  is_basic above = true ->
  Py.float (Py.str_strip (dm_value exact) "#") = Some Py.lit_5_0 ->
  Py.float (Py.str_strip (dm_value above) "#") = Some Py.val_5_0001 ->
  secondary_body pc exact st
  = Next (mkMarker (Some small) (Some (COLORS (dm_mode exact))))
  /\ secondary_pass pc [dm0; exact]
     = mkMarker (Some small) (Some (COLORS (dm_mode exact)))
  /\ secondary_body pc above st
     = Next (mkMarker (Some (if is_stable_color pc then small else large))
               (Some (COLORS (dm_mode above))))
  /\ secondary_pass pc [dm0; above]
     = mkMarker (Some (if is_stable_color pc then small else large))
         (Some (COLORS (dm_mode above))).
Proof.
  intros Hb Hb' Hv Hv'. unfold secondary_pass. simpl. unfold secondary_body.
  rewrite Hb, Hb', Hv, Hv'. simpl.
  destruct (is_stable_color pc); repeat split; reflexivity.
Qed.

Lemma C7_witness :
  secondary_body (COLORS "b-") (mkDecayMode "a" "5.0") no_marker
  = Next (mkMarker (Some small) (Some (COLORS "a")))
  /\ secondary_pass (COLORS "b-") [mkDecayMode "b-" "95"; mkDecayMode "a" "5.0"]
     = mkMarker (Some small) (Some (COLORS "a"))
  /\ secondary_body (COLORS "b-") (mkDecayMode "sf" "#5.0001") no_marker
     = Next (mkMarker (Some (if is_stable_color (COLORS "b-") then small else large))
               (Some (COLORS "sf")))
  /\ secondary_pass (COLORS "b-") [mkDecayMode "b-" "95"; mkDecayMode "sf" "#5.0001"]
     = mkMarker (Some (if is_stable_color (COLORS "b-") then small else large))
         (Some (COLORS "sf")).
Proof.
  apply (C7_large_threshold_is_strict (COLORS "b-") (mkDecayMode "b-" "95")
           (mkDecayMode "a" "5.0") (mkDecayMode "sf" "#5.0001") no_marker);
    reflexivity.
Defined.

(** What the loop of lines 480-495 does with one entry: a basic entry whose
    value does not parse is passed over, and a cluster entry ends the scan. *)
Lemma secondary_body_skips_unparsable pc dm st :
  is_basic dm = true ->
  Py.float (Py.str_strip (dm_value dm) "#") = None ->
  secondary_body pc dm st = Next st.
Proof. intros Hb Hv. unfold secondary_body. now rewrite Hb, Hv. Qed.

Lemma secondary_scan_stops_at_cluster pc dm rest st :
  is_basic dm = false ->
  Re.cluster_re (dm_mode dm) = true ->
  for_each (secondary_body pc) (dm :: rest) st
  = mkMarker (Some small) (Some (COLORS "cluster")).
Proof. intros Hb Hc. simpl. unfold secondary_body. now rewrite Hb, Hc. Qed.

(** C1: in the loop of lines 480-495 the basic branch has no [break], unlike
    the cluster branch and unlike the tertiary loop.  With beta-minus first,
    alpha at 10 % and fission at 3 %, the alpha entry alone gives a large
    alpha triangle, but the scan goes on and the fission entry replaces both
    the colour and the size; with fission at 0 % the colour is replaced and
    the size of the alpha entry is kept. *)
Theorem C1_later_basic_entry_replaces_marker :
  secondary_pass (COLORS "b-") [mkDecayMode "b-" "100"; mkDecayMode "a" "10"]
  = mkMarker (Some large) (Some (COLORS "a"))
  /\ secondary_pass (COLORS "b-") three_modes
     = mkMarker (Some small) (Some (COLORS "sf"))
  /\ secondary_pass (COLORS "b-") three_modes_zero
     = mkMarker (Some large) (Some (COLORS "sf"))
  /\ ground_shapes (sample three_modes hl_years []) three_modes (COLORS "b-") origin
     = [ draw_rectangle 0 origin (COLORS "b-") "3H0";
         draw_small_triangle 1 origin (COLORS "sf") "3H1" "rb" ]
  /\ out_calls (draw_nuclide (sample three_modes hl_years []) origin
                  (mkArgs false false true true) false)
     = [ draw_rectangle 0 origin (COLORS "b-") "3H0";
         draw_small_triangle 1 origin (COLORS "sf") "3H1" "rb" ].
Proof. repeat split; reflexivity. Qed.

(** ** Shapes carry no text *)

Lemma marker_calls_shapes tri n pos pc sec ter :
  tri = draw_small_triangle \/ tri = draw_small_isomer_triangle ->
  texts (fst (marker_calls tri n pos pc sec ter)) = []
  /\ count_insets (fst (marker_calls tri n pos pc sec ter)) = 0%nat.
Proof.
  intros Htri. unfold marker_calls, secondary_calls, tertiary_calls.
  destruct (m_size sec) as [[|] |], (m_color sec) as [c |],
    (m_size ter) as [[|] |], (m_color ter) as [c' |]; simpl;
    try (destruct (corner_tertiary _ _ _)); simpl;
    destruct Htri as [-> | ->]; split; reflexivity.
Qed.

Lemma texts_app a b : texts (a ++ b) = (texts a ++ texts b)%list.
Proof.
  induction a as [| x a IH]; simpl; [reflexivity |].
  destruct x; simpl; now rewrite IH.
Qed.

Lemma count_insets_app a b :
  count_insets (a ++ b) = (count_insets a + count_insets b)%nat.
Proof.
  induction a as [| x a IH]; simpl; [reflexivity |].
  destruct x; simpl; now rewrite IH.
Qed.

Lemma ground_shapes_silent n dms pc pos :
  texts (ground_shapes n dms pc pos) = []
  /\ count_insets (ground_shapes n dms pc pos) = 0%nat.
Proof.
  unfold ground_shapes. simpl. apply marker_calls_shapes. now left.
Qed.

Lemma isomer_triangles_silent n pos ipc idms :
  texts (isomer_triangles n pos ipc idms) = []
  /\ count_insets (isomer_triangles n pos ipc idms) = 0%nat.
Proof. unfold isomer_triangles. apply marker_calls_shapes. now right. Qed.

(** ** One turn of the isomer loop *)

Lemma isomer_body_captioned n dms pos fc iso c s u :
  isomer_captions n dms = Ok (s, Some u) ->
  isomer_body n dms pos fc iso c
  = (isomer_primary (iso_decay_modes iso) c,
     (isomer_triangles n pos (isomer_primary (iso_decay_modes iso) c)
        (iso_decay_modes iso)
      ++ isomer_inset n pos (isomer_primary (iso_decay_modes iso) c)
      ++ four_captions pos fc s u iso)%list,
     None).
Proof.
  intros Hc. unfold isomer_body, isomer_triangles.
  markers_returned (isomer_markers_return n pos
                      (isomer_primary (iso_decay_modes iso) c) (iso_decay_modes iso)).
  rewrite Hc. simpl. now rewrite <- app_assoc.
Qed.

Lemma isomer_body_unbound n dms pos fc iso c s :
  isomer_captions n dms = Ok (s, None) ->
  isomer_body n dms pos fc iso c
  = (isomer_primary (iso_decay_modes iso) c,
     (isomer_triangles n pos (isomer_primary (iso_decay_modes iso) c)
        (iso_decay_modes iso)
      ++ isomer_inset n pos (isomer_primary (iso_decay_modes iso) c)
      ++ [caption pos fc isomer_text_x2 isomer_text_y1 s])%list,
     Some UnboundLocalError).
Proof.
  intros Hc. unfold isomer_body, isomer_triangles.
  markers_returned (isomer_markers_return n pos
                      (isomer_primary (iso_decay_modes iso) c) (iso_decay_modes iso)).
  rewrite Hc. simpl. now rewrite <- app_assoc.
Qed.

(** ** The isomer loop *)

(** An isomer that fails the tests of lines 594 and 601 leaves no trace. *)
Lemma isomer_loop_skips_placeholders n dms pos fc l :
  forall c,
    isomer_loop n dms pos fc l c = isomer_loop n dms pos fc (filter genuine l) c.
Proof.
  induction l as [| iso t IH]; intros c; simpl; [reflexivity |].
  destruct (genuine iso) eqn:Hg; [| apply IH].
  simpl. rewrite Hg.
  destruct (isomer_body n dms pos fc iso c) as [[c' calls] [e |]];
    [reflexivity | now rewrite IH].
Qed.

Lemma isomer_turn_texts n pos fc s u iso ipc :
  texts (isomer_triangles n pos ipc (iso_decay_modes iso)
         ++ isomer_inset n pos ipc ++ four_captions pos fc s u iso)
  = captions_of s u iso
  /\ count_insets (isomer_triangles n pos ipc (iso_decay_modes iso)
                   ++ isomer_inset n pos ipc ++ four_captions pos fc s u iso)
     = 1%nat.
Proof.
  rewrite texts_app, count_insets_app.
  destruct (isomer_triangles_silent n pos ipc (iso_decay_modes iso)) as [-> ->].
  split; reflexivity.
Qed.

(** With both captions bound, every genuine isomer is drawn, in the order of
    the list, and the loop ends normally. *)
Lemma isomer_loop_captioned n dms pos fc s u :
  isomer_captions n dms = Ok (s, Some u) ->
  forall l c,
    snd (isomer_loop n dms pos fc l c) = None
    /\ texts (fst (isomer_loop n dms pos fc l c))
       = flat_map (captions_of s u) (filter genuine l)
    /\ count_insets (fst (isomer_loop n dms pos fc l c))
       = List.length (filter genuine l).
Proof.
  intros Hc l. induction l as [| iso t IH]; intros c; simpl.
  - repeat split.
  - destruct (genuine iso) eqn:Hg; [| apply IH].
    rewrite (isomer_body_captioned _ _ _ _ _ _ _ _ Hc).
    specialize (IH (isomer_primary (iso_decay_modes iso) c)).
    destruct (isomer_loop n dms pos fc t _) as [calls' e'].
    cbn [fst snd] in IH |- *. destruct IH as (He & Ht & Hn).
    rewrite texts_app, count_insets_app, Ht, Hn.
    destruct (isomer_turn_texts n pos fc s u iso
                (isomer_primary (iso_decay_modes iso) c)) as [-> ->].
    repeat split; auto.
Qed.


(** With the unit caption unbound, the first genuine isomer gets its inset
    and the first caption, and line 757 raises. *)
Lemma isomer_loop_unbound n dms pos fc s :
  isomer_captions n dms = Ok (s, None) ->
  forall l c, existsb genuine l = true ->
    In (caption pos fc isomer_text_x2 isomer_text_y1 s)
       (fst (isomer_loop n dms pos fc l c))
    /\ snd (isomer_loop n dms pos fc l c) = Some UnboundLocalError.
Proof.
  intros Hc l. induction l as [| iso t IH]; intros c Hex; [discriminate |].
  simpl in Hex |- *. destruct (genuine iso) eqn:Hg.
  - rewrite (isomer_body_unbound _ _ _ _ _ _ _ Hc). cbn [fst snd].
    split; [| reflexivity].
    apply in_or_app. right. apply in_or_app. right. now left.
  - now apply IH.
Qed.

Lemma main_is_isomer_spec n : main_is_isomer n = existsb genuine (isomers n).
Proof.
  unfold main_is_isomer.
  assert (H : forall l acc,
             fold_left (fun (is_isomer : bool) iso =>
                          if genuine iso then true else is_isomer) l acc
             = acc || existsb genuine l).
  { induction l as [| iso t IH]; intros acc; simpl.
    - now rewrite orb_false_r.
    - rewrite IH. destruct (genuine iso), acc; reflexivity. }
  now rewrite H.
Qed.

(** ** The two text paths of [draw_classified] *)

Lemma draw_classified_isomer_path n dms pc pos args b :
  Py.str_find (hl_value (half_life n)) "unstable" < 0 ->
  arg_isomers args && b = true ->
  arg_names args = true ->
  draw_classified n dms pc pos args b
  = mkOutcome dms
      (ground_shapes n dms pc pos
       ++ draw_text 3 (fst pos + qz SIZE_SHAPE / 2,
                       snd pos + qz SIZE_GAP + 0.9 * qz SIZE_FONT)%Q
            (font_color_of pc) (SIZE_FONT - 2) (element_name n)
          :: fst (isomer_loop n dms pos (font_color_of pc) (isomers n) pc))
      (exit_of (snd (isomer_loop n dms pos (font_color_of pc) (isomers n) pc))).
Proof.
  intros Hu Hi Hn. unfold draw_classified, ground_shapes.
  apply Z.leb_gt in Hu. rewrite Hu, Hi, Hn.
  markers_returned (ground_markers_return n pos pc dms).
  destruct (isomer_loop _ _ _ _ _ _) as [calls e]. reflexivity.
Qed.

Lemma draw_classified_normal_path n dms pc pos args b t :
  Py.str_find (hl_value (half_life n)) "unstable" < 0 ->
  arg_isomers args && b = false ->
  arg_halflives args = true ->
  hl_extrapolated (half_life n) <> "True" ->
  half_life_text n dms pc = Ok t ->
  exists name,
    draw_classified n dms pc pos args b
    = mkOutcome dms
        (ground_shapes n dms pc pos ++ name
         ++ [draw_text 3 (half_life_position pos) (font_color_of pc)
               SIZE_FONT_HL t])
        Returned
    /\ (name = [] \/ exists p, name = [draw_text 3 p (font_color_of pc) SIZE_FONT
                                        (element_name n)]).
Proof.
  intros Hu Hi Hh He Ht. unfold draw_classified, ground_shapes.
  apply Z.leb_gt in Hu. apply String.eqb_neq in He. rewrite Hu, Hi, Hh, He, Ht.
  markers_returned (ground_markers_return n pos pc dms).
  simpl. eexists. split; [reflexivity |].
  destruct (arg_names args); [right; eexists; reflexivity | now left].
Qed.

Lemma draw_nuclide_ignores_placeholders n pos args b :
  draw_nuclide n pos args b
  = draw_nuclide (with_isomers n (filter genuine (isomers n))) pos args b.
Proof.
  unfold draw_nuclide.
  replace (decay_modes (with_isomers n (filter genuine (isomers n))))
    with (decay_modes n) by now destruct n.
  destruct (primary_pass _ _) as [dms pc | |]; try reflexivity.
  unfold draw_classified.
  rewrite (isomer_loop_skips_placeholders n dms pos _ (isomers n)).
  rewrite (isomer_loop_frame n (with_isomers n (filter genuine (isomers n))))
    by (destruct n; repeat split).
  destruct n. reflexivity.
Qed.

Lemma primary_ok_nonempty dms0 unknown dms pc :
  primary_pass dms0 unknown = primary_ok dms pc ->
  exists dm0 rest, dms = dm0 :: rest.
Proof.
  intros H. apply primary_pass_stable in H.
  destruct dms as [| dm0 rest]; [discriminate | now exists dm0, rest].
Qed.

(** ** Half-life texts *)

(** When the half-life value is not ["?"] and the scientific-notation step
    does not raise, both right-hand captions of the isomer path are bound. *)
Lemma isomer_captions_bound n dms v :
  hl_value (half_life n) <> "?" ->
  sci_format (hl_value (half_life n)) = Ok v ->
  isomer_captions n dms
  = Ok (if (hl_relation (half_life n) =? "=")%string
        then v else hl_relation (half_life n),
        Some (if (hl_relation (half_life n) =? "=")%string
              then hl_unit (half_life n) else hl_value (half_life n))).
Proof.
  intros Hq Hv. apply String.eqb_neq in Hq.
  unfold isomer_captions. rewrite Hv, Hq. simpl.
  now destruct (hl_relation (half_life n) =? "=")%string.
Qed.

(** On the normal path an extrapolated half-life is not written: the only
    text that can appear is the name. *)
Lemma normal_path_hides_extrapolated n pos args b t :
  arg_isomers args && b = false ->
  hl_extrapolated (half_life n) = "True" ->
  In t (texts (out_calls (draw_nuclide n pos args b))) ->
  t = element_name n.
Proof.
  intros Hi He. unfold draw_nuclide.
  destruct (primary_pass _ _) as [dms pc | |]; try (intros []).
  unfold draw_classified. rewrite Hi, He.
  change (negb ("True" =? "True")%string) with false. rewrite andb_false_r.
  destruct (0 <=? _); [intros [] |].
  pose proof (marker_calls_shapes draw_small_triangle n pos pc
                (secondary_pass pc dms)
                (tertiary_pass pc dms (secondary_pass pc dms)) (or_introl eq_refl))
    as [Ht _].
  destruct (marker_calls _ _ _ _ _ _) as [tri [e |]]; cbn [fst] in Ht;
    cbn [out_calls texts]; rewrite ?texts_app; cbn [texts]; rewrite Ht;
    [intros [] |].
  destruct (arg_names args); simpl; intuition.
Qed.

(** C8: the test of line 786 guards the normal path only.  A record whose
    half-life is marked extrapolated gets no half-life text there, but with
    a genuine isomer (and isomers and names enabled) lines 756-757 write
    its half-life value and unit all the same. *)
Theorem C8_isomer_path_draws_extrapolated_half_life :
  hl_extrapolated hl_extrapolated_years = "True"
  /\ texts (out_calls
              (main_draw (sample beta_only hl_extrapolated_years []) origin all_on))
     = ["$*3*$H"]
  /\ main_is_isomer (sample beta_only hl_extrapolated_years [iso_it]) = true
  /\ texts (out_calls
              (main_draw (sample beta_only hl_extrapolated_years [iso_it])
                 origin all_on))
     = ["$*3*$H"; "12.3"; "y"; "1.5"; "s"].
Proof. repeat split; reflexivity. Qed.




(** C4, as the code has it.  For a drawn nuclide whose half-life value is
    ["?"]: on the normal path (half-lives enabled, not extrapolated, primary
    colour not stable) the last call writes the literal ["?"]; on the isomer
    path, with a genuine isomer, the first right-hand caption is
    [decay_modes[0]['value'] + "%"]. *)
Theorem C4_unknown_half_life_display n pos args b dms pc :
  primary_pass (decay_modes n) (arg_unknown args) = primary_ok dms pc ->
  hl_value (half_life n) = "?" ->
  (if arg_isomers args && b
   then arg_names args = true /\ existsb genuine (isomers n) = true
   else arg_halflives args = true
        /\ hl_extrapolated (half_life n) <> "True"
        /\ is_stable_color pc = false) ->
  if arg_isomers args && b
  then
    exists dm0 rest,
      out_decay_modes (draw_nuclide n pos args b) = dm0 :: rest
      /\ In (caption pos (font_color_of pc) isomer_text_x2 isomer_text_y1
               (dm_value dm0 ++ "%"))
            (out_calls (draw_nuclide n pos args b))
  else
    exists before,
      out_calls (draw_nuclide n pos args b)
      = (before
         ++ [draw_text 3 (half_life_position pos) FONT_COLOR_DARK SIZE_FONT_HL "?"])%list.
Proof.
  intros Hp Hq Hpath.
  assert (Hu : Py.str_find (hl_value (half_life n)) "unstable" < 0)
    by (rewrite Hq; reflexivity).
  destruct (primary_ok_nonempty _ _ _ _ Hp) as (dm0 & rest & Hd).
  unfold draw_nuclide. rewrite Hp.
  destruct (arg_isomers args && b) eqn:Hi.
  - destruct Hpath as [Hn Hex].
    rewrite (draw_classified_isomer_path _ _ _ _ _ _ Hu Hi Hn).
    cbn [out_calls out_decay_modes]. exists dm0, rest. split; [exact Hd |].
    assert (Hc : isomer_captions n dms = Ok (dm_value dm0 ++ "%", None)).
    { unfold isomer_captions. rewrite Hq, Hd. reflexivity. }
    apply in_or_app. right. right.
    now apply (isomer_loop_unbound n dms pos (font_color_of pc) _ Hc).
  - destruct Hpath as (Hh & He & Hs).
    assert (Ht : half_life_text n dms pc = Ok "?").
    { unfold half_life_text. rewrite Hs, Hq. reflexivity. }
    destruct (draw_classified_normal_path n dms pc pos args b _ Hu Hi Hh He Ht)
      as (name & -> & _).
    cbn [out_calls]. unfold font_color_of. rewrite Hs.
    exists (ground_shapes n dms pc pos ++ name)%list. now rewrite <- app_assoc.
Qed.

Lemma C4_witness :
  (exists before,
     out_calls (draw_nuclide (sample beta_only hl_unknown []) origin all_on false)
     = (before
        ++ [draw_text 3 (half_life_position origin) FONT_COLOR_DARK SIZE_FONT_HL "?"])%list)
  /\ (exists dm0 rest,
        out_decay_modes
          (draw_nuclide (sample beta_only hl_unknown [iso_it]) origin all_on true)
        = dm0 :: rest
        /\ In (caption origin (font_color_of (COLORS "b-")) isomer_text_x2
                 isomer_text_y1 (dm_value dm0 ++ "%"))
              (out_calls
                 (draw_nuclide (sample beta_only hl_unknown [iso_it]) origin
                    all_on true))).
Proof.
  split.
  - apply (C4_unknown_half_life_display (sample beta_only hl_unknown []) origin
             all_on false beta_only (COLORS "b-")).
    + reflexivity.
    + reflexivity.
    + simpl. repeat split. discriminate.
  - apply (C4_unknown_half_life_display (sample beta_only hl_unknown [iso_it])
             origin all_on true beta_only (COLORS "b-")).
    + reflexivity.
    + reflexivity.
    + simpl. split; reflexivity.
Defined.

(** C4 as stated fails: a beta-minus emitter with half-life value ["?"] gets
    the text ["?"] on the normal path, not ["100%"]. *)
Lemma C4_counterexample_placeholder_is_written :
  is_stable_color (COLORS "b-") = false
  /\ hl_value hl_unknown = "?"
  /\ texts (out_calls (main_draw (sample beta_only hl_unknown []) origin all_on))
     = ["$*3*$H"; "?"]
  /\ ~ In ("100" ++ "%")
          (texts (out_calls (main_draw (sample beta_only hl_unknown []) origin all_on))).
Proof.
  repeat split.
  vm_compute. intros [H | [H | []]]; discriminate.
Qed.

(** ** Isomers *)

Lemma isomer_loop_app n dms pos fc s u :
  isomer_captions n dms = Ok (s, Some u) ->
  forall pre l c,
    fst (isomer_loop n dms pos fc (pre ++ l) c)
    = (fst (isomer_loop n dms pos fc pre c)
       ++ fst (isomer_loop n dms pos fc l (carried_colour c pre)))%list.
Proof.
  intros Hc pre l. induction pre as [| x t IH]; intros c; [reflexivity |].
  cbn [app isomer_loop carried_colour fold_left].
  destruct (genuine x); [| apply IH].
  rewrite (isomer_body_captioned _ _ _ _ _ _ _ _ Hc).
  specialize (IH (isomer_primary (iso_decay_modes x) c)).
  unfold carried_colour in IH.
  destruct (isomer_loop n dms pos fc (t ++ l) _) as [calls e].
  destruct (isomer_loop n dms pos fc t _) as [calls' e'].
  cbn [fst] in *. rewrite IH. now rewrite <- !app_assoc.
Qed.

Lemma isomer_secondary_body_same c dm st :
  dm_mode dm <> "it" -> isomer_secondary_body c dm st = secondary_body c dm st.
Proof.
  intros H. unfold isomer_secondary_body, secondary_body, is_basic_or_it.
  apply String.eqb_neq in H. rewrite H. now rewrite orb_false_r.
Qed.

Lemma isomer_secondary_scan_same c l :
  (forall e, In e l -> dm_mode e <> "it") ->
  forall st,
    for_each (isomer_secondary_body c) l st = for_each (secondary_body c) l st.
Proof.
  induction l as [| dm t IH]; intros H st; [reflexivity |].
  cbn [for_each]. rewrite (isomer_secondary_body_same c dm st)
    by (apply H; now left).
  destruct (secondary_body c dm st); [| reflexivity].
  apply IH. intros e He. apply H. now right.
Qed.

Lemma isomer_secondary_pass_same c dms :
  (forall e, In e (tl dms) -> dm_mode e <> "it") ->
  isomer_secondary_pass c dms = secondary_pass c dms.
Proof.
  intros H. unfold isomer_secondary_pass, secondary_pass.
  destruct (1 <? List.length dms)%nat; [| reflexivity].
  destruct dms as [| dm0 rest]; [reflexivity |].
  cbn [skipn tl] in *. now apply isomer_secondary_scan_same.
Qed.

Lemma isomer_primary_kept iso c :
  keeps_colour iso -> isomer_primary (iso_decay_modes iso) c = c.
Proof.
  unfold keeps_colour, isomer_primary.
  destruct (iso_decay_modes iso) as [| dm t]; [reflexivity |].
  intros [-> | H]; [reflexivity |]. rewrite H. now destruct (is_basic_or_it dm).
Qed.

Lemma isomer_primary_accepted dm rest v c :
  is_basic dm = true \/ dm_mode dm = "it" ->
  Py.float (Py.str_strip (dm_value dm) "#") = Some v ->
  isomer_primary (dm :: rest) c = COLORS (dm_mode dm).
Proof.
  intros Hacc Hv. unfold isomer_primary, is_basic_or_it. rewrite Hv.
  destruct Hacc as [-> | ->]; [reflexivity |]. now rewrite orb_true_r.
Qed.

(** C5, as the code has it.  When isomers and names are both enabled, the
    nuclide is drawn and the ground-state half-life leaves both of its
    captions bound, every genuine isomer gets its turn of the loop of
    line 588, whatever its decay modes are: its triangles, the inset
    rectangle, the divider line and the four captions are emitted, and the
    call returns normally.  The turn classifies the isomer's own decay modes
    with a second copy of the code:
    - the inset takes the colour of the isomer's first mode when that mode
      is a basic mode or ["it"] and its value parses, and otherwise keeps
      the colour that the turns before it have left, starting from the
      primary colour of the nuclide;
    - for a list with no ["it"] after its first entry, the triangles are
      those that the ground-state code of lines 477-557 gives for that list
      and that colour, drawn with the isomer variant of the small triangle;
    - an ["it"] entry in second place sets the secondary marker as a basic
      mode would, where the ground-state code passes over it. *)
Theorem C5_isomer_encoding n pos args dms pc pre iso post s u :
  primary_pass (decay_modes n) (arg_unknown args) = primary_ok dms pc ->
  Py.str_find (hl_value (half_life n)) "unstable" < 0 ->
  arg_isomers args = true ->
  arg_names args = true ->
  isomers n = (pre ++ iso :: post)%list ->
  genuine iso = true ->
  isomer_captions n dms = Ok (s, Some u) ->
  main_is_isomer n = true
  /\ out_exit (main_draw n pos args) = Returned
  /\ (exists before after,
        out_calls (main_draw n pos args)
        = (before
           ++ (isomer_triangles n pos
                 (isomer_primary (iso_decay_modes iso) (carried_colour pc pre))
                 (iso_decay_modes iso)
               ++ isomer_inset n pos
                    (isomer_primary (iso_decay_modes iso) (carried_colour pc pre))
               ++ four_captions pos (font_color_of pc) s u iso)
           ++ after)%list)
  /\ (forall dm rest v,
        iso_decay_modes iso = dm :: rest ->
        is_basic dm = true \/ dm_mode dm = "it" ->
        Py.float (Py.str_strip (dm_value dm) "#") = Some v ->
        isomer_primary (iso_decay_modes iso) (carried_colour pc pre)
        = COLORS (dm_mode dm))
  /\ (keeps_colour iso ->
      isomer_primary (iso_decay_modes iso) (carried_colour pc pre)
      = carried_colour pc pre)
  /\ (forall ipc,
        (forall e, In e (tl (iso_decay_modes iso)) -> dm_mode e <> "it") ->
        isomer_triangles n pos ipc (iso_decay_modes iso)
        = fst (marker_calls draw_small_isomer_triangle n pos ipc
                 (secondary_pass ipc (iso_decay_modes iso))
                 (tertiary_pass ipc (iso_decay_modes iso)
                    (secondary_pass ipc (iso_decay_modes iso)))))
  /\ (forall ipc dm0 val v,
        Py.float (Py.str_strip val "#") = Some v ->
        isomer_secondary_pass ipc [dm0; mkDecayMode "it" val]
        = mkMarker
            (if Py.float_gt v Py.lit_5_0 && negb (is_stable_color ipc)
             then Some large
             else if Py.float_gt v Py.lit_0_0 then Some small else None)
            (Some (COLORS "it"))
        /\ secondary_pass ipc [dm0; mkDecayMode "it" val] = no_marker).
Proof.
  intros Hp Hu Hi Hn Hiso Hg Hc.
  assert (Hm : main_is_isomer n = true).
  { rewrite main_is_isomer_spec, Hiso. apply existsb_exists. exists iso.
    split; [apply in_or_app; right; now left | exact Hg]. }
  assert (Hpath : arg_isomers args && main_is_isomer n = true) by now rewrite Hi, Hm.
  assert (Ho : draw_nuclide n pos args (main_is_isomer n)
               = mkOutcome dms
                   (ground_shapes n dms pc pos
                    ++ draw_text 3 (fst pos + qz SIZE_SHAPE / 2,
                                    snd pos + qz SIZE_GAP + 0.9 * qz SIZE_FONT)%Q
                         (font_color_of pc) (SIZE_FONT - 2) (element_name n)
                       :: fst (isomer_loop n dms pos (font_color_of pc) (isomers n) pc))
                   Returned).
  { unfold draw_nuclide. rewrite Hp.
    rewrite (draw_classified_isomer_path _ _ _ _ _ _ Hu Hpath Hn).
    destruct (isomer_loop_captioned n dms pos (font_color_of pc) s u Hc
                (isomers n) pc) as (-> & _). reflexivity. }
  rewrite (main_draw_call n pos args (primary_ok_has_modes _ _ _ _ Hp)), Ho.
  cbn [out_exit out_calls].
  split; [exact Hm | split; [reflexivity | split; [| split; [| split; [| split]]]]].
  - rewrite Hiso, (isomer_loop_app n dms pos (font_color_of pc) s u Hc).
    cbn [isomer_loop]. rewrite Hg, (isomer_body_captioned _ _ _ _ _ _ _ _ Hc).
    destruct (isomer_loop n dms pos (font_color_of pc) post _) as [calls' e'].
    cbn [fst].
    exists (ground_shapes n dms pc pos
            ++ draw_text 3 (fst pos + qz SIZE_SHAPE / 2,
                            snd pos + qz SIZE_GAP + 0.9 * qz SIZE_FONT)%Q
                 (font_color_of pc) (SIZE_FONT - 2) (element_name n)
               :: fst (isomer_loop n dms pos (font_color_of pc) pre pc))%list,
           calls'.
    rewrite <- !app_assoc. reflexivity.
  - intros dm rest v Hd Hacc Hv. rewrite Hd.
    now apply (isomer_primary_accepted dm rest v).
  - apply isomer_primary_kept.
  - intros ipc Hit. unfold isomer_triangles.
    now rewrite (isomer_secondary_pass_same ipc _ Hit).
  - intros ipc dm0 val v Hv. split.
    + unfold isomer_secondary_pass. cbn [List.length Nat.ltb Nat.leb skipn for_each].
      unfold isomer_secondary_body, is_basic_or_it. cbn [dm_mode dm_value].
      rewrite Hv. cbn.
      destruct (Py.float_gt v Py.lit_5_0 && negb (is_stable_color ipc));
        [reflexivity |].
      destruct (Py.float_gt v Py.lit_0_0); reflexivity.
    + reflexivity.
Qed.

Lemma C5_witness :
  main_is_isomer (sample beta_only hl_years [iso_placeholder; iso_beta; iso_cascade])
  = true
  /\ out_exit (main_draw (sample beta_only hl_years
                            [iso_placeholder; iso_beta; iso_cascade])
                 origin all_on)
     = Returned
  /\ (exists before after,
        out_calls (main_draw (sample beta_only hl_years
                                [iso_placeholder; iso_beta; iso_cascade])
                     origin all_on)
        = (before
           ++ ([ draw_triangle 1 origin (COLORS "b-") "3H1" "rb";
                 draw_small_isomer_triangle 1 origin (COLORS "b-") "3H2" "rb" ]
               ++ isomer_inset (sample beta_only hl_years
                                  [iso_placeholder; iso_beta; iso_cascade])
                    origin (COLORS "it")
               ++ four_captions origin (font_color_of (COLORS "b-")) "12.3" "y"
                    iso_cascade)
           ++ after)%list)
  /\ (forall dm rest v,
        iso_decay_modes iso_cascade = dm :: rest ->
        is_basic dm = true \/ dm_mode dm = "it" ->
        Py.float (Py.str_strip (dm_value dm) "#") = Some v ->
        COLORS "it" = COLORS (dm_mode dm))
  /\ (keeps_colour iso_cascade -> COLORS "it" = COLORS "b-")
  /\ (forall ipc,
        (forall e, In e (tl (iso_decay_modes iso_cascade)) -> dm_mode e <> "it") ->
        isomer_triangles (sample beta_only hl_years
                            [iso_placeholder; iso_beta; iso_cascade])
          origin ipc (iso_decay_modes iso_cascade)
        = fst (marker_calls draw_small_isomer_triangle
                 (sample beta_only hl_years [iso_placeholder; iso_beta; iso_cascade])
                 origin ipc
                 (secondary_pass ipc (iso_decay_modes iso_cascade))
                 (tertiary_pass ipc (iso_decay_modes iso_cascade)
                    (secondary_pass ipc (iso_decay_modes iso_cascade)))))
  /\ (forall ipc dm0 val v,
        Py.float (Py.str_strip val "#") = Some v ->
        isomer_secondary_pass ipc [dm0; mkDecayMode "it" val]
        = mkMarker
            (if Py.float_gt v Py.lit_5_0 && negb (is_stable_color ipc)
             then Some large
             else if Py.float_gt v Py.lit_0_0 then Some small else None)
            (Some (COLORS "it"))
        /\ secondary_pass ipc [dm0; mkDecayMode "it" val] = no_marker).
Proof.
  apply (C5_isomer_encoding
           (sample beta_only hl_years [iso_placeholder; iso_beta; iso_cascade])
           origin all_on beta_only (COLORS "b-") [iso_placeholder; iso_beta]
           iso_cascade [] "12.3" "y").
  - reflexivity.
  - reflexivity.
  - reflexivity.
  - reflexivity.
  - reflexivity.
  - reflexivity.
  - reflexivity.
Defined.

(** C5 as stated fails: with isomers enabled, a genuine isomer and names
    disabled (line 563), only the base rectangle is drawn. *)
Lemma C5_counterexample_names_disabled :
  arg_isomers names_off = true
  /\ main_is_isomer (sample beta_only hl_years [iso_it]) = true
  /\ out_calls (main_draw (sample beta_only hl_years [iso_it]) origin names_off)
     = [draw_rectangle 0 origin (COLORS "b-") "3H0"]
  /\ count_insets
       (out_calls (main_draw (sample beta_only hl_years [iso_it]) origin names_off))
     = 0%nat.
Proof. repeat split; reflexivity. Qed.

Lemma existsb_filter_genuine l :
  existsb genuine (filter genuine l) = existsb genuine l.
Proof.
  induction l as [| x t IH]; simpl; [reflexivity |].
  destruct (genuine x) eqn:Hx; simpl; now rewrite ?Hx, IH.
Qed.

(** An isomer that fails the test of lines 594 and 601 leaves no trace,
    wherever it stands in the list. *)
Lemma main_draw_ignores_placeholders n pos args :
  main_draw n pos args
  = main_draw (with_isomers n (filter genuine (isomers n))) pos args.
Proof.
  unfold main_draw. rewrite !main_is_isomer_spec.
  replace (isomers (with_isomers n (filter genuine (isomers n))))
    with (filter genuine (isomers n)) by now destruct n.
  replace (decay_modes (with_isomers n (filter genuine (isomers n))))
    with (decay_modes n) by now destruct n.
  now rewrite existsb_filter_genuine, <- draw_nuclide_ignores_placeholders.
Qed.

(** On the isomer path, with both captions bound, every isomer that passes
    the test is drawn, in the order of the list: one inset and four captions
    each. *)
Lemma isomer_path_draws_every_genuine_isomer n pos args dms pc s u :
  primary_pass (decay_modes n) (arg_unknown args) = primary_ok dms pc ->
  Py.str_find (hl_value (half_life n)) "unstable" < 0 ->
  arg_isomers args = true ->
  arg_names args = true ->
  existsb genuine (isomers n) = true ->
  isomer_captions n dms = Ok (s, Some u) ->
  texts (out_calls (main_draw n pos args))
  = element_name n :: flat_map (captions_of s u) (filter genuine (isomers n))
  /\ count_insets (out_calls (main_draw n pos args))
     = List.length (filter genuine (isomers n)).
Proof.
  intros Hp Hu Hi Hn Hex Hc.
  assert (Hpath : arg_isomers args && main_is_isomer n = true)
    by now rewrite main_is_isomer_spec, Hi, Hex.
  rewrite (main_draw_call n pos args (primary_ok_has_modes _ _ _ _ Hp)).
  unfold draw_nuclide. rewrite Hp.
  rewrite (draw_classified_isomer_path _ _ _ _ _ _ Hu Hpath Hn).
  destruct (isomer_loop_captioned n dms pos (font_color_of pc) s u Hc
              (isomers n) pc) as (-> & Ht & Hcount).
  cbn [out_exit out_calls exit_of].
  rewrite texts_app, count_insets_app.
  destruct (ground_shapes_silent n dms pc pos) as [-> ->].
  simpl. now rewrite Ht, Hcount.
Qed.

(** C3: the loop of line 588 has no [break], and neither has the flag loop
    of line 1039.  With a placeholder isomer followed by two genuine ones,
    the resolver of the specification selects the first genuine one, and
    the placeholder leaves no trace; but the loop goes on after the first
    match and draws the second genuine isomer too, on the same cell: a
    second inset rectangle with the same id and the same position, and its
    half-life written over that of the first.  The outcome is not the one
    of the nuclide with its first genuine isomer alone. *)
Theorem C3_every_genuine_isomer_is_stacked :
  findGenuineIsomer three_isomers = Some iso_it
  /\ (forall n pos args,
        main_draw n pos args
        = main_draw (with_isomers n (filter genuine (isomers n))) pos args)
  /\ inset_calls
       (out_calls (main_draw (only_first_genuine
                                (sample beta_only hl_years three_isomers))
                     origin all_on))
     = [draw_isomer_rectangle 0 origin (COLORS "it") "31ib"]
  /\ texts
       (out_calls (main_draw (only_first_genuine
                                (sample beta_only hl_years three_isomers))
                     origin all_on))
     = ["$*3*$H"; "12.3"; "y"; "1.5"; "s"]
  /\ inset_calls
       (out_calls (main_draw (sample beta_only hl_years three_isomers)
                     origin all_on))
     = [ draw_isomer_rectangle 0 origin (COLORS "it") "31ib";
         draw_isomer_rectangle 0 origin (COLORS "b-") "31ib" ]
  /\ texts (out_calls (main_draw (sample beta_only hl_years three_isomers)
                         origin all_on))
     = ["$*3*$H"; "12.3"; "y"; "1.5"; "s"; "12.3"; "y"; "2.5"; "h"]
  /\ In (caption origin (font_color_of (COLORS "b-")) isomer_text_x1
           isomer_text_y1 "1.5")
        (out_calls (main_draw (sample beta_only hl_years three_isomers)
                      origin all_on))
  /\ In (caption origin (font_color_of (COLORS "b-")) isomer_text_x1
           isomer_text_y1 "2.5")
        (out_calls (main_draw (sample beta_only hl_years three_isomers)
                      origin all_on))
  /\ main_draw (sample beta_only hl_years three_isomers) origin all_on
     <> main_draw (only_first_genuine (sample beta_only hl_years three_isomers))
          origin all_on.
Proof.
  split; [reflexivity |].
  split; [exact main_draw_ignores_placeholders |].
  split; [reflexivity |]. split; [reflexivity |].
  split; [reflexivity |]. split; [reflexivity |].
  split; [vm_compute; tauto |]. split; [vm_compute; tauto |].
  intros H. apply (f_equal (fun o => count_insets (out_calls o))) in H.
  vm_compute in H. discriminate.
Qed.

(** * Further properties of [draw_nuclide] *)

(** ** How the call can end *)

Lemma sci_format_error s e : sci_format s = Err e -> e = ValueError.
Proof.
  unfold sci_format. destruct (Re.sci_re s); [| discriminate].
  destruct (Py.float s); [discriminate | now intros [= <-]].
Qed.

Lemma isomer_captions_error n dms e :
  dms <> [] -> isomer_captions n dms = Err e -> e = ValueError.
Proof.
  intros Hd. unfold isomer_captions.
  destruct (sci_format _) as [s | e'] eqn:Hs.
  - destruct (negb _).
    + destruct (negb _); discriminate.
    + destruct dms; [contradiction | discriminate].
  - intros [= <-]. now apply sci_format_error in Hs.
Qed.

Lemma half_life_text_error n dms pc e :
  dms <> [] -> half_life_text n dms pc = Err e -> e = ValueError.
Proof.
  intros Hd. unfold half_life_text. destruct (negb _).
  - destruct (sci_format _) as [s | e'] eqn:Hs.
    + destruct (negb _); [destruct (negb _) |]; discriminate.
    + intros [= <-]. now apply sci_format_error in Hs.
  - destruct dms; [contradiction | discriminate].
Qed.

Lemma isomer_body_exit n dms pos fc iso c e :
  dms <> [] ->
  snd (isomer_body n dms pos fc iso c) = Some e ->
  e = ValueError \/ e = UnboundLocalError.
Proof.
  intros Hd. unfold isomer_body.
  markers_returned (isomer_markers_return n pos
                      (isomer_primary (iso_decay_modes iso) c) (iso_decay_modes iso)).
  destruct (isomer_captions n dms) as [[s [u |]] | e'] eqn:Hc; cbn [snd].
  - discriminate.
  - intros [= <-]. now right.
  - intros [= <-]. left. now apply (isomer_captions_error n dms).
Qed.

Lemma isomer_loop_exit n dms pos fc l :
  dms <> [] ->
  forall c e, snd (isomer_loop n dms pos fc l c) = Some e ->
              e = ValueError \/ e = UnboundLocalError.
Proof.
  intros Hd. induction l as [| iso t IH]; intros c e; simpl; [discriminate |].
  destruct (genuine iso); [| apply IH].
  pose proof (isomer_body_exit n dms pos fc iso c) as Hb.
  destruct (isomer_body n dms pos fc iso c) as [[c' calls] [e' |]]; cbn [snd] in *.
  - intros [= <-]. now apply Hb.
  - specialize (IH c' e). destruct (isomer_loop n dms pos fc t c') as [calls' e''].
    exact IH.
Qed.

Lemma draw_classified_exit n dms pc pos args b e :
  dms <> [] ->
  out_exit (draw_classified n dms pc pos args b) = Raised e ->
  e = ValueError \/ e = UnboundLocalError.
Proof.
  intros Hd. unfold draw_classified.
  destruct (0 <=? _); [discriminate |].
  markers_returned (ground_markers_return n pos pc dms).
  destruct (arg_isomers args && b).
  - destruct (arg_names args); [| discriminate].
    pose proof (isomer_loop_exit n dms pos (font_color_of pc) (isomers n) Hd pc) as Hl.
    destruct (isomer_loop _ _ _ _ _ _) as [calls [e' |]]; cbn [out_exit exit_of].
    + intros [= <-]. now apply Hl.
    + discriminate.
  - destruct (arg_halflives args && _); [| discriminate].
    destruct (half_life_text n dms pc) as [t | e'] eqn:Ht; [discriminate |].
    cbn [out_exit]. intros [= <-]. left. now apply (half_life_text_error n dms pc).
Qed.

Lemma primary_pass_index_error dms unknown :
  primary_pass dms unknown = primary_index_error -> dms = [].
Proof.
  destruct dms as [| dm0 rest]; [reflexivity |]. unfold primary_pass.
  repeat match goal with
         | |- (if ?c then _ else _) = _ -> _ => destruct c
         | |- match ?x with _ => _ end = _ -> _ => destruct x
         end; discriminate.
Qed.

(** X1: [draw_nuclide] raises [IndexError] exactly when the decay-mode list
    is empty (line 444 reads its first entry), and nothing has been drawn
    then.  In the main loop such a record never reaches the call: line 1031
    reads the same entry outside any [try], so the program ends there with
    [IndexError].  For every other record the outcome of the call passes
    through unchanged: the handler of lines 1239-1240 never handles
    anything. *)
Theorem draw_nuclide_index_error_iff_no_modes n pos args b :
  (out_exit (draw_nuclide n pos args b) = Raised IndexError <-> decay_modes n = [])
  /\ (decay_modes n = [] ->
      out_calls (draw_nuclide n pos args b) = []
      /\ main_draw n pos args = mkOutcome [] [] (Raised IndexError))
  /\ (decay_modes n <> [] ->
      main_draw n pos args = draw_nuclide n pos args (main_is_isomer n)).
Proof.
  assert (Hiff : forall b',
            out_exit (draw_nuclide n pos args b') = Raised IndexError
            -> decay_modes n = []).
  { intros b' H. destruct (decay_modes n) as [| dm0 rest] eqn:Hd; [reflexivity |].
    exfalso. unfold draw_nuclide in H. rewrite Hd in H.
    destruct (primary_pass (dm0 :: rest) (arg_unknown args)) as [dms pc | |] eqn:Hp.
    + destruct (primary_ok_nonempty _ _ _ _ Hp) as (d & r & ->).
      apply draw_classified_exit in H; [| discriminate].
      destruct H; discriminate.
    + discriminate H.
    + now apply primary_pass_index_error in Hp. }
  split; [split | split].
  - apply Hiff.
  - intros Hd. unfold draw_nuclide. now rewrite Hd.
  - intros Hd. unfold main_draw, draw_nuclide. rewrite Hd. split; reflexivity.
  - intros Hd. rewrite (main_draw_call n pos args Hd).
    destruct (out_exit (draw_nuclide n pos args (main_is_isomer n)))
      as [| [| |]] eqn:He; try reflexivity.
    apply Hiff in He. congruence.
Qed.

(** X2: a nuclide with at least one decay mode, whose half-life value passes
    the scientific-notation step, is handled without an exception, provided
    its half-life value is not ["?"] or the isomer path is not taken. *)
Theorem draw_nuclide_returns n pos args b v :
  decay_modes n <> [] ->
  sci_format (hl_value (half_life n)) = Ok v ->
  hl_value (half_life n) <> "?" \/ arg_isomers args && b = false ->
  out_exit (draw_nuclide n pos args b) = Returned.
Proof.
  intros Hd Hv Hq. unfold draw_nuclide.
  destruct (primary_pass _ _) as [dms pc | |] eqn:Hp; try reflexivity.
  - destruct (primary_ok_nonempty _ _ _ _ Hp) as (d & r & ->).
    unfold draw_classified. destruct (0 <=? _); [reflexivity |].
    markers_returned (ground_markers_return n pos pc (d :: r)).
    destruct (arg_isomers args && b) eqn:Hi.
    + destruct Hq as [Hq | Hq]; [| discriminate].
      destruct (arg_names args); [| reflexivity].
      destruct (isomer_loop_captioned n (d :: r) pos (font_color_of pc) _ _
                  (isomer_captions_bound n (d :: r) v Hq Hv) (isomers n) pc)
        as (He & _).
      destruct (isomer_loop _ _ _ _ _ _) as [calls e]. cbn [snd] in He.
      now subst e.
    + destruct (arg_halflives args && _); [| reflexivity].
      assert (Ht : exists t, half_life_text n (d :: r) pc = Ok t).
      { unfold half_life_text. rewrite Hv.
        destruct (negb (is_stable_color pc)); [| eauto].
        destruct (negb _); [destruct (negb _) |]; eauto. }
      destruct Ht as [t ->]. reflexivity.
  - now apply primary_pass_index_error in Hp.
Qed.

Lemma draw_nuclide_returns_witness :
  out_exit (draw_nuclide (sample three_modes hl_upper_bound three_isomers) origin
              all_on true)
  = Returned.
Proof.
  apply (draw_nuclide_returns (sample three_modes hl_upper_bound three_isomers)
           origin all_on true "12.3").
  - discriminate.
  - reflexivity.
  - left. discriminate.
Defined.

Lemma isomer_loop_unbound_stops n dms pos fc s :
  isomer_captions n dms = Ok (s, None) ->
  forall l c, existsb genuine l = true ->
    texts (fst (isomer_loop n dms pos fc l c)) = [s]
    /\ count_insets (fst (isomer_loop n dms pos fc l c)) = 1%nat
    /\ snd (isomer_loop n dms pos fc l c) = Some UnboundLocalError.
Proof.
  intros Hc l. induction l as [| iso t IH]; intros c Hex; [discriminate |].
  simpl in Hex |- *. destruct (genuine iso) eqn:Hg; [| now apply IH].
  rewrite (isomer_body_unbound _ _ _ _ _ _ _ Hc). cbn [fst snd].
  rewrite texts_app, count_insets_app.
  destruct (isomer_triangles_silent n pos
              (isomer_primary (iso_decay_modes iso) c) (iso_decay_modes iso))
    as [-> ->].
  repeat split.
Qed.

(** X3: with isomers and names enabled, a drawn nuclide whose half-life
    value is ["?"] and which has a genuine isomer makes line 757 read the
    unbound [half_life_unit]: the call ends in [UnboundLocalError], which
    the main loop does not catch, after the name, one inset and the single
    caption [decay_modes[0]['value'] + "%"]. *)
Theorem unknown_half_life_with_isomer_raises n pos args dms pc :
  primary_pass (decay_modes n) (arg_unknown args) = primary_ok dms pc ->
  hl_value (half_life n) = "?" ->
  arg_isomers args = true ->
  arg_names args = true ->
  existsb genuine (isomers n) = true ->
  out_exit (main_draw n pos args) = Raised UnboundLocalError
  /\ count_insets (out_calls (main_draw n pos args)) = 1%nat
  /\ exists dm0 rest,
       dms = dm0 :: rest
       /\ texts (out_calls (main_draw n pos args))
          = [element_name n; dm_value dm0 ++ "%"].
Proof.
  intros Hp Hq Hi Hn Hex.
  assert (Hu : Py.str_find (hl_value (half_life n)) "unstable" < 0)
    by (rewrite Hq; reflexivity).
  destruct (primary_ok_nonempty _ _ _ _ Hp) as (dm0 & rest & Hd).
  assert (Hc : isomer_captions n dms = Ok (dm_value dm0 ++ "%", None)).
  { unfold isomer_captions. rewrite Hq, Hd. reflexivity. }
  assert (Hpath : arg_isomers args && main_is_isomer n = true)
    by now rewrite main_is_isomer_spec, Hi, Hex.
  destruct (isomer_loop_unbound_stops n dms pos (font_color_of pc) _ Hc
              (isomers n) pc Hex) as (Ht & Hcount & He).
  assert (Ho : draw_nuclide n pos args (main_is_isomer n)
               = mkOutcome dms
                   (ground_shapes n dms pc pos
                    ++ draw_text 3 (fst pos + qz SIZE_SHAPE / 2,
                                    snd pos + qz SIZE_GAP + 0.9 * qz SIZE_FONT)%Q
                         (font_color_of pc) (SIZE_FONT - 2) (element_name n)
                       :: fst (isomer_loop n dms pos (font_color_of pc) (isomers n) pc))
                   (Raised UnboundLocalError)).
  { unfold draw_nuclide. rewrite Hp.
    rewrite (draw_classified_isomer_path _ _ _ _ _ _ Hu Hpath Hn). now rewrite He. }
  rewrite (main_draw_call n pos args (primary_ok_has_modes _ _ _ _ Hp)), Ho.
  cbn [out_exit out_calls].
  rewrite texts_app, count_insets_app.
  destruct (ground_shapes_silent n dms pc pos) as [-> ->].
  cbn [texts count_insets app Nat.add]. rewrite Ht, Hcount.
  repeat split. now exists dm0, rest.
Qed.

Lemma unknown_half_life_with_isomer_raises_witness :
  out_exit (main_draw (sample beta_only hl_unknown three_isomers) origin all_on)
  = Raised UnboundLocalError
  /\ count_insets
       (out_calls (main_draw (sample beta_only hl_unknown three_isomers) origin all_on))
     = 1%nat
  /\ exists dm0 rest,
       beta_only = dm0 :: rest
       /\ texts (out_calls
                   (main_draw (sample beta_only hl_unknown three_isomers) origin all_on))
          = [element_name (sample beta_only hl_unknown three_isomers);
             dm_value dm0 ++ "%"].
Proof.
  apply (unknown_half_life_with_isomer_raises
           (sample beta_only hl_unknown three_isomers) origin all_on beta_only
           (COLORS "b-"));
    reflexivity.
Defined.

(** X4: a half-life value that passes the pattern of lines 739 and 791 but
    that [float] rejects (more than one exponent letter) ends the call in
    [ValueError], which nothing catches: on the normal path when the
    half-life text is due for a non-stable nuclide, and on the isomer path as
    soon as a genuine isomer is met. *)
Theorem malformed_half_life_raises n pos args b dms pc :
  primary_pass (decay_modes n) (arg_unknown args) = primary_ok dms pc ->
  Py.str_find (hl_value (half_life n)) "unstable" < 0 ->
  Re.sci_re (hl_value (half_life n)) = true ->
  Py.float (hl_value (half_life n)) = None ->
  (if arg_isomers args && b
   then arg_names args = true /\ existsb genuine (isomers n) = true
   else arg_halflives args = true
        /\ hl_extrapolated (half_life n) <> "True"
        /\ is_stable_color pc = false) ->
  out_exit (draw_nuclide n pos args b) = Raised ValueError.
Proof.
  intros Hp Hu Hre Hf Hpath. unfold draw_nuclide. rewrite Hp.
  assert (Hs : sci_format (hl_value (half_life n)) = Err ValueError)
    by (unfold sci_format; now rewrite Hre, Hf).
  destruct (arg_isomers args && b) eqn:Hi.
  - destruct Hpath as [Hn Hex].
    rewrite (draw_classified_isomer_path _ _ _ _ _ _ Hu Hi Hn). cbn [out_exit].
    assert (Hc : isomer_captions n dms = Err ValueError)
      by (unfold isomer_captions; now rewrite Hs).
    assert (Hl : forall l c, existsb genuine l = true ->
                   snd (isomer_loop n dms pos (font_color_of pc) l c)
                   = Some ValueError).
    { induction l as [| iso t IH]; intros c H; [discriminate |].
      simpl in H |- *. destruct (genuine iso); [| now apply IH].
      unfold isomer_body.
      markers_returned (isomer_markers_return n pos
                          (isomer_primary (iso_decay_modes iso) c)
                          (iso_decay_modes iso)).
      now rewrite Hc. }
    now rewrite Hl.
  - destruct Hpath as (Hh & He & Hst). unfold draw_classified.
    apply Z.leb_gt in Hu. apply String.eqb_neq in He. rewrite Hu, Hi, Hh, He.
    markers_returned (ground_markers_return n pos pc dms).
    unfold half_life_text. now rewrite Hst, Hs.
Qed.

Lemma malformed_half_life_raises_witness :
  out_exit (draw_nuclide (sample beta_only (mkHalfLife "1eE5" "y" "=" "False") [])
              origin all_on false)
  = Raised ValueError.
Proof.
  apply (malformed_half_life_raises
           (sample beta_only (mkHalfLife "1eE5" "y" "=" "False") [])
           origin all_on false beta_only (COLORS "b-")).
  - reflexivity.
  - reflexivity.
  - reflexivity.
  - reflexivity.
  - simpl. repeat split. discriminate.
Defined.

(** ** The reordering of the decay modes *)

Lemma set_nth_permutation {A : Type} (a x : A) :
  forall l j, nth_error l j = Some x ->
              Permutation (a :: l) (x :: set_nth j a l).
Proof.
  induction l as [| y t IH]; intros [| j] H; simpl in H; try discriminate.
  - injection H as ->. simpl. apply perm_swap.
  - simpl. eapply perm_trans; [apply perm_swap |].
    eapply perm_trans; [apply perm_skip, (IH j H) |]. apply perm_swap.
Qed.

Lemma primary_pass_permutation dms unknown dms' pc :
  primary_pass dms unknown = primary_ok dms' pc -> Permutation dms dms'.
Proof.
  destruct dms as [| dm0 rest]; [discriminate |]. unfold primary_pass.
  destruct (is_basic dm0).
  - intros [= <- _]. apply Permutation_refl.
  - destruct (_ && _).
    + intros [= <- _]. apply Permutation_refl.
    + destruct (1 <? _)%nat; [| discriminate].
      destruct (first_basic 1 rest) as [i |] eqn:Hf; [| discriminate].
      destruct (first_basic_some _ _ _ Hf) as (j & dm & -> & Hn & _).
      simpl. rewrite (swap_first_cons _ _ _ _ Hn). intros [= <- _].
      now apply set_nth_permutation.
Qed.

(** X5: whatever the input and however the call ends, the decay-mode list
    [draw_nuclide] leaves behind is a rearrangement of the one it received:
    the swap of line 456 neither drops nor duplicates an entry. *)
Theorem draw_nuclide_permutes_modes n pos args b :
  Permutation (decay_modes n) (out_decay_modes (draw_nuclide n pos args b))
  /\ List.length (out_decay_modes (draw_nuclide n pos args b))
     = List.length (decay_modes n).
Proof.
  assert (H : Permutation (decay_modes n)
                (out_decay_modes (draw_nuclide n pos args b))).
  { unfold draw_nuclide.
    destruct (primary_pass _ _) as [dms pc | |] eqn:Hp;
      try apply Permutation_refl.
    rewrite draw_classified_modes. now apply primary_pass_permutation in Hp. }
  split; [exact H | symmetry; now apply Permutation_length].
Qed.

Lemma first_basic_app start pre dm post :
  (forall e, In e pre -> is_basic e = false) ->
  is_basic dm = true ->
  first_basic start (pre ++ dm :: post) = Some (start + List.length pre)%nat.
Proof.
  revert start. induction pre as [| e t IH]; intros start Hpre Hdm; simpl.
  - rewrite Hdm. f_equal. lia.
  - rewrite (Hpre e (or_introl eq_refl)).
    rewrite IH; [f_equal; lia | intros; apply Hpre; now right | exact Hdm].
Qed.

Lemma set_nth_middle {A : Type} (pre : list A) x y post :
  set_nth (List.length pre) y (pre ++ x :: post) = (pre ++ y :: post)%list.
Proof. induction pre as [| e t IH]; simpl; [reflexivity | now rewrite IH]. Qed.

Lemma nth_error_middle {A : Type} (pre : list A) x post :
  nth_error (pre ++ x :: post) (List.length pre) = Some x.
Proof. induction pre as [| e t IH]; simpl; [reflexivity | exact IH]. Qed.

(** X6: when the first mode is not accepted, the first basic mode of the
    rest of the list and the first entry change places, every other entry
    keeps its place, and the primary colour is the colour of that basic
    mode. *)
Theorem primary_pass_swaps_first_basic dm0 pre dm post unknown :
  is_basic dm0 = false ->
  (dm_mode dm0 =? "?")%string && unknown = false ->
  (forall e, In e pre -> is_basic e = false) ->
  is_basic dm = true ->
  primary_pass (dm0 :: pre ++ dm :: post) unknown
  = primary_ok (dm :: pre ++ dm0 :: post) (COLORS (dm_mode dm)).
Proof.
  intros H0 Hq Hpre Hdm. unfold primary_pass. rewrite H0, Hq.
  rewrite (first_basic_app 1 pre dm post Hpre Hdm).
  assert (Hlen : (1 <? List.length (dm0 :: pre ++ dm :: post))%nat = true).
  { simpl. rewrite length_app. simpl. apply Nat.ltb_lt. lia. }
  rewrite Hlen. change (1 + List.length pre)%nat with (S (List.length pre)).
  rewrite (swap_first_cons dm0 _ _ dm (nth_error_middle pre dm post)).
  now rewrite set_nth_middle.
Qed.

Lemma primary_pass_swaps_first_basic_witness :
  primary_pass
    (mkDecayMode "b+p" "1"
     :: [mkDecayMode "b+a" "2"] ++ mkDecayMode "b+" "97" :: [mkDecayMode "a" "3"])
    true
  = primary_ok
      (mkDecayMode "b+" "97"
       :: [mkDecayMode "b+a" "2"] ++ mkDecayMode "b+p" "1" :: [mkDecayMode "a" "3"])
      (COLORS "b+").
Proof.
  apply (primary_pass_swaps_first_basic (mkDecayMode "b+p" "1")
           [mkDecayMode "b+a" "2"] (mkDecayMode "b+" "97") [mkDecayMode "a" "3"] true).
  - reflexivity.
  - reflexivity.
  - intros e [<- | []]. reflexivity.
  - reflexivity.
Defined.

(** ** What is drawn, and in which order *)

(** X7: either nothing at all is drawn (the list is empty, no mode is
    accepted, or the half-life value contains ["unstable"]), or the first
    call draws the base rectangle, on layer 0, at the cell position, in the
    primary colour. *)
Theorem base_rectangle_comes_first n pos args b :
  match primary_pass (decay_modes n) (arg_unknown args) with
  | primary_ok dms pc =>
      if 0 <=? Py.str_find (hl_value (half_life n)) "unstable"
      then out_calls (draw_nuclide n pos args b) = []
      else exists rest,
             out_calls (draw_nuclide n pos args b)
             = draw_rectangle 0 pos pc (nuc_str n ++ "0") :: rest
  | _ => out_calls (draw_nuclide n pos args b) = []
  end.
Proof.
  unfold draw_nuclide.
  destruct (primary_pass _ _) as [dms pc | |]; try reflexivity.
  unfold draw_classified. destruct (0 <=? _); [reflexivity |].
  destruct (marker_calls _ _ _ _ _ _) as [tri [e |]]; [eexists; reflexivity |].
  destruct (arg_isomers args && b).
  - destruct (arg_names args); [| eexists; reflexivity].
    destruct (isomer_loop _ _ _ _ _ _). eexists; reflexivity.
  - destruct (arg_halflives args && _); [| eexists; reflexivity].
    destruct (half_life_text _ _ _); eexists; reflexivity.
Qed.

Section EveryCall.

Variable P : DrawCall -> Prop.
Variable pos : Pos.

Hypothesis P_rectangle : forall c name, P (draw_rectangle 0 pos c name).
Hypothesis P_inset : forall c name, P (draw_isomer_rectangle 0 pos c name).
Hypothesis P_large : forall c pc name, P (draw_triangle 1 pos c name (corner_large c pc)).
Hypothesis P_small :
  forall c pc name,
    P (draw_small_triangle 1 pos c name (corner_small c pc))
    /\ P (draw_small_isomer_triangle 1 pos c name (corner_small c pc)).
Hypothesis P_tertiary :
  forall c pc sc name corner,
    corner_tertiary c pc sc = Ok corner ->
    P (draw_small_triangle 1 pos c name corner)
    /\ P (draw_small_isomer_triangle 1 pos c name corner).
Hypothesis P_line : forall p q name, P (draw_isomer_line 1 p q name).
Hypothesis P_text : forall p fc size t, P (draw_text 3 p fc size t).

Lemma marker_calls_forall tri n pc sec ter :
  tri = draw_small_triangle \/ tri = draw_small_isomer_triangle ->
  Forall P (fst (marker_calls tri n pos pc sec ter)).
Proof.
  intros Htri. unfold marker_calls, secondary_calls, tertiary_calls.
  destruct (m_size sec) as [[|] |], (m_color sec) as [c |],
    (m_size ter) as [[|] |], (m_color ter) as [c' |]; cbn [fst app];
    try (destruct (corner_tertiary _ _ _) as [corner | e] eqn:Hc); cbn [fst app];
    repeat constructor;
    try apply P_large;
    try (destruct Htri as [-> | ->]; apply P_small);
    try (destruct Htri as [-> | ->]; eapply P_tertiary; exact Hc).
Qed.

Lemma isomer_body_forall n dms fc iso c :
  Forall P (snd (fst (isomer_body n dms pos fc iso c))).
Proof.
  unfold isomer_body.
  pose proof (marker_calls_forall draw_small_isomer_triangle n
                (isomer_primary (iso_decay_modes iso) c)
                (isomer_secondary_pass (isomer_primary (iso_decay_modes iso) c)
                   (iso_decay_modes iso))
                (tertiary_pass (isomer_primary (iso_decay_modes iso) c)
                   (iso_decay_modes iso)
                   (isomer_secondary_pass (isomer_primary (iso_decay_modes iso) c)
                      (iso_decay_modes iso)))
                (or_intror eq_refl)) as Hm.
  destruct (marker_calls _ _ _ _ _ _) as [shapes [e |]]; cbn [fst snd] in *;
    [exact Hm |].
  assert (Hi : Forall P (shapes
                         ++ isomer_inset n pos
                              (isomer_primary (iso_decay_modes iso) c))).
  { apply Forall_app. split; [exact Hm |]. unfold isomer_inset.
    repeat constructor; [apply P_inset | apply P_line]. }
  destruct (isomer_captions n dms) as [[s [u |]] | e]; cbn [fst snd];
    try exact Hi;
    apply Forall_app; (split; [exact Hi |]);
    repeat constructor; apply P_text.
Qed.

Lemma isomer_loop_forall n dms fc l :
  forall c, Forall P (fst (isomer_loop n dms pos fc l c)).
Proof.
  induction l as [| iso t IH]; intros c; simpl; [constructor |].
  destruct (genuine iso); [| apply IH].
  pose proof (isomer_body_forall n dms fc iso c) as Hb.
  destruct (isomer_body n dms pos fc iso c) as [[c' calls] [e |]];
    cbn [fst snd] in *; [exact Hb |].
  specialize (IH c'). destruct (isomer_loop n dms pos fc t c') as [calls' e'].
  cbn [fst] in *. apply Forall_app. now split.
Qed.

Lemma draw_nuclide_forall n args b :
  Forall P (out_calls (draw_nuclide n pos args b)).
Proof.
  unfold draw_nuclide.
  destruct (primary_pass _ _) as [dms pc | |]; try constructor.
  unfold draw_classified. destruct (0 <=? _); [constructor |].
  pose proof (marker_calls_forall draw_small_triangle n pc
                (secondary_pass pc dms)
                (tertiary_pass pc dms (secondary_pass pc dms))
                (or_introl eq_refl)) as Hm.
  destruct (marker_calls _ _ _ _ _ _) as [tri [e |]]; cbn [fst] in Hm;
    cbn [out_calls]; [constructor; [apply P_rectangle | exact Hm] |].
  assert (Hs : Forall P (draw_rectangle 0 pos pc (nuc_str n ++ "0") :: tri))
    by (constructor; [apply P_rectangle | exact Hm]).
  destruct (arg_isomers args && b).
  - destruct (arg_names args); [| exact Hs].
    pose proof (isomer_loop_forall n dms (font_color_of pc) (isomers n) pc) as Hl.
    destruct (isomer_loop _ _ _ _ _ _) as [calls e]. cbn [out_calls fst] in *.
    apply Forall_app. split; [exact Hs |]. constructor; [apply P_text | exact Hl].
  - assert (Hn : Forall P
                   ((draw_rectangle 0 pos pc (nuc_str n ++ "0") :: tri)
                    ++ (if arg_names args
                        then [draw_text 3
                                (fst pos + qz SIZE_SHAPE / 2,
                                 snd pos + qz SIZE_GAP + 1.25 * qz SIZE_FONT)%Q
                                (font_color_of pc) SIZE_FONT (element_name n)]
                        else []))).
    { apply Forall_app. split; [exact Hs |].
      destruct (arg_names args); repeat constructor. apply P_text. }
    destruct (arg_halflives args && _); [| exact Hn].
    destruct (half_life_text n dms pc); cbn [out_calls]; [| exact Hn].
    rewrite app_assoc. apply Forall_app. split; [exact Hn |].
    repeat constructor. apply P_text.
Qed.

End EveryCall.

Lemma corner_small_ok c pc : small_corner_ok c (corner_small c pc).
Proof.
  unfold small_corner_ok, corner_small.
  destruct (c =? COLORS "a")%string eqn:Ha.
  - apply String.eqb_eq in Ha. subst c.
    repeat split; auto; intros H; discriminate H.
  - apply String.eqb_neq in Ha.
    destruct ((c =? COLORS "b+")%string && _ && _) eqn:Hb.
    + apply andb_prop in Hb. destruct Hb as [Hb _].
      apply andb_prop in Hb. destruct Hb as [Hb _].
      apply String.eqb_eq in Hb. subst c.
      repeat split; auto; try contradiction; intros H; discriminate H.
    + destruct (c =? COLORS "cluster")%string eqn:Hc.
      * apply String.eqb_eq in Hc. repeat split; auto; contradiction.
      * apply String.eqb_neq in Hc.
        repeat split; auto; try contradiction; intros H; discriminate H.
Qed.

Lemma corner_tertiary_ok c pc sc corner :
  corner_tertiary c pc sc = Ok corner -> small_corner_ok c corner.
Proof.
  unfold small_corner_ok, corner_tertiary.
  destruct (c =? COLORS "a")%string eqn:Ha.
  - apply String.eqb_eq in Ha. subst c. intros [= <-].
    repeat split; auto; intros H; discriminate H.
  - apply String.eqb_neq in Ha.
    destruct ((c =? COLORS "b+")%string && _) eqn:Hb.
    + apply andb_prop in Hb. destruct Hb as [Hb _].
      apply String.eqb_eq in Hb. subst c.
      destruct sc as [sc |]; [| discriminate].
      change ((COLORS "b+" =? COLORS "cluster")%string) with false.
      destruct (negb _); intros [= <-];
        repeat split; auto; try contradiction; intros H; discriminate H.
    + destruct (c =? COLORS "cluster")%string eqn:Hc; intros [= <-].
      * apply String.eqb_eq in Hc. repeat split; auto; contradiction.
      * apply String.eqb_neq in Hc.
        repeat split; auto; try contradiction; intros H; discriminate H.
Qed.

Lemma corner_large_ok c pc :
  (corner_large c pc = "lt" \/ corner_large c pc = "rb")
  /\ (c = COLORS "a" -> corner_large c pc = "lt").
Proof.
  unfold corner_large. destruct (c =? COLORS "a")%string eqn:Ha.
  - auto.
  - apply String.eqb_neq in Ha. destruct (_ && _ && _); split; auto; contradiction.
Qed.

(** X8: every call goes to the layer reserved for its kind: rectangles
    (base and inset) to layer 0, triangles and the isomer divider to
    layer 1, every text to layer 3; layers 2 and 4 are never used by
    [draw_nuclide]. *)
Theorem every_call_is_on_its_layer n pos args b :
  Forall on_its_layer (out_calls (draw_nuclide n pos args b)).
Proof. apply draw_nuclide_forall; intros; simpl; auto. Qed.

(** X9: the corner of every triangle follows from its colour: a large
    triangle is never put top-right, a small triangle (ground state or
    isomer, secondary or tertiary) is top-right exactly when it has the
    cluster colour, and a triangle in the alpha colour is always top-left. *)
Theorem every_corner_fits_its_colour n pos args b :
  Forall corner_ok (out_calls (draw_nuclide n pos args b)).
Proof.
  apply draw_nuclide_forall; intros; simpl; auto.
  - apply corner_large_ok.
  - split; apply corner_small_ok.
  - split; eapply corner_tertiary_ok; eassumption.
Qed.

(** ** The scans for the secondary and the tertiary mode *)

Lemma secondary_stable_never_large pc dms :
  is_stable_color pc = true -> m_size (secondary_pass pc dms) <> Some large.
Proof.
  intros Hs. unfold secondary_pass. destruct (1 <? _)%nat; [| discriminate].
  apply (for_each_invariant (fun st => m_size st <> Some large));
    [| discriminate].
  intros dm st Hst. unfold secondary_body. rewrite Hs. cbn [negb].
  destruct (is_basic dm).
  - destruct (Py.float _) as [v |]; [| exact Hst].
    rewrite andb_false_r.
    destruct (Py.float_gt v Py.lit_0_0); [discriminate | exact Hst].
  - destruct (Re.cluster_re _); [discriminate | exact Hst].
Qed.

Lemma ground_shapes_stable_no_large n dms pos pc :
  is_stable_color pc = true ->
  forallb (fun c => negb (is_large_triangle c)) (ground_shapes n dms pc pos) = true.
Proof.
  intros Hs. unfold ground_shapes, marker_calls, secondary_calls.
  pose proof (secondary_stable_never_large pc dms Hs) as Hl.
  destruct (m_size (secondary_pass pc dms)) as [[|] |]; [contradiction | |].
  - destruct (m_color _); [| reflexivity].
    unfold tertiary_calls.
    destruct (m_size (tertiary_pass _ _ _)) as [[|] |]; try reflexivity.
    destruct (m_color (tertiary_pass _ _ _)); [| reflexivity].
    destruct (corner_tertiary _ _ _); reflexivity.
  - unfold tertiary_calls.
    destruct (m_size (tertiary_pass _ _ _)) as [[|] |]; try reflexivity.
    destruct (m_color (tertiary_pass _ _ _)); [| reflexivity].
    destruct (corner_tertiary _ _ _); reflexivity.
Qed.

(** X10: off the isomer path, a nuclide drawn in the colour of stable
    nuclides never gets a large triangle, whatever the branching of its
    other modes: line 485 keeps quasi-stable nuclides to small triangles. *)
Theorem stable_primary_never_gets_large_triangle n pos args b dms pc :
  primary_pass (decay_modes n) (arg_unknown args) = primary_ok dms pc ->
  is_stable_color pc = true ->
  arg_isomers args && b = false ->
  forallb (fun c => negb (is_large_triangle c))
    (out_calls (draw_nuclide n pos args b)) = true.
Proof.
  intros Hp Hs Hi. unfold draw_nuclide. rewrite Hp. unfold draw_classified.
  destruct (0 <=? _); [reflexivity |]. rewrite Hi.
  pose proof (ground_shapes_stable_no_large n dms pos pc Hs) as Hg.
  unfold ground_shapes in Hg.
  destruct (marker_calls _ _ _ _ _ _) as [tri [e |]]; cbn [fst] in Hg;
    [exact Hg |].
  destruct (arg_halflives args && _).
  - destruct (half_life_text n dms pc); cbn [out_calls];
      rewrite ?app_assoc, !forallb_app, Hg; destruct (arg_names args); reflexivity.
  - cbn [out_calls]. rewrite forallb_app, Hg. destruct (arg_names args); reflexivity.
Qed.

Lemma stable_primary_never_gets_large_triangle_witness :
  forallb (fun c => negb (is_large_triangle c))
    (out_calls
       (draw_nuclide
          (sample [mkDecayMode "is" "90"; mkDecayMode "a" "60"] hl_years [])
          origin all_on false))
  = true.
Proof.
  apply (stable_primary_never_gets_large_triangle
           (sample [mkDecayMode "is" "90"; mkDecayMode "a" "60"] hl_years [])
           origin all_on false
           [mkDecayMode "is" "90"; mkDecayMode "a" "60"] (COLORS "is"));
    reflexivity.
Defined.

Lemma secondary_body_inert pc dm st :
  inert dm = true -> secondary_body pc dm st = Next st.
Proof.
  unfold inert, secondary_body. destruct (is_basic dm).
  - destruct (Py.float _); [discriminate | reflexivity].
  - destruct (Re.cluster_re _); [discriminate | reflexivity].
Qed.

Lemma for_each_secondary_inert pc l :
  forall st,
    for_each (secondary_body pc) (filter (fun dm => negb (inert dm)) l) st
    = for_each (secondary_body pc) l st.
Proof.
  induction l as [| dm t IH]; intros st; simpl; [reflexivity |].
  destruct (inert dm) eqn:Hi; simpl.
  - rewrite (secondary_body_inert pc dm st Hi). apply IH.
  - destruct (secondary_body pc dm st); [apply IH | reflexivity].
Qed.

(** X11: the entries the secondary scan passes over (a basic mode whose
    value does not parse, a mode that is neither basic nor shaped like a
    cluster) have no influence on the secondary marker: removing them from
    the list after its first entry gives the same marker. *)
Theorem secondary_pass_ignores_inert_entries pc dm0 rest :
  secondary_pass pc (dm0 :: filter (fun dm => negb (inert dm)) rest)
  = secondary_pass pc (dm0 :: rest).
Proof.
  unfold secondary_pass. cbn [skipn].
  pose proof (for_each_secondary_inert pc rest no_marker) as H.
  destruct rest as [| e t]; [reflexivity |].
  destruct (filter (fun dm => negb (inert dm)) (e :: t)) as [| e' t'] eqn:Hf.
  - simpl in H. simpl. exact H.
  - simpl. simpl in H. exact H.
Qed.

Lemma for_each_app_next {A S : Type} (body : A -> S -> Step S) pre l :
  (forall a, In a pre -> forall s, exists s', body a s = Next s') ->
  forall s, for_each body (pre ++ l) s = for_each body l (for_each body pre s).
Proof.
  induction pre as [| a t IH]; intros H s; simpl; [reflexivity |].
  destruct (H a (or_introl eq_refl) s) as [s' ->].
  apply IH. intros; apply H; now right.
Qed.

Lemma secondary_body_no_break pc dm :
  is_basic dm = true \/ Re.cluster_re (dm_mode dm) = false ->
  forall st, exists st', secondary_body pc dm st = Next st'.
Proof.
  intros H st. unfold secondary_body. destruct (is_basic dm).
  - destruct (Py.float _) as [v |]; [| eauto].
    destruct (_ && _); [eauto |]. destruct (Py.float_gt v Py.lit_0_0); eauto.
  - destruct H as [H | ->]; [discriminate | eauto].
Qed.

Lemma float_gt_5_gt_0 v :
  Py.float_gt v Py.lit_5_0 = true -> Py.float_gt v Py.lit_0_0 = true.
Proof.
  unfold Py.float_gt, SFltb, Py.lit_5_0, Py.lit_0_0.
  destruct v as [sg | sg | | sg m e]; try destruct sg; cbn;
    try discriminate; auto.
Qed.

Lemma secondary_scan_after_last_positive pc post :
  forallb (fun e => inert e || zero_valued e) post = true ->
  forall sz c,
    for_each (secondary_body pc) post (mkMarker (Some sz) (Some c))
    = mkMarker (Some sz) (Some (last_colour c post)).
Proof.
  induction post as [| e t IH]; intros Hall sz c; [reflexivity |].
  cbn [forallb] in Hall. apply andb_prop in Hall. destruct Hall as [He Ht].
  cbn [for_each last_colour fold_left].
  destruct (inert e) eqn:Hi.
  - rewrite (secondary_body_inert pc e _ Hi). now apply IH.
  - cbn [orb] in He. unfold zero_valued in He. apply andb_prop in He.
    destruct He as [Hb Hz]. unfold secondary_body. rewrite Hb.
    destruct (Py.float (Py.str_strip (dm_value e) "#")) as [v |];
      [| discriminate].
    apply negb_true_iff in Hz.
    assert (H5 : Py.float_gt v Py.lit_5_0 = false).
    { destruct (Py.float_gt v Py.lit_5_0) eqn:E; [| reflexivity].
      apply float_gt_5_gt_0 in E. congruence. }
    rewrite H5, Hz. cbn [andb m_size]. now apply IH.
Qed.

(** X12: in a list without cluster entries, the size of the secondary marker
    is decided by the last basic entry whose value parses to a positive
    number (large above 5.0 unless the primary colour is the stable colour,
    small otherwise), whatever stands before it; the colour is that of the
    last basic entry whose value parses at all, so a basic entry with value
    0 further down replaces the colour and keeps the size. *)
Theorem secondary_pass_last_entry_decides pc dm0 pre dm v post :
  forallb (fun e => is_basic e || negb (Re.cluster_re (dm_mode e))) pre = true ->
  is_basic dm = true ->
  Py.float (Py.str_strip (dm_value dm) "#") = Some v ->
  Py.float_gt v Py.lit_0_0 = true ->
  forallb (fun e => inert e || zero_valued e) post = true ->
  secondary_pass pc (dm0 :: pre ++ dm :: post)
  = mkMarker
      (Some (if Py.float_gt v Py.lit_5_0 && negb (is_stable_color pc)
             then large else small))
      (Some (last_colour (COLORS (dm_mode dm)) post)).
Proof.
  intros Hpre Hb Hv Hpos Hpost. unfold secondary_pass.
  assert (Hlen : (1 <? List.length (dm0 :: pre ++ dm :: post))%nat = true).
  { simpl. rewrite length_app. simpl. apply Nat.ltb_lt. lia. }
  rewrite Hlen. cbn [skipn].
  rewrite forallb_forall in Hpre.
  rewrite for_each_app_next.
  2:{ intros a Ha. apply secondary_body_no_break.
      specialize (Hpre a Ha). apply orb_prop in Hpre.
      destruct Hpre as [H | H]; [now left | right].
      now apply negb_true_iff in H. }
  cbn [for_each]. unfold secondary_body at 1. rewrite Hb, Hv, Hpos.
  destruct (Py.float_gt v Py.lit_5_0 && negb (is_stable_color pc));
    now apply secondary_scan_after_last_positive.
Qed.

Lemma secondary_pass_last_entry_decides_witness :
  secondary_pass (COLORS "b-")
    (mkDecayMode "b-" "100"
     :: [mkDecayMode "ec" "40"; mkDecayMode "b-n" "7"]
        ++ mkDecayMode "a" "10" :: [mkDecayMode "b-p" "2"; mkDecayMode "sf" "0"])
  = mkMarker
      (Some (if Py.float_gt (Py.of_decimal false 10 0) Py.lit_5_0
                && negb (is_stable_color (COLORS "b-"))
             then large else small))
      (Some (last_colour (COLORS "a") [mkDecayMode "b-p" "2"; mkDecayMode "sf" "0"])).
Proof.
  apply (secondary_pass_last_entry_decides (COLORS "b-") (mkDecayMode "b-" "100")
           [mkDecayMode "ec" "40"; mkDecayMode "b-n" "7"] (mkDecayMode "a" "10")
           (Py.of_decimal false 10 0)
           [mkDecayMode "b-p" "2"; mkDecayMode "sf" "0"]).
  - reflexivity.
  - reflexivity.
  - reflexivity.
  - reflexivity.
  - reflexivity.
Defined.

(** X13: a tertiary marker is never large, and it exists only when the list
    has at least three entries and the secondary marker is large, or small
    on a nuclide drawn in the colour of stable nuclides. *)
Theorem tertiary_marker_needs_secondary pc dms sec :
  m_size (tertiary_pass pc dms sec) <> Some large
  /\ (m_size (tertiary_pass pc dms sec) = Some small ->
      (3 <= List.length dms)%nat
      /\ (m_size sec = Some large
          \/ (m_size sec = Some small /\ is_stable_color pc = true))).
Proof.
  unfold tertiary_pass.
  destruct ((1 <? List.length dms)%nat && tertiary_wanted pc dms sec) eqn:Hw.
  - split.
    + apply (for_each_invariant (fun st => m_size st <> Some large));
        [| discriminate].
      intros dm st Hst. unfold tertiary_body. destruct (is_basic dm).
      * destruct (Py.float _) as [v |]; [| exact Hst].
        destruct (Py.float_gt v Py.lit_0_0); [discriminate | exact Hst].
      * destruct (Re.cluster_re _); [discriminate | exact Hst].
    + intros _. apply andb_prop in Hw. destruct Hw as [_ Hw].
      unfold tertiary_wanted in Hw. apply andb_prop in Hw. destruct Hw as [Hl Hw].
      apply Nat.ltb_lt in Hl. split; [lia |].
      unfold size_is in Hw. destruct (m_size sec) as [[|] |]; simpl in Hw.
      * now left.
      * right. now split.
      * discriminate.
  - split; discriminate.
Qed.

(** ** The isomer path *)

(** X14: on the isomer path the switch [args.halflives] is not read: the
    half-life captions of lines 756-759 are written, or not, whatever its
    value, and the outcome is the same with the switch on or off. *)
Theorem isomer_path_ignores_halflives n pos args b h :
  arg_isomers args && b = true ->
  draw_nuclide n pos
    (mkArgs (arg_names args) h (arg_isomers args) (arg_unknown args)) b
  = draw_nuclide n pos args b.
Proof.
  intros Hi. unfold draw_nuclide. cbn [arg_unknown].
  destruct (primary_pass _ _) as [dms pc | |]; try reflexivity.
  unfold draw_classified. cbn [arg_isomers arg_names]. now rewrite Hi.
Qed.

Lemma isomer_path_ignores_halflives_witness :
  draw_nuclide (sample beta_only hl_years three_isomers) origin
    (mkArgs (arg_names all_on) false (arg_isomers all_on) (arg_unknown all_on)) true
  = draw_nuclide (sample beta_only hl_years three_isomers) origin all_on true.
Proof.
  apply (isomer_path_ignores_halflives (sample beta_only hl_years three_isomers)
           origin all_on true false).
  reflexivity.
Defined.

(** X15: on the isomer path with names disabled, a drawn nuclide gets its
    base rectangle and its own triangles and nothing else: no name, no inset,
    and no half-life text even when half-lives are enabled. *)
Theorem isomer_path_without_names_draws_shapes_only n pos args b dms pc :
  primary_pass (decay_modes n) (arg_unknown args) = primary_ok dms pc ->
  Py.str_find (hl_value (half_life n)) "unstable" < 0 ->
  arg_isomers args && b = true ->
  arg_names args = false ->
  draw_nuclide n pos args b = mkOutcome dms (ground_shapes n dms pc pos) Returned
  /\ texts (out_calls (draw_nuclide n pos args b)) = []
  /\ count_insets (out_calls (draw_nuclide n pos args b)) = 0%nat.
Proof.
  intros Hp Hu Hi Hn.
  assert (H : draw_nuclide n pos args b
              = mkOutcome dms (ground_shapes n dms pc pos) Returned).
  { unfold draw_nuclide. rewrite Hp. unfold draw_classified, ground_shapes.
    apply Z.leb_gt in Hu. rewrite Hu, Hi, Hn.
    markers_returned (ground_markers_return n pos pc dms). reflexivity. }
  rewrite H. cbn [out_calls]. split; [reflexivity |].
  apply ground_shapes_silent.
Qed.

Lemma isomer_path_without_names_draws_shapes_only_witness :
  draw_nuclide (sample three_modes hl_years three_isomers) origin names_off true
  = mkOutcome three_modes
      (ground_shapes (sample three_modes hl_years three_isomers) three_modes
         (COLORS "b-") origin)
      Returned
  /\ texts (out_calls
              (draw_nuclide (sample three_modes hl_years three_isomers) origin
                 names_off true))
     = []
  /\ count_insets
       (out_calls
          (draw_nuclide (sample three_modes hl_years three_isomers) origin
             names_off true))
     = 0%nat.
Proof.
  apply (isomer_path_without_names_draws_shapes_only
           (sample three_modes hl_years three_isomers) origin names_off true
           three_modes (COLORS "b-"));
    reflexivity.
Defined.

(** X16: the flag the main loop hands to [draw_nuclide] is set exactly when
    some isomer of the nuclide has relation ["="] and a unit of the duration
    set; the loop of line 1039 has no other way to set it and none to clear
    it. *)
Theorem main_is_isomer_iff n :
  main_is_isomer n = true
  <-> exists iso,
        In iso (isomers n)
        /\ hl_relation (iso_half_life iso) = "="
        /\ In (hl_unit (iso_half_life iso)) genuine_units.
Proof.
  rewrite main_is_isomer_spec, existsb_exists. unfold genuine, Py.str_in.
  split; intros (iso & Hin & H); exists iso; (split; [exact Hin |]).
  - apply andb_prop in H. destruct H as [Hr Hu].
    apply String.eqb_eq in Hr. apply existsb_exists in Hu.
    destruct Hu as (u & Hu & He). apply String.eqb_eq in He. now subst u.
  - destruct H as [Hr Hu]. apply andb_true_intro. split.
    + now apply String.eqb_eq.
    + apply existsb_exists. exists (hl_unit (iso_half_life iso)).
      split; [exact Hu | apply String.eqb_refl].
Qed.


Lemma inset_colours_app a b :
  inset_colours (a ++ b) = (inset_colours a ++ inset_colours b)%list.
Proof.
  induction a as [| x a IH]; simpl; [reflexivity |].
  destruct x; simpl; now rewrite IH.
Qed.

Lemma marker_calls_no_inset tri n pos pc sec ter :
  tri = draw_small_triangle \/ tri = draw_small_isomer_triangle ->
  inset_colours (fst (marker_calls tri n pos pc sec ter)) = [].
Proof.
  intros Htri. unfold marker_calls, secondary_calls, tertiary_calls.
  destruct (m_size sec) as [[|] |], (m_color sec) as [c |],
    (m_size ter) as [[|] |], (m_color ter) as [c' |]; simpl;
    try (destruct (corner_tertiary _ _ _)); simpl;
    destruct Htri as [-> | ->]; reflexivity.
Qed.

Lemma ground_shapes_no_inset n dms pc pos :
  inset_colours (ground_shapes n dms pc pos) = [].
Proof.
  unfold ground_shapes. cbn [inset_colours]. apply marker_calls_no_inset. now left.
Qed.

Lemma isomer_turn_colours n pos fc s u iso ipc :
  inset_colours (isomer_triangles n pos ipc (iso_decay_modes iso)
                 ++ isomer_inset n pos ipc ++ four_captions pos fc s u iso)
  = [ipc].
Proof.
  rewrite inset_colours_app. unfold isomer_triangles.
  rewrite marker_calls_no_inset by now right. reflexivity.
Qed.

(** X17: [isomer_primary_color] is set once, before the loop of line 588,
    and handed from one turn to the next.  With two genuine isomers of which
    the second has a first mode that leaves the colour as it was (no mode, a
    mode outside the basic modes and ["it"], or an unparsable value), the
    second inset is drawn in the colour of the first isomer, not in the
    primary colour of the nuclide. *)
Theorem second_isomer_inherits_colour n pos args dms pc s u iso1 iso2 :
  primary_pass (decay_modes n) (arg_unknown args) = primary_ok dms pc ->
  Py.str_find (hl_value (half_life n)) "unstable" < 0 ->
  arg_isomers args = true ->
  arg_names args = true ->
  isomer_captions n dms = Ok (s, Some u) ->
  isomers n = [iso1; iso2] ->
  genuine iso1 = true ->
  genuine iso2 = true ->
  keeps_colour iso2 ->
  inset_colours (out_calls (main_draw n pos args))
  = [ isomer_primary (iso_decay_modes iso1) pc;
      isomer_primary (iso_decay_modes iso1) pc ].
Proof.
  intros Hp Hu Hi Hn Hc Hl Hg1 Hg2 Hk.
  assert (Hpath : arg_isomers args && main_is_isomer n = true).
  { rewrite main_is_isomer_spec, Hi, Hl. simpl. now rewrite Hg1. }
  rewrite (main_draw_call n pos args (primary_ok_has_modes _ _ _ _ Hp)).
  unfold draw_nuclide. rewrite Hp.
  rewrite (draw_classified_isomer_path _ _ _ _ _ _ Hu Hpath Hn).
  destruct (isomer_loop_captioned n dms pos (font_color_of pc) s u Hc
              (isomers n) pc) as (-> & _).
  cbn [out_exit out_calls exit_of]. rewrite Hl. simpl isomer_loop.
  rewrite Hg1, Hg2, !(isomer_body_captioned _ _ _ _ _ _ _ _ Hc).
  rewrite (isomer_primary_kept iso2 _ Hk). cbn [fst snd].
  rewrite inset_colours_app, ground_shapes_no_inset. cbn [app inset_colours].
  rewrite inset_colours_app, isomer_turn_colours.
  rewrite inset_colours_app, isomer_turn_colours. reflexivity.
Qed.

Lemma second_isomer_inherits_colour_witness :
  inset_colours
    (out_calls
       (main_draw
          (sample beta_only hl_years
             [iso_it; mkIsomer (mkHalfLife "3" "m" "=" "False") [mkDecayMode "b-n" "100"]])
          origin all_on))
  = [ isomer_primary (iso_decay_modes iso_it) (COLORS "b-");
      isomer_primary (iso_decay_modes iso_it) (COLORS "b-") ].
Proof.
  apply (second_isomer_inherits_colour
           (sample beta_only hl_years
              [iso_it;
               mkIsomer (mkHalfLife "3" "m" "=" "False") [mkDecayMode "b-n" "100"]])
           origin all_on beta_only (COLORS "b-") "12.3" "y" iso_it
           (mkIsomer (mkHalfLife "3" "m" "=" "False") [mkDecayMode "b-n" "100"])).
  - reflexivity.
  - reflexivity.
  - reflexivity.
  - reflexivity.
  - reflexivity.
  - reflexivity.
  - reflexivity.
  - reflexivity.
  - left. reflexivity.
Defined.

(** * The loader *)

Lemma in_range_not_above r v : in_range r v = true -> (snd r <? v) = false.
Proof.
  unfold in_range. intros H. apply andb_prop in H. destruct H as [_ H].
  apply Z.leb_le in H. apply Z.ltb_ge. exact H.
Qed.

(** The limits after the kept elements [nodes], starting from [limits]. *)
Lemma load_loop_spec n_range z_range nodes :
  forall data n_limits z_limits,
    load_loop n_range z_range nodes data n_limits z_limits
    = if existsb (node_fails n_range z_range) nodes
      then load_loop n_range z_range nodes data n_limits z_limits
      else load_data
             (data ++ flat_map node_built (filter (node_kept n_range z_range) nodes))
             (fold_left widen
                (flat_map (fun nd => match node_NZ nd with
                                     | Some (N, _) => [N]
                                     | None => []
                                     end)
                   (filter (node_kept n_range z_range) nodes))
                n_limits)
             (fold_left widen
                (flat_map (fun nd => match node_NZ nd with
                                     | Some (_, Z_) => [Z_]
                                     | None => []
                                     end)
                   (filter (node_kept n_range z_range) nodes))
                z_limits).
Proof.
  induction nodes as [| nd rest IH]; intros data nl zl.
  - simpl. now rewrite app_nil_r.
  - cbn [existsb]. destruct (node_fails n_range z_range nd) eqn:Hf; [reflexivity |].
    cbn [orb]. destruct (existsb (node_fails n_range z_range) rest) eqn:Hr;
      [reflexivity |].
    destruct (int_A nd) as [A |] eqn:HA;
      [| unfold node_fails in Hf; rewrite HA in Hf; discriminate].
    destruct (int_Z nd) as [Z_ |] eqn:HZ;
      [| unfold node_fails in Hf; rewrite HA, HZ in Hf; discriminate].
    assert (HNZ : node_NZ nd = Some (A - Z_, Z_))
      by (unfold node_NZ; now rewrite HA, HZ).
    assert (Hk : node_kept n_range z_range nd
                 = in_range n_range (A - Z_) && in_range z_range Z_)
      by (unfold node_kept; now rewrite HNZ).
    unfold node_fails in Hf. rewrite HA, HZ in Hf.
    cbn [load_loop filter]. rewrite HA, HZ, Hk.
    destruct (in_range n_range (A - Z_) && in_range z_range Z_) eqn:Hin;
      cbn [negb].
    + apply andb_prop in Hin. destruct Hin as [Hn Hz].
      rewrite (in_range_not_above _ _ Hn). cbn [andb].
      destruct (NuclideXml nd Z_ A) as [iso |] eqn:Hb; [| discriminate].
      assert (Hbuilt : node_built nd = [iso])
        by (unfold node_built; now rewrite HA, HZ, Hb).
      rewrite IH. cbn [flat_map]. rewrite HNZ, Hbuilt. cbn [fold_left app].
      now rewrite <- app_assoc.
    + rewrite IH. reflexivity.
Qed.

Lemma load_loop_fails n_range z_range nodes :
  existsb (node_fails n_range z_range) nodes = true ->
  forall data n_limits z_limits,
    exists nl zl,
      load_loop n_range z_range nodes data n_limits z_limits = load_False nl zl.
Proof.
  induction nodes as [| nd rest IH]; intros Hex data nl zl; [discriminate |].
  cbn [existsb] in Hex. cbn [load_loop]. unfold node_fails in Hex.
  destruct (int_A nd) as [A |]; [| eauto].
  destruct (int_Z nd) as [Z_ |]; [| eauto].
  destruct (in_range n_range (A - Z_) && in_range z_range Z_) eqn:Hin;
    cbn [negb].
  - pose proof Hin as Hin'. apply andb_prop in Hin'. destruct Hin' as [Hn _].
    rewrite (in_range_not_above _ _ Hn). cbn [andb].
    destruct (NuclideXml nd Z_ A) as [iso |]; [| eauto].
    cbn [andb orb] in Hex. now apply IH.
  - cbn [andb orb] in Hex. now apply IH.
Qed.

(** X18: [load_xml_nuclear_table] returns [False] exactly when some element
    has an [A] or [Z] attribute that [int] rejects, or lies inside the
    requested ranges and is rejected by the constructor.  An element outside
    the ranges is never handed to the constructor, so its content cannot
    make the load fail. *)
Theorem load_fails_iff_some_element_fails nodes n_range z_range :
  (exists nl zl, load_xml_nuclear_table nodes n_range z_range = load_False nl zl)
  <-> existsb (node_fails n_range z_range) nodes = true.
Proof.
  unfold load_xml_nuclear_table. split.
  - intros (nl & zl & H). rewrite load_loop_spec in H.
    destruct (existsb _ nodes); [reflexivity | discriminate].
  - intros H. now apply load_loop_fails.
Qed.

(** X19: when the load succeeds, the data are the nuclides built from the
    elements whose [N = A - Z] and [Z] lie inside the requested ranges (bounds
    included), in the order of the document, and nothing else; the [break]
    of line 139 is never taken. *)
Theorem load_keeps_elements_in_range nodes n_range z_range data nl zl :
  load_xml_nuclear_table nodes n_range z_range = load_data data nl zl ->
  data = flat_map node_built (filter (node_kept n_range z_range) nodes)
  /\ List.length data = List.length (filter (node_kept n_range z_range) nodes).
Proof.
  unfold load_xml_nuclear_table. intros H.
  assert (Hf : existsb (node_fails n_range z_range) nodes = false).
  { destruct (existsb _ nodes) eqn:Hex; [| reflexivity].
    destruct (load_loop_fails _ _ _ Hex [] (snd n_range, fst n_range)
                (snd z_range, fst z_range)) as (a & b & Hl).
    rewrite Hl in H. discriminate. }
  rewrite load_loop_spec, Hf in H. injection H as <- _ _. split; [reflexivity |].
  cbn [app]. clear nl zl.
  induction nodes as [| nd rest IH]; [reflexivity |].
  cbn [existsb] in Hf. apply orb_false_elim in Hf. destruct Hf as [Hnd Hrest].
  cbn [filter]. destruct (node_kept n_range z_range nd) eqn:Hk; [| now apply IH].
  cbn [flat_map]. rewrite length_app, (IH Hrest). cbn [List.length].
  unfold node_fails in Hnd. unfold node_kept, node_NZ in Hk. unfold node_built.
  destruct (int_A nd) as [A |]; [| discriminate].
  destruct (int_Z nd) as [Z_ |]; [| discriminate].
  rewrite Hk in Hnd. destruct (NuclideXml nd Z_ A); [reflexivity | discriminate].
Qed.

Lemma load_keeps_elements_in_range_witness :
  [sample beta_only hl_years []; sample [mkDecayMode "is" "100"] hl_years []]
  = flat_map node_built (filter (node_kept (0, 10) (0, 10)) sample_nodes)
  /\ List.length
       [sample beta_only hl_years []; sample [mkDecayMode "is" "100"] hl_years []]
     = List.length (filter (node_kept (0, 10) (0, 10)) sample_nodes).
Proof.
  apply (load_keeps_elements_in_range sample_nodes (0, 10) (0, 10) _ (2, 2) (1, 2)).
  reflexivity.
Defined.

Lemma widen_fold vs :
  forall l h,
    fst (fold_left widen vs (l, h)) <= l
    /\ h <= snd (fold_left widen vs (l, h))
    /\ (forall v, In v vs ->
          fst (fold_left widen vs (l, h)) <= v <= snd (fold_left widen vs (l, h)))
    /\ (fst (fold_left widen vs (l, h)) = l \/ In (fst (fold_left widen vs (l, h))) vs)
    /\ (snd (fold_left widen vs (l, h)) = h \/ In (snd (fold_left widen vs (l, h))) vs).
Proof.
  induction vs as [| v vs IH]; intros l h; cbn [fold_left].
  - cbn [fst snd In].
    split; [lia | split; [lia | split; [intros w [] | split; left; reflexivity]]].
  - assert (Hw : widen (l, h) v
                 = (if v <? l then v else l, if h <? v then v else h))
      by reflexivity.
    rewrite Hw. clear Hw.
    destruct (Z.ltb_spec v l), (Z.ltb_spec h v);
      match goal with
      | |- context [fold_left widen vs (?a, ?b)] =>
          destruct (IH a b) as (H1 & H2 & H3 & H4 & H5)
      end;
      cbn [In];
      (split; [lia | split; [lia | split; [| split]]];
       [ intros w [<- | Hw]; [lia | now apply H3]
       | destruct H4 as [H4 | H4]; auto
       | destruct H5 as [H5 | H5]; auto ]).
Qed.

Lemma limits_of_values vs lo hi :
  (forall v, In v vs -> lo <= v <= hi) ->
  (vs = [] -> fold_left widen vs (hi, lo) = (hi, lo))
  /\ (forall v, In v vs ->
        lo <= fst (fold_left widen vs (hi, lo)) <= v
        /\ v <= snd (fold_left widen vs (hi, lo)) <= hi)
  /\ (vs <> [] ->
        In (fst (fold_left widen vs (hi, lo))) vs
        /\ In (snd (fold_left widen vs (hi, lo))) vs).
Proof.
  intros Hin. destruct (widen_fold vs hi lo) as (H1 & H2 & H3 & H4 & H5).
  assert (Hne : vs <> [] ->
                In (fst (fold_left widen vs (hi, lo))) vs
                /\ In (snd (fold_left widen vs (hi, lo))) vs).
  { intros Hvs. destruct vs as [| v0 vs']; [congruence |].
    pose proof (H3 v0 (or_introl eq_refl)) as Hv0.
    pose proof (Hin v0 (or_introl eq_refl)) as Hr0.
    split.
    - destruct H4 as [H4 | H4]; [| exact H4].
      assert (v0 = fst (fold_left widen (v0 :: vs') (hi, lo))) by lia.
      rewrite <- H. now left.
    - destruct H5 as [H5 | H5]; [| exact H5].
      assert (v0 = snd (fold_left widen (v0 :: vs') (hi, lo))) by lia.
      rewrite <- H. now left. }
  split; [now intros -> | split; [| exact Hne]].
  intros v Hv. pose proof (H3 v Hv) as Hb.
  assert (Hvs : vs <> []) by (intros ->; destruct Hv).
  destruct (Hne Hvs) as [Hl Hh].
  pose proof (Hin _ Hl). pose proof (Hin _ Hh). lia.
Qed.

Lemma in_range_bounds r v : in_range r v = true -> fst r <= v <= snd r.
Proof.
  unfold in_range. intros H. apply andb_prop in H. destruct H as [H1 H2].
  apply Z.leb_le in H1. apply Z.leb_le in H2. lia.
Qed.

Lemma kept_neutrons kept v :
  In v (flat_map (fun nd => match node_NZ nd with
                            | Some (N, _) => [N]
                            | None => []
                            end) kept)
  <-> exists nd Z_, In nd kept /\ node_NZ nd = Some (v, Z_).
Proof.
  rewrite in_flat_map. split.
  - intros (nd & Hnd & Hv). destruct (node_NZ nd) as [[N Z_] |] eqn:E;
      [| destruct Hv].
    destruct Hv as [<- | []]. eauto.
  - intros (nd & Z_ & Hnd & E). exists nd. split; [exact Hnd |].
    rewrite E. now left.
Qed.

Lemma kept_protons kept v :
  In v (flat_map (fun nd => match node_NZ nd with
                            | Some (_, Z_) => [Z_]
                            | None => []
                            end) kept)
  <-> exists nd N, In nd kept /\ node_NZ nd = Some (N, v).
Proof.
  rewrite in_flat_map. split.
  - intros (nd & Hnd & Hv). destruct (node_NZ nd) as [[N Z_] |] eqn:E;
      [| destruct Hv].
    destruct Hv as [<- | []]. eauto.
  - intros (nd & N & Hnd & E). exists nd. split; [exact Hnd |].
    rewrite E. now left.
Qed.

(** X20: after a successful load the limits are tight.  Every kept element
    lies between them, they lie inside the requested ranges, and when at
    least one element is kept each of the four limits is the [N] or [Z] of
    a kept element.  When no element is kept the limits stay as they were
    initialised: the requested ranges with low and high exchanged. *)
Theorem load_limits_are_tight nodes n_range z_range data nl zl :
  load_xml_nuclear_table nodes n_range z_range = load_data data nl zl ->
  (filter (node_kept n_range z_range) nodes = [] ->
     nl = (snd n_range, fst n_range) /\ zl = (snd z_range, fst z_range))
  /\ (forall nd N Z_,
        In nd (filter (node_kept n_range z_range) nodes) ->
        node_NZ nd = Some (N, Z_) ->
        (fst n_range <= fst nl <= N /\ N <= snd nl <= snd n_range)
        /\ (fst z_range <= fst zl <= Z_ /\ Z_ <= snd zl <= snd z_range))
  /\ (filter (node_kept n_range z_range) nodes <> [] ->
        (exists nd Z_, In nd (filter (node_kept n_range z_range) nodes)
                       /\ node_NZ nd = Some (fst nl, Z_))
        /\ (exists nd Z_, In nd (filter (node_kept n_range z_range) nodes)
                          /\ node_NZ nd = Some (snd nl, Z_))
        /\ (exists nd N, In nd (filter (node_kept n_range z_range) nodes)
                         /\ node_NZ nd = Some (N, fst zl))
        /\ (exists nd N, In nd (filter (node_kept n_range z_range) nodes)
                         /\ node_NZ nd = Some (N, snd zl))).
Proof.
  unfold load_xml_nuclear_table. intros H.
  assert (Hf : existsb (node_fails n_range z_range) nodes = false).
  { destruct (existsb _ nodes) eqn:Hex; [| reflexivity].
    destruct (load_loop_fails _ _ _ Hex [] (snd n_range, fst n_range)
                (snd z_range, fst z_range)) as (a & b & Hl).
    rewrite Hl in H. discriminate. }
  rewrite load_loop_spec, Hf in H. injection H as _ <- <-.
  set (kept := filter (node_kept n_range z_range) nodes).
  assert (Hkept : forall nd N Z_, In nd kept -> node_NZ nd = Some (N, Z_) ->
                  fst n_range <= N <= snd n_range
                  /\ fst z_range <= Z_ <= snd z_range).
  { intros nd N Z_ Hnd E. apply filter_In in Hnd. destruct Hnd as [_ Hk].
    unfold node_kept in Hk. rewrite E in Hk. apply andb_prop in Hk.
    destruct Hk as [Hn Hz]. split; now apply in_range_bounds. }
  set (Ns := flat_map (fun nd => match node_NZ nd with
                                 | Some (N, _) => [N]
                                 | None => []
                                 end) kept).
  set (Zs := flat_map (fun nd => match node_NZ nd with
                                 | Some (_, Z_) => [Z_]
                                 | None => []
                                 end) kept).
  assert (HNs : forall v, In v Ns -> fst n_range <= v <= snd n_range).
  { intros v Hv. apply kept_neutrons in Hv.
    destruct Hv as (nd & Z_ & Hnd & E). now apply (Hkept nd v Z_). }
  assert (HZs : forall v, In v Zs -> fst z_range <= v <= snd z_range).
  { intros v Hv. apply kept_protons in Hv.
    destruct Hv as (nd & N & Hnd & E). now apply (Hkept nd N v). }
  destruct (limits_of_values Ns _ _ HNs) as (N1 & N2 & N3).
  destruct (limits_of_values Zs _ _ HZs) as (Z1 & Z2 & Z3).
  split; [| split].
  - intros Hk. subst Ns Zs. rewrite Hk in *. cbn [flat_map] in *.
    split; reflexivity.
  - intros nd N Z_ Hnd E.
    assert (HN : In N Ns) by (apply kept_neutrons; eauto).
    assert (HZ : In Z_ Zs) by (apply kept_protons; eauto).
    split; [apply (N2 N HN) | apply (Z2 Z_ HZ)].
  - intros Hne.
    assert (Hex : exists nd0, In nd0 kept).
    { destruct kept as [| nd0 kept']; [congruence |]. exists nd0. now left. }
    destruct Hex as [nd0 Hnd0].
    pose proof Hnd0 as Hk0. unfold kept in Hk0. apply filter_In in Hk0.
    destruct Hk0 as [_ Hk0]. unfold node_kept in Hk0.
    destruct (node_NZ nd0) as [[N0 Z0] |] eqn:E0; [| discriminate].
    assert (HN : Ns <> []).
    { intros HNs0.
      assert (In N0 Ns)
        by (apply kept_neutrons; exists nd0, Z0; split; assumption).
      rewrite HNs0 in H. destruct H. }
    assert (HZ : Zs <> []).
    { intros HZs0.
      assert (In Z0 Zs)
        by (apply kept_protons; exists nd0, N0; split; assumption).
      rewrite HZs0 in H. destruct H. }
    destruct (N3 HN) as [Nl Nh]. destruct (Z3 HZ) as [Zl Zh].
    apply kept_neutrons in Nl, Nh.
    apply kept_protons in Zl, Zh.
    repeat split; assumption.
Qed.

Lemma load_limits_are_tight_witness :
  (filter (node_kept (0, 10) (0, 10)) sample_nodes = [] ->
     (2, 2) = (10, 0) /\ (1, 2) = (10, 0))
  /\ (forall nd N Z_,
        In nd (filter (node_kept (0, 10) (0, 10)) sample_nodes) ->
        node_NZ nd = Some (N, Z_) ->
        (0 <= 2 <= N /\ N <= 2 <= 10) /\ (0 <= 1 <= Z_ /\ Z_ <= 2 <= 10))
  /\ (filter (node_kept (0, 10) (0, 10)) sample_nodes <> [] ->
        (exists nd Z_, In nd (filter (node_kept (0, 10) (0, 10)) sample_nodes)
                       /\ node_NZ nd = Some (2, Z_))
        /\ (exists nd Z_, In nd (filter (node_kept (0, 10) (0, 10)) sample_nodes)
                          /\ node_NZ nd = Some (2, Z_))
        /\ (exists nd N, In nd (filter (node_kept (0, 10) (0, 10)) sample_nodes)
                         /\ node_NZ nd = Some (N, 1))
        /\ (exists nd N, In nd (filter (node_kept (0, 10) (0, 10)) sample_nodes)
                         /\ node_NZ nd = Some (N, 2))).
Proof.
  apply (load_limits_are_tight sample_nodes (0, 10) (0, 10)
           [sample beta_only hl_years []; sample [mkDecayMode "is" "100"] hl_years []]
           (2, 2) (1, 2)).
  reflexivity.
Defined.

(** * The grid *)

Lemma cell_in_limits_bounds nl zl N Z_ :
  cell_in_limits nl zl (N, Z_) = true ->
  fst nl <= N <= snd nl /\ fst zl <= Z_ <= snd zl.
Proof.
  unfold cell_in_limits. cbn [fst snd]. intros H. apply andb_prop in H.
  destruct H as [Hn Hz]. split; now apply in_range_bounds.
Qed.

(** X21: with the picture size of lines 997-998, the square of every
    nuclide inside the limits lies inside the picture: a margin of one field
    is left free on the left and below the cells for the axis numbers, and
    a gap on the right and on top. *)
Theorem cell_lies_inside_picture nl zl N Z_ :
  cell_in_limits nl zl (N, Z_) = true ->
  SIZE_FIELD + SIZE_GAP <= fst (cell_position nl zl (picture_size nl zl) N Z_)
  /\ fst (cell_position nl zl (picture_size nl zl) N Z_) + SIZE_SHAPE + SIZE_GAP
     <= fst (picture_size nl zl)
  /\ SIZE_GAP <= snd (cell_position nl zl (picture_size nl zl) N Z_)
  /\ snd (cell_position nl zl (picture_size nl zl) N Z_)
     + SIZE_SHAPE + SIZE_GAP + SIZE_FIELD
     <= snd (picture_size nl zl).
Proof.
  intros H. apply cell_in_limits_bounds in H. destruct H as [Hn Hz].
  unfold cell_position, picture_size, SIZE_FIELD, SIZE_SHAPE, SIZE_GAP.
  cbn [fst snd]. lia.
Qed.

Lemma cell_lies_inside_picture_witness :
  SIZE_FIELD + SIZE_GAP
  <= fst (cell_position (2, 5) (1, 4) (picture_size (2, 5) (1, 4)) 5 1)
  /\ fst (cell_position (2, 5) (1, 4) (picture_size (2, 5) (1, 4)) 5 1)
     + SIZE_SHAPE + SIZE_GAP
     <= fst (picture_size (2, 5) (1, 4))
  /\ SIZE_GAP <= snd (cell_position (2, 5) (1, 4) (picture_size (2, 5) (1, 4)) 5 1)
  /\ snd (cell_position (2, 5) (1, 4) (picture_size (2, 5) (1, 4)) 5 1)
     + SIZE_SHAPE + SIZE_GAP + SIZE_FIELD
     <= snd (picture_size (2, 5) (1, 4)).
Proof.
  apply (cell_lies_inside_picture (2, 5) (1, 4) 5 1). reflexivity.
Defined.

(** X22: the squares of two different nuclides never overlap: they are at
    least a gap apart along the neutron axis or along the proton axis,
    whatever the limits and the picture size. *)
Theorem cells_do_not_overlap nl zl size N Z_ N' Z_' :
  (N =? N') && (Z_ =? Z_') = false ->
  fst (cell_position nl zl size N Z_) + SIZE_SHAPE + SIZE_GAP
  <= fst (cell_position nl zl size N' Z_')
  \/ fst (cell_position nl zl size N' Z_') + SIZE_SHAPE + SIZE_GAP
     <= fst (cell_position nl zl size N Z_)
  \/ snd (cell_position nl zl size N Z_) + SIZE_SHAPE + SIZE_GAP
     <= snd (cell_position nl zl size N' Z_')
  \/ snd (cell_position nl zl size N' Z_') + SIZE_SHAPE + SIZE_GAP
     <= snd (cell_position nl zl size N Z_).
Proof.
  intros H. unfold cell_position, SIZE_FIELD, SIZE_SHAPE, SIZE_GAP.
  cbn [fst snd]. apply andb_false_iff in H.
  destruct H as [H | H]; apply Z.eqb_neq in H; lia.
Qed.

Lemma cells_do_not_overlap_witness :
  fst (cell_position (0, 9) (0, 9) (picture_size (0, 9) (0, 9)) 2 1)
  + SIZE_SHAPE + SIZE_GAP
  <= fst (cell_position (0, 9) (0, 9) (picture_size (0, 9) (0, 9)) 2 2)
  \/ fst (cell_position (0, 9) (0, 9) (picture_size (0, 9) (0, 9)) 2 2)
     + SIZE_SHAPE + SIZE_GAP
     <= fst (cell_position (0, 9) (0, 9) (picture_size (0, 9) (0, 9)) 2 1)
  \/ snd (cell_position (0, 9) (0, 9) (picture_size (0, 9) (0, 9)) 2 1)
     + SIZE_SHAPE + SIZE_GAP
     <= snd (cell_position (0, 9) (0, 9) (picture_size (0, 9) (0, 9)) 2 2)
  \/ snd (cell_position (0, 9) (0, 9) (picture_size (0, 9) (0, 9)) 2 2)
     + SIZE_SHAPE + SIZE_GAP
     <= snd (cell_position (0, 9) (0, 9) (picture_size (0, 9) (0, 9)) 2 1).
Proof.
  apply (cells_do_not_overlap (0, 9) (0, 9) (picture_size (0, 9) (0, 9)) 2 1 2 2).
  reflexivity.
Defined.

(** ** The occupancy table *)

Lemma set_nth_length {A : Type} (x : A) :
  forall l i, List.length (set_nth i x l) = List.length l.
Proof.
  induction l as [| a l IH]; intros [| i]; cbn; auto.
Qed.

Lemma nth_error_set_nth_same {A : Type} (x : A) :
  forall l i, (i < List.length l)%nat -> nth_error (set_nth i x l) i = Some x.
Proof.
  induction l as [| a l IH]; intros [| i] H; cbn in *; try lia; auto.
  apply IH. lia.
Qed.

Lemma nth_error_set_nth_other {A : Type} (x : A) :
  forall l i k, i <> k -> nth_error (set_nth i x l) k = nth_error l k.
Proof.
  induction l as [| a l IH]; intros [| i] [| k] H; cbn; auto; try congruence.
Qed.

Lemma nth_set_nth (x : bool) :
  forall l i k,
    (i < List.length l)%nat ->
    nth k (set_nth i x l) false = if (k =? i)%nat then x else nth k l false.
Proof.
  induction l as [| a l IH]; intros [| i] [| k] H; cbn in *; try lia; auto.
  apply IH. lia.
Qed.

Lemma set_nth_Forall {A : Type} (P : A -> Prop) (x : A) :
  forall l i, P x -> Forall P l -> Forall P (set_nth i x l).
Proof.
  induction l as [| a l IH]; intros [| i] Hx Hl; cbn; auto;
    inversion Hl; subst; constructor; auto.
Qed.

Lemma has_dims_row shape w h i row :
  has_dims shape w h -> nth_error shape i = Some row -> List.length row = h.
Proof.
  intros [_ Hall] Hrow. rewrite Forall_forall in Hall. apply Hall.
  eapply nth_error_In. exact Hrow.
Qed.

Lemma py_index_in_range len i :
  0 <= i < Z.of_nat len -> py_index len i = Some (Z.to_nat i).
Proof.
  intros H. unfold py_index.
  destruct (Z.leb_spec 0 i), (Z.ltb_spec i (Z.of_nat len)); try lia.
  reflexivity.
Qed.

Lemma mark_shape_in_limits shape nl zl w h N Z_ :
  has_dims shape w h ->
  0 <= N - fst nl < Z.of_nat w ->
  0 <= Z_ - fst zl < Z.of_nat h ->
  exists shape',
    mark_shape shape nl zl N Z_ = Some shape'
    /\ has_dims shape' w h
    /\ forall i j,
         occupied shape' i j
         = occupied shape i j
           || ((i =? Z.to_nat (N - fst nl))%nat
               && (j =? Z.to_nat (Z_ - fst zl))%nat).
Proof.
  intros Hd HN HZ. pose proof Hd as [Hlen Hall]. unfold mark_shape.
  rewrite py_index_in_range by lia.
  assert (Hi : (Z.to_nat (N - fst nl) < List.length shape)%nat) by lia.
  destruct (nth_error shape (Z.to_nat (N - fst nl))) as [row |] eqn:Hrow;
    [| apply nth_error_None in Hrow; lia].
  pose proof (has_dims_row _ _ _ _ _ Hd Hrow) as Hr.
  rewrite py_index_in_range by lia.
  eexists. split; [reflexivity | split].
  - split; [now rewrite set_nth_length |].
    apply set_nth_Forall; [now rewrite set_nth_length | exact Hall].
  - intros i j. unfold occupied.
    destruct (Nat.eqb_spec i (Z.to_nat (N - fst nl))) as [-> | Hne].
    + rewrite nth_error_set_nth_same by exact Hi. rewrite Hrow.
      rewrite nth_set_nth by lia. cbn [andb].
      destruct (j =? Z.to_nat (Z_ - fst zl))%nat;
        [now rewrite orb_true_r | now rewrite orb_false_r].
    + rewrite nth_error_set_nth_other by congruence.
      cbn [andb]. now rewrite orb_false_r.
Qed.

Lemma mark_all_in_limits nl zl w h cells :
  forall shape,
    has_dims shape w h ->
    Z.of_nat w = snd nl + 1 - fst nl ->
    Z.of_nat h = snd zl + 1 - fst zl ->
    forallb (cell_in_limits nl zl) cells = true ->
    exists shape',
      mark_all shape nl zl cells = Some shape'
      /\ has_dims shape' w h
      /\ forall i j,
           occupied shape' i j
           = occupied shape i j
             || existsb (fun c => (i =? Z.to_nat (fst c - fst nl))%nat
                                  && (j =? Z.to_nat (snd c - fst zl))%nat) cells.
Proof.
  induction cells as [| [N Z_] rest IH]; intros shape Hd Hw Hh Hin.
  - exists shape. cbn. split; [reflexivity | split; [exact Hd |]].
    intros i j. now rewrite orb_false_r.
  - cbn [forallb] in Hin. apply andb_prop in Hin. destruct Hin as [Hc Hrest].
    apply cell_in_limits_bounds in Hc. destruct Hc as [HN HZ].
    destruct (mark_shape_in_limits shape nl zl w h N Z_ Hd)
      as (s1 & E1 & Hd1 & Ho1); [lia | lia |].
    destruct (IH s1 Hd1 Hw Hh Hrest) as (s2 & E2 & Hd2 & Ho2).
    exists s2. cbn [mark_all]. rewrite E1. split; [exact E2 | split; [exact Hd2 |]].
    intros i j. rewrite Ho2, Ho1. cbn [existsb fst snd].
    now rewrite orb_assoc.
Qed.

Lemma empty_shape_dims nl zl :
  has_dims (empty_shape nl zl)
    (Z.to_nat (snd nl + 1 - fst nl)) (Z.to_nat (snd zl + 1 - fst zl)).
Proof.
  unfold has_dims, empty_shape. split; [apply repeat_length |].
  apply Forall_forall. intros row Hrow. apply repeat_spec in Hrow. subst row.
  apply repeat_length.
Qed.

Lemma empty_shape_occupied nl zl i j : occupied (empty_shape nl zl) i j = false.
Proof.
  unfold occupied, empty_shape.
  destruct (nth_error (repeat _ _) i) as [row |] eqn:E; [| reflexivity].
  apply nth_error_In in E. apply repeat_spec in E. subst row.
  destruct (Nat.lt_ge_cases j (Z.to_nat (snd zl + 1 - fst zl))) as [Hj | Hj].
  - now rewrite nth_repeat_lt.
  - rewrite nth_overflow; [reflexivity | now rewrite repeat_length].
Qed.

Lemma marked_shape nl zl cells :
  forallb (cell_in_limits nl zl) cells = true ->
  cells <> [] ->
  exists shape,
    mark_all (empty_shape nl zl) nl zl cells = Some shape
    /\ has_dims shape (Z.to_nat (snd nl + 1 - fst nl))
                      (Z.to_nat (snd zl + 1 - fst zl))
    /\ forall i j,
         occupied shape i j
         = existsb (fun c => (i =? Z.to_nat (fst c - fst nl))%nat
                             && (j =? Z.to_nat (snd c - fst zl))%nat) cells.
Proof.
  intros Hin Hne.
  assert (Hdims : fst nl <= snd nl /\ fst zl <= snd zl).
  { destruct cells as [| [N Z_] rest]; [congruence |].
    cbn [forallb] in Hin. apply andb_prop in Hin. destruct Hin as [Hc _].
    apply cell_in_limits_bounds in Hc. lia. }
  destruct (mark_all_in_limits nl zl _ _ cells (empty_shape nl zl)
              (empty_shape_dims nl zl)) as (shape & E & Hd & Ho);
    [lia | lia | exact Hin |].
  exists shape. split; [exact E | split; [exact Hd |]].
  intros i j. now rewrite Ho, empty_shape_occupied.
Qed.

(** X23: marking the occupancy table never fails for data inside the
    limits, and the table then records the data exactly: the flag of a
    place inside the limits is set if and only if the data hold a nuclide
    with that [N] and [Z]. *)
Theorem shape_records_the_data nl zl cells :
  forallb (cell_in_limits nl zl) cells = true ->
  exists shape,
    mark_all (empty_shape nl zl) nl zl cells = Some shape
    /\ forall N Z_,
         cell_in_limits nl zl (N, Z_) = true ->
         (occupied shape (Z.to_nat (N - fst nl)) (Z.to_nat (Z_ - fst zl)) = true
          <-> In (N, Z_) cells).
Proof.
  intros Hin. destruct cells as [| c0 rest] eqn:Ecells.
  - exists (empty_shape nl zl). split; [reflexivity |].
    intros N Z_ _. rewrite empty_shape_occupied. split; [discriminate | intros []].
  - rewrite <- Ecells in *.
    destruct (marked_shape nl zl cells Hin) as (shape & E & _ & Ho);
      [rewrite Ecells; discriminate |].
    exists shape. split; [exact E |].
    intros N Z_ Hc. apply cell_in_limits_bounds in Hc. rewrite Ho.
    rewrite existsb_exists. rewrite forallb_forall in Hin. split.
    + intros ([N' Z_'] & Hc' & Heq). cbn [fst snd] in Heq.
      apply andb_prop in Heq. destruct Heq as [H1 H2].
      apply Nat.eqb_eq in H1. apply Nat.eqb_eq in H2.
      pose proof (cell_in_limits_bounds _ _ _ _ (Hin _ Hc')) as Hb.
      assert (N = N') by lia. assert (Z_ = Z_') by lia. now subst.
    + intros Hc'. exists (N, Z_). split; [exact Hc' |].
      cbn [fst snd]. now rewrite !Nat.eqb_refl.
Qed.

Lemma shape_records_the_data_witness :
  exists shape,
    mark_all (empty_shape (1, 3) (1, 2)) (1, 3) (1, 2) [(1, 1); (3, 2)] = Some shape
    /\ forall N Z_,
         cell_in_limits (1, 3) (1, 2) (N, Z_) = true ->
         (occupied shape (Z.to_nat (N - fst (1, 3))) (Z.to_nat (Z_ - fst (1, 2)))
          = true
          <-> In (N, Z_) [(1, 1); (3, 2)]).
Proof.
  apply (shape_records_the_data (1, 3) (1, 2) [(1, 1); (3, 2)]). reflexivity.
Defined.

(** * Magic numbers *)

Lemma magic_get_set_last_same m k v :
  magic_get (magic_set_last m k v) k
  = match magic_get m k with
    | Some limits => Some (fst limits, v)
    | None => None
    end.
Proof.
  induction m as [| [k' limits] rest IH]; [reflexivity |].
  cbn [magic_get magic_set_last]. destruct (k =? k') eqn:E.
  - cbn [magic_get]. now rewrite E.
  - cbn [magic_get]. now rewrite E.
Qed.

Lemma magic_get_set_last_other m k v k' :
  k' <> k -> magic_get (magic_set_last m k v) k' = magic_get m k'.
Proof.
  intros Hne. induction m as [| [k0 limits] rest IH]; [reflexivity |].
  cbn [magic_get magic_set_last]. destruct (k =? k0) eqn:E.
  - apply Z.eqb_eq in E. subst k0. cbn [magic_get].
    destruct (k' =? k) eqn:E'; [apply Z.eqb_eq in E'; congruence | reflexivity].
  - cbn [magic_get]. now rewrite IH.
Qed.

Lemma magic_get_app (m : Magic) k limits k' :
  magic_get (m ++ [(k, limits)])%list k'
  = match magic_get m k' with
    | Some l => Some l
    | None => if k' =? k then Some limits else None
    end.
Proof.
  induction m as [| [k0 l0] rest IH]; [reflexivity |].
  cbn [app magic_get]. destruct (k' =? k0); [reflexivity | exact IH].
Qed.

Lemma magic_note_same m k v :
  magic_get (magic_note m k v) k
  = match magic_get m k with
    | Some limits => Some (fst limits, Z.max (snd limits) v)
    | None => Some (v, v)
    end.
Proof.
  unfold magic_note. destruct (magic_get m k) as [[lo hi] |] eqn:E.
  - cbn [fst snd]. destruct (Z.ltb_spec hi v).
    + rewrite magic_get_set_last_same, E. cbn [fst]. f_equal. f_equal. lia.
    + rewrite E. f_equal. f_equal. lia.
  - rewrite magic_get_app, E. now rewrite Z.eqb_refl.
Qed.

Lemma magic_note_other m k v k' :
  k' <> k -> magic_get (magic_note m k v) k' = magic_get m k'.
Proof.
  intros Hne. unfold magic_note. destruct (magic_get m k) as [limits |] eqn:E.
  - destruct (snd limits <? v); [now apply magic_get_set_last_other | reflexivity].
  - rewrite magic_get_app.
    destruct (magic_get m k'); [reflexivity |].
    destruct (k' =? k) eqn:E'; [apply Z.eqb_eq in E'; congruence | reflexivity].
Qed.

Lemma n_magic_of_get k cells :
  forall m,
    magic_get (n_magic_of m cells) k
    = if is_magic k then
        match magic_get m k with
        | Some limits =>
            Some (fst limits, fold_left Z.max (protons_at k cells) (snd limits))
        | None => first_and_largest (protons_at k cells)
        end
      else magic_get m k.
Proof.
  induction cells as [| [N Z_] rest IH]; intros m.
  - cbn [n_magic_of]. destruct (is_magic k); [| reflexivity].
    destruct (magic_get m k) as [[lo hi] |]; reflexivity.
  - cbn [n_magic_of]. rewrite IH. unfold protons_at. cbn [filter fst].
    destruct (is_magic k) eqn:Hk.
    + destruct (Z.eqb_spec N k) as [-> | Hne].
      * rewrite Hk, magic_note_same. cbn [map snd fold_left first_and_largest].
        destruct (magic_get m k) as [[lo hi] |]; reflexivity.
      * destruct (is_magic N); [| reflexivity].
        rewrite magic_note_other by congruence. reflexivity.
    + destruct (is_magic N) eqn:HN; [| reflexivity].
      rewrite magic_note_other; [reflexivity |].
      intros ->. congruence.
Qed.

Lemma z_magic_of_get k cells :
  forall m,
    magic_get (z_magic_of m cells) k
    = if is_magic k then
        match magic_get m k with
        | Some limits =>
            Some (fst limits, fold_left Z.max (neutrons_at k cells) (snd limits))
        | None => first_and_largest (neutrons_at k cells)
        end
      else magic_get m k.
Proof.
  induction cells as [| [N Z_] rest IH]; intros m.
  - cbn [z_magic_of]. destruct (is_magic k); [| reflexivity].
    destruct (magic_get m k) as [[lo hi] |]; reflexivity.
  - cbn [z_magic_of]. rewrite IH. unfold neutrons_at. cbn [filter snd].
    destruct (is_magic k) eqn:Hk.
    + destruct (Z.eqb_spec Z_ k) as [-> | Hne].
      * rewrite Hk, magic_note_same. cbn [map fst fold_left first_and_largest].
        destruct (magic_get m k) as [[lo hi] |]; reflexivity.
      * destruct (is_magic Z_); [| reflexivity].
        rewrite magic_note_other by congruence. reflexivity.
    + destruct (is_magic Z_) eqn:HN; [| reflexivity].
      rewrite magic_note_other; [reflexivity |].
      intros ->. congruence.
Qed.

(** X24: the bookkeeping of lines 1055-1066 keeps, for a magic neutron
    number, the proton number of the first nuclide of the data with that
    [N] as lower end and the largest proton number met as upper end (and
    likewise for a magic proton number); a number that is not magic, or
    that no nuclide has, gets no entry.  The lower end is the first value in
    the order of the data, not the smallest. *)
Theorem magic_limits_are_first_and_largest cells k :
  magic_get (n_magic_of [] cells) k
  = (if is_magic k then first_and_largest (protons_at k cells) else None)
  /\ magic_get (z_magic_of [] cells) k
     = (if is_magic k then first_and_largest (neutrons_at k cells) else None).
Proof.
  rewrite n_magic_of_get, z_magic_of_get. cbn [magic_get]. split; reflexivity.
Qed.

Lemma fold_max_ge vs : forall v, v <= fold_left Z.max vs v.
Proof.
  induction vs as [| w vs IH]; intros v; cbn [fold_left]; [lia |].
  specialize (IH (Z.max v w)). lia.
Qed.

Lemma fold_max_upper vs :
  forall v w, In w (v :: vs) -> w <= fold_left Z.max vs v.
Proof.
  induction vs as [| u vs IH]; intros v w Hw; cbn [fold_left].
  - destruct Hw as [Hw | []]. lia.
  - destruct Hw as [Hw | [Hw | Hw]].
    + pose proof (fold_max_ge vs (Z.max v u)). lia.
    + pose proof (fold_max_ge vs (Z.max v u)). lia.
    + apply IH. now right.
Qed.

(** X25: for the entry [(lo, hi)] that the bookkeeping leaves for a magic
    neutron number [N]: [lo <= hi], every proton number that the data hold
    for [N] is at most [hi], and [lo] is the proton number of the first
    nuclide of the data with that [N] (nuclides with a smaller proton number
    that come later in the data lie outside the pair). *)
Theorem magic_entry_covers_from_first cells N lo hi :
  magic_get (n_magic_of [] cells) N = Some (lo, hi) ->
  lo <= hi
  /\ (forall Z_, In (N, Z_) cells -> Z_ <= hi)
  /\ exists rest, protons_at N cells = lo :: rest.
Proof.
  rewrite n_magic_of_get. cbn [magic_get].
  destruct (is_magic N); [| discriminate].
  unfold first_and_largest.
  destruct (protons_at N cells) as [| v vs] eqn:E; [discriminate |].
  intros H. injection H as <- <-. split; [apply fold_max_ge | split].
  - intros Z_ Hin. apply fold_max_upper. rewrite <- E. unfold protons_at.
    apply in_map_iff. exists (N, Z_). split; [reflexivity |].
    apply filter_In. split; [exact Hin |]. cbn [fst]. apply Z.eqb_refl.
  - now exists vs.
Qed.

Lemma magic_entry_covers_from_first_witness :
  5 <= 7
  /\ (forall Z_, In (8, Z_) [(8, 5); (8, 3); (8, 7)] -> Z_ <= 7)
  /\ exists rest, protons_at 8 [(8, 5); (8, 3); (8, 7)] = 5 :: rest.
Proof.
  apply (magic_entry_covers_from_first [(8, 5); (8, 3); (8, 7)] 8 5 7).
  reflexivity.
Defined.

(** X26: the two lines drawn for an entry [(lo, hi)] of a magic neutron
    number run vertically in the middle of the gaps on the left and on the
    right of the column of cells [N], from half a gap above the cell of
    [hi] to half a gap below the cell of [lo]; those of a magic proton
    number run horizontally in the same way around the row of cells [Z]. *)
Theorem magic_lines_run_in_the_gaps nl zl size k lo hi :
  (exists x1 x1' y1 y2 : Q,
     n_magic_lines nl zl size (k, (lo, hi))
     = [ draw_line 2 (x1, y1) (x1, y2) (Py.str_of_int k ++ "n0");
         draw_line 2 (x1', y1) (x1', y2) (Py.str_of_int k ++ "n1") ]
     /\ (x1 == qz (fst (cell_position nl zl size k hi)) - qz SIZE_GAP / 2
         /\ x1' == qz (fst (cell_position nl zl size k hi) + SIZE_SHAPE)
                   + qz SIZE_GAP / 2
         /\ y1 == qz (snd (cell_position nl zl size k hi)) - qz SIZE_GAP / 2
         /\ y2 == qz (snd (cell_position nl zl size k lo) + SIZE_SHAPE)
                  + qz SIZE_GAP / 2)%Q)
  /\ (exists x1 x2 y1 y1' : Q,
        z_magic_lines nl zl size (k, (lo, hi))
        = [ draw_line 2 (x1, y1) (x2, y1) (Py.str_of_int k ++ "z0");
            draw_line 2 (x1, y1') (x2, y1') (Py.str_of_int k ++ "z1") ]
        /\ (x1 == qz (fst (cell_position nl zl size lo k)) - qz SIZE_GAP / 2
            /\ x2 == qz (fst (cell_position nl zl size hi k) + SIZE_SHAPE)
                     + qz SIZE_GAP / 2
            /\ y1 == qz (snd (cell_position nl zl size lo k)) - qz SIZE_GAP / 2
            /\ y1' == qz (snd (cell_position nl zl size lo k) + SIZE_SHAPE)
                      + qz SIZE_GAP / 2)%Q).
Proof.
  split; do 4 eexists; (split; [reflexivity |]);
    unfold cell_position, qz, SIZE_FIELD, SIZE_SHAPE, SIZE_GAP, Qeq;
    cbn; repeat split; lia.
Qed.

(** * The axis numbers *)

Lemma first_in_column_lowest column width :
  forall z_first,
    Z.of_nat (List.length column) <= Z.max 0 (width - z_first) ->
    first_in_column column width z_first
    = match lowest_occupied column with
      | Some i => Ok (z_first + Z.of_nat i)
      | None => Err IndexError
      end.
Proof.
  induction column as [| occ rest IH]; intros s Hlen; [reflexivity |].
  cbn [first_in_column lowest_occupied]. cbn [List.length] in Hlen.
  destruct occ; cbn [negb andb].
  - now rewrite Z.add_0_r.
  - destruct (Z.ltb_spec s width); [| lia].
    rewrite IH by lia.
    destruct (lowest_occupied rest) as [i |]; cbn [option_map]; [| reflexivity].
    f_equal. lia.
Qed.

Lemma lowest_occupied_none column :
  lowest_occupied column = None <-> existsb (fun occ => occ) column = false.
Proof.
  induction column as [| [|] rest IH]; cbn [lowest_occupied existsb orb].
  - tauto.
  - split; discriminate.
  - destruct (lowest_occupied rest); cbn [option_map].
    + split; [discriminate |]. intros H. apply IH in H. discriminate.
    + split; [intros _; now apply IH | reflexivity].
Qed.

Lemma first_in_row_occupied rows z height :
  forall n_first,
    Forall (fun row => (z < List.length row)%nat) rows ->
    Z.of_nat (List.length rows) <= Z.max 0 (height - n_first) ->
    match first_in_row rows z height n_first with
    | Ok _ => existsb (fun row => nth z row false) rows = true
    | Err e => e = IndexError /\ existsb (fun row => nth z row false) rows = false
    end.
Proof.
  induction rows as [| row rest IH]; intros s Hall Hlen.
  - cbn. auto.
  - inversion Hall as [| ? ? Hrow Hrest]; subst.
    cbn [first_in_row existsb]. cbn [List.length] in Hlen.
    destruct (nth_error row z) as [occ |] eqn:E;
      [| apply nth_error_None in E; lia].
    rewrite (nth_error_nth _ _ false E).
    destruct occ; cbn [negb andb orb]; [reflexivity |].
    destruct (Z.ltb_spec s height); [| lia].
    apply IH; [exact Hrest | lia].
Qed.

Lemma number_columns_exit shape nl zl size w h :
  has_dims shape w h ->
  Z.of_nat h <= Z.max 0 (snd zl - fst zl + 1) ->
  forall ns,
    Forall (fun n => (n < w)%nat) ns ->
    snd (number_columns shape nl zl size ns)
    = if forallb (fun n => negb (labelled (Z.of_nat n + fst nl))
                           || column_occupied shape n) ns
      then None else Some IndexError.
Proof.
  intros Hd Hh. induction ns as [| n rest IH]; intros Hall; [reflexivity |].
  inversion Hall as [| ? ? Hn Hrest]; subst.
  cbn [number_columns forallb]. unfold labelled at 1.
  destruct ((Z.of_nat n + fst nl) mod 2 =? 0) eqn:E1;
    [| cbn [andb negb orb]; now apply IH].
  destruct (0 <? Z.of_nat n + fst nl) eqn:E2;
    [| cbn [andb negb orb]; now apply IH].
  cbn [andb negb orb]. unfold column_occupied at 1.
  destruct (nth_error shape n) as [column |] eqn:Ecol; [| reflexivity].
  rewrite first_in_column_lowest
    by (rewrite (has_dims_row _ _ _ _ _ Hd Ecol); lia).
  destruct (lowest_occupied column) as [i |] eqn:El.
  - destruct (existsb (fun occ => occ) column) eqn:Eex;
      [| apply lowest_occupied_none in Eex; congruence].
    cbn [andb].
    destruct (number_columns shape nl zl size rest) as [calls e] eqn:Er.
    cbn [snd] in *. now apply IH.
  - apply lowest_occupied_none in El. now rewrite El.
Qed.

Lemma number_rows_exit shape nl zl size w h :
  has_dims shape w h ->
  Z.of_nat w <= Z.max 0 (snd nl - fst nl + 1) ->
  forall zs,
    Forall (fun z => (z < h)%nat) zs ->
    snd (number_rows shape nl zl size zs)
    = if forallb (fun z => negb (labelled (Z.of_nat z + fst zl))
                           || row_occupied shape z) zs
      then None else Some IndexError.
Proof.
  intros Hd Hw. induction zs as [| z rest IH]; intros Hall; [reflexivity |].
  inversion Hall as [| ? ? Hz Hrest]; subst.
  cbn [number_rows forallb]. unfold labelled at 1.
  rewrite Z.add_mod_idemp_r by lia.
  destruct ((Z.of_nat z + fst zl) mod 2 =? 0) eqn:E1;
    [| cbn [andb negb orb]; now apply IH].
  destruct (0 <? Z.of_nat z + fst zl) eqn:E2;
    [| cbn [andb negb orb]; now apply IH].
  cbn [andb negb orb].
  assert (Hrows : Forall (fun row => (z < List.length row)%nat) shape).
  { destruct Hd as [_ Hd]. eapply Forall_impl; [| exact Hd].
    cbn. intros row Hr. lia. }
  pose proof (first_in_row_occupied shape z (snd nl - fst nl + 1) 0 Hrows) as Hf.
  destruct Hd as [Hlen _].
  destruct (first_in_row shape z (snd nl - fst nl + 1) 0) as [n_first | e].
  - unfold row_occupied at 1. rewrite Hf by lia. cbn [andb].
    destruct (number_rows shape nl zl size rest) as [calls e] eqn:Er.
    cbn [snd] in *. now apply IH.
  - unfold row_occupied at 1. destruct Hf as [-> Hf]; [lia |].
    now rewrite Hf.
Qed.

Lemma column_occupied_iff shape n :
  column_occupied shape n = true <-> exists j, occupied shape n j = true.
Proof.
  unfold column_occupied, occupied.
  destruct (nth_error shape n) as [column |].
  - rewrite existsb_exists. split.
    + intros (occ & Hin & ->). destruct (In_nth _ _ false Hin) as (j & _ & Hj).
      now exists j.
    + intros (j & Hj). exists true. split; [| reflexivity].
      rewrite <- Hj. apply nth_In.
      destruct (Nat.lt_ge_cases j (List.length column)) as [Hl | Hl];
        [exact Hl |].
      rewrite nth_overflow in Hj by exact Hl. discriminate.
  - split; [discriminate | intros (j & Hj); discriminate].
Qed.

Lemma row_occupied_iff shape z :
  row_occupied shape z = true <-> exists i, occupied shape i z = true.
Proof.
  unfold row_occupied, occupied. rewrite existsb_exists. split.
  - intros (row & Hin & Hz). destruct (In_nth_error _ _ Hin) as [i Hi].
    exists i. now rewrite Hi.
  - intros (i & Hi). destruct (nth_error shape i) as [row |] eqn:E;
      [| discriminate].
    exists row. split; [eapply nth_error_In; exact E | exact Hi].
Qed.

Lemma marked_shape_limits nl zl cells :
  fst nl <= snd nl -> fst zl <= snd zl ->
  forallb (cell_in_limits nl zl) cells = true ->
  exists shape,
    mark_all (empty_shape nl zl) nl zl cells = Some shape
    /\ has_dims shape (Z.to_nat (snd nl + 1 - fst nl))
                      (Z.to_nat (snd zl + 1 - fst zl))
    /\ forall i j,
         occupied shape i j
         = existsb (fun c => (i =? Z.to_nat (fst c - fst nl))%nat
                             && (j =? Z.to_nat (snd c - fst zl))%nat) cells.
Proof.
  intros Hn Hz Hin.
  destruct (mark_all_in_limits nl zl _ _ cells (empty_shape nl zl)
              (empty_shape_dims nl zl)) as (shape & E & Hd & Ho);
    [lia | lia | exact Hin |].
  exists shape. split; [exact E | split; [exact Hd |]].
  intros i j. now rewrite Ho, empty_shape_occupied.
Qed.

Lemma marked_column_occupied nl zl cells shape n :
  forallb (cell_in_limits nl zl) cells = true ->
  (forall i j,
     occupied shape i j
     = existsb (fun c => (i =? Z.to_nat (fst c - fst nl))%nat
                         && (j =? Z.to_nat (snd c - fst zl))%nat) cells) ->
  column_occupied shape n
  = existsb (fun c => fst c =? Z.of_nat n + fst nl) cells.
Proof.
  intros Hin Ho. rewrite forallb_forall in Hin. apply eq_true_iff_eq.
  rewrite column_occupied_iff, existsb_exists. split.
  - intros (j & Hj). rewrite Ho in Hj. apply existsb_exists in Hj.
    destruct Hj as ([N Z_] & Hc & Heq). exists (N, Z_). split; [exact Hc |].
    cbn [fst snd] in *. apply andb_prop in Heq. destruct Heq as [H1 _].
    apply Nat.eqb_eq in H1.
    pose proof (cell_in_limits_bounds _ _ _ _ (Hin _ Hc)). apply Z.eqb_eq. lia.
  - intros ([N Z_] & Hc & Heq). cbn [fst] in Heq. apply Z.eqb_eq in Heq.
    exists (Z.to_nat (Z_ - fst zl)). rewrite Ho. apply existsb_exists.
    exists (N, Z_). split; [exact Hc |]. cbn [fst snd].
    rewrite Nat.eqb_refl, andb_true_r. apply Nat.eqb_eq. lia.
Qed.

Lemma marked_row_occupied nl zl cells shape z :
  forallb (cell_in_limits nl zl) cells = true ->
  (forall i j,
     occupied shape i j
     = existsb (fun c => (i =? Z.to_nat (fst c - fst nl))%nat
                         && (j =? Z.to_nat (snd c - fst zl))%nat) cells) ->
  row_occupied shape z
  = existsb (fun c => snd c =? Z.of_nat z + fst zl) cells.
Proof.
  intros Hin Ho. rewrite forallb_forall in Hin. apply eq_true_iff_eq.
  rewrite row_occupied_iff, existsb_exists. split.
  - intros (i & Hi). rewrite Ho in Hi. apply existsb_exists in Hi.
    destruct Hi as ([N Z_] & Hc & Heq). exists (N, Z_). split; [exact Hc |].
    cbn [fst snd] in *. apply andb_prop in Heq. destruct Heq as [_ H2].
    apply Nat.eqb_eq in H2.
    pose proof (cell_in_limits_bounds _ _ _ _ (Hin _ Hc)). apply Z.eqb_eq. lia.
  - intros ([N Z_] & Hc & Heq). cbn [snd] in Heq. apply Z.eqb_eq in Heq.
    exists (Z.to_nat (N - fst nl)). rewrite Ho. apply existsb_exists.
    exists (N, Z_). split; [exact Hc |]. cbn [fst snd].
    rewrite Nat.eqb_refl. cbn [andb]. apply Nat.eqb_eq. lia.
Qed.

Lemma forallb_span (P : Z -> bool) limits :
  forallb P (span_of limits)
  = forallb (fun i => P (Z.of_nat i + fst limits))
            (seq 0 (Z.to_nat (snd limits - fst limits + 1))).
Proof.
  unfold span_of. induction (seq 0 (Z.to_nat (snd limits - fst limits + 1)))
    as [| i l IH]; [reflexivity |].
  cbn [map forallb]. now rewrite IH.
Qed.

Lemma forallb_ext_in {A : Type} (f g : A -> bool) l :
  (forall x, In x l -> f x = g x) -> forallb f l = forallb g l.
Proof.
  induction l as [| a l IH]; intros H; [reflexivity |].
  cbn [forallb]. rewrite (H a (or_introl eq_refl)), IH; [reflexivity |].
  intros x Hx. apply H. now right.
Qed.

Lemma draw_numbers_exit shape nl zl size :
  snd (draw_numbers shape nl zl size)
  = match snd (number_columns shape nl zl size
                 (seq 0 (Z.to_nat (snd nl - fst nl + 1)))) with
    | Some e => Some e
    | None => snd (number_rows shape nl zl size
                     (seq 0 (Z.to_nat (snd zl - fst zl + 1))))
    end.
Proof.
  unfold draw_numbers.
  destruct (number_columns shape nl zl size _) as [calls [e |]]; [reflexivity |].
  cbn [snd]. destruct (number_rows shape nl zl size _) as [calls' e'].
  reflexivity.
Qed.

(** X27: with the occupancy table of the data, [draw_numbers] returns
    normally exactly when every even positive neutron number between the
    limits and every even positive proton number between the limits has at
    least one nuclide in the data; otherwise the search for the first
    occupied cell of an empty column or row reads past the end of the table
    and [draw_numbers] raises [IndexError]. *)
Theorem numbers_need_occupied_lines nl zl size cells :
  fst nl <= snd nl -> fst zl <= snd zl ->
  forallb (cell_in_limits nl zl) cells = true ->
  exists shape,
    mark_all (empty_shape nl zl) nl zl cells = Some shape
    /\ snd (draw_numbers shape nl zl size)
       = if labelled_lines_occupied nl zl cells then None else Some IndexError.
Proof.
  intros Hn Hz Hin.
  destruct (marked_shape_limits nl zl cells Hn Hz Hin) as (shape & E & Hd & Ho).
  exists shape. split; [exact E |].
  rewrite draw_numbers_exit.
  rewrite (number_columns_exit shape nl zl size _ _ Hd) by
    first [ lia | apply Forall_forall; intros n Hs; apply in_seq in Hs; lia ].
  rewrite (number_rows_exit shape nl zl size _ _ Hd) by
    first [ lia | apply Forall_forall; intros n Hs; apply in_seq in Hs; lia ].
  unfold labelled_lines_occupied. rewrite !forallb_span.
  rewrite (forallb_ext_in
             (fun n => negb (labelled (Z.of_nat n + fst nl))
                       || column_occupied shape n)
             (fun i => negb (labelled (Z.of_nat i + fst nl))
                       || existsb (fun c => fst c =? Z.of_nat i + fst nl) cells))
    by (intros n _; now rewrite (marked_column_occupied nl zl cells shape n Hin Ho)).
  rewrite (forallb_ext_in
             (fun z => negb (labelled (Z.of_nat z + fst zl))
                       || row_occupied shape z)
             (fun i => negb (labelled (Z.of_nat i + fst zl))
                       || existsb (fun c => snd c =? Z.of_nat i + fst zl) cells))
    by (intros z _; now rewrite (marked_row_occupied nl zl cells shape z Hin Ho)).
  destruct (forallb _ (seq 0 (Z.to_nat (snd nl - fst nl + 1)))); reflexivity.
Qed.

Lemma numbers_need_occupied_lines_witness :
  exists shape,
    mark_all (empty_shape (1, 3) (1, 2)) (1, 3) (1, 2) [(1, 1); (3, 2)] = Some shape
    /\ snd (draw_numbers shape (1, 3) (1, 2) (picture_size (1, 3) (1, 2)))
       = if labelled_lines_occupied (1, 3) (1, 2) [(1, 1); (3, 2)]
         then None else Some IndexError.
Proof.
  apply (numbers_need_occupied_lines (1, 3) (1, 2) (picture_size (1, 3) (1, 2))
           [(1, 1); (3, 2)]).
  - cbn. lia.
  - cbn. lia.
  - reflexivity.
Defined.

Lemma number_columns_texts shape nl zl size :
  forall ns,
    snd (number_columns shape nl zl size ns) = None ->
    flat_map number_text (fst (number_columns shape nl zl size ns))
    = map Py.str_of_int
        (filter labelled (map (fun n => Z.of_nat n + fst nl) ns)).
Proof.
  induction ns as [| n rest IH]; intros H; [reflexivity |].
  cbn [number_columns map filter] in *. unfold labelled at 1.
  destruct (((Z.of_nat n + fst nl) mod 2 =? 0) && (0 <? Z.of_nat n + fst nl));
    [| now apply IH].
  destruct (nth_error shape n) as [column |]; [| discriminate].
  destruct (first_in_column column (snd zl - fst zl + 1) 0) as [z_first | e];
    [| discriminate].
  destruct (number_columns shape nl zl size rest) as [calls e].
  cbn [fst snd flat_map number_text app map] in *. f_equal. now apply IH.
Qed.

Lemma number_rows_texts shape nl zl size :
  forall zs,
    snd (number_rows shape nl zl size zs) = None ->
    flat_map number_text (fst (number_rows shape nl zl size zs))
    = map Py.str_of_int
        (filter labelled (map (fun z => Z.of_nat z + fst zl) zs)).
Proof.
  induction zs as [| z rest IH]; intros H; [reflexivity |].
  cbn [number_rows map filter] in *. unfold labelled at 1.
  rewrite Z.add_mod_idemp_r in * by lia.
  destruct (((Z.of_nat z + fst zl) mod 2 =? 0) && (0 <? Z.of_nat z + fst zl));
    [| now apply IH].
  destruct (first_in_row shape z (snd nl - fst nl + 1) 0) as [n_first | e];
    [| discriminate].
  destruct (number_rows shape nl zl size rest) as [calls e].
  cbn [fst snd flat_map number_text app map] in *. f_equal. now apply IH.
Qed.

(** X28: when [draw_numbers] returns, it has written one number for each
    even positive neutron number between the limits, in ascending order,
    followed by one for each even positive proton number between the
    limits, and nothing else: odd numbers, zero and negative numbers are
    never written, and the parenthesis of line 870 does not change which
    proton numbers are written. *)
Theorem numbers_label_even_positive shape nl zl size :
  snd (draw_numbers shape nl zl size) = None ->
  flat_map number_text (fst (draw_numbers shape nl zl size))
  = (map Py.str_of_int (filter labelled (span_of nl))
     ++ map Py.str_of_int (filter labelled (span_of zl)))%list.
Proof.
  unfold draw_numbers, span_of.
  pose proof (number_columns_texts shape nl zl size
                (seq 0 (Z.to_nat (snd nl - fst nl + 1)))) as Hc.
  pose proof (number_rows_texts shape nl zl size
                (seq 0 (Z.to_nat (snd zl - fst zl + 1)))) as Hr.
  destruct (number_columns shape nl zl size _) as [calls [e |]];
    [discriminate |].
  destruct (number_rows shape nl zl size _) as [calls' e'].
  cbn [fst snd] in *. intros ->. rewrite flat_map_app.
  now rewrite Hc, Hr.
Qed.

Lemma numbers_label_even_positive_witness :
  flat_map number_text
    (fst (draw_numbers [[true; false]; [false; true]; [false; true]]
            (1, 3) (1, 2) (picture_size (1, 3) (1, 2))))
  = (map Py.str_of_int (filter labelled (span_of (1, 3)))
     ++ map Py.str_of_int (filter labelled (span_of (1, 2))))%list.
Proof.
  apply (numbers_label_even_positive [[true; false]; [false; true]; [false; true]]
           (1, 3) (1, 2) (picture_size (1, 3) (1, 2))).
  reflexivity.
Defined.

Lemma number_columns_member shape nl zl size n column i :
  nth_error shape n = Some column ->
  Z.of_nat (List.length column) <= Z.max 0 (snd zl - fst zl + 1) ->
  lowest_occupied column = Some i ->
  labelled (Z.of_nat n + fst nl) = true ->
  forall ns,
    In n ns ->
    snd (number_columns shape nl zl size ns) = None ->
    In (draw_number 3
          ((qz ((Z.of_nat n + 1) * SIZE_FIELD + SIZE_GAP) + qz SIZE_SHAPE / 2)%Q,
           (qz (snd size - (Z.of_nat i + 1) * SIZE_FIELD + SIZE_GAP)
            + 1.25 * qz SIZE_FONT)%Q)
          "#000000" (qz SIZE_FONT * 1.5)%Q (Py.str_of_int (Z.of_nat n + fst nl)))
       (fst (number_columns shape nl zl size ns)).
Proof.
  intros Hcol Hlen Hlow Hlab. induction ns as [| m rest IH]; intros Hin Hex;
    [destruct Hin |].
  cbn [number_columns] in *.
  destruct Hin as [-> | Hin].
  - unfold labelled in Hlab. rewrite Hlab, Hcol in *.
    rewrite first_in_column_lowest, Hlow in * by lia.
    destruct (number_columns shape nl zl size rest) as [calls e].
    cbn [fst]. left. reflexivity.
  - destruct (((Z.of_nat m + fst nl) mod 2 =? 0) && (0 <? Z.of_nat m + fst nl));
      [| now apply IH].
    destruct (nth_error shape m) as [column' |]; [| discriminate].
    destruct (first_in_column column' (snd zl - fst zl + 1) 0) as [z_first | e];
      [| discriminate].
    destruct (number_columns shape nl zl size rest) as [calls e].
    cbn [fst snd] in *. right. now apply IH.
Qed.

(** X29: when [draw_numbers] returns, the number of an even positive
    neutron number [N] is written on layer 3 in black, horizontally at the
    middle of the cells of [N] and vertically one field, one gap and 1.25
    font sizes below the top of the lowest occupied cell of that column,
    with one and a half times the name font size. *)
Theorem column_number_sits_under_lowest_cell shape nl zl size n column i :
  snd (draw_numbers shape nl zl size) = None ->
  Z.of_nat n < snd nl - fst nl + 1 ->
  labelled (Z.of_nat n + fst nl) = true ->
  nth_error shape n = Some column ->
  Z.of_nat (List.length column) <= Z.max 0 (snd zl - fst zl + 1) ->
  lowest_occupied column = Some i ->
  In (draw_number 3
        ((qz (fst (cell_position nl zl size (Z.of_nat n + fst nl)
                     (Z.of_nat i + fst zl)))
          + qz SIZE_SHAPE / 2)%Q,
         (qz (snd (cell_position nl zl size (Z.of_nat n + fst nl)
                     (Z.of_nat i + fst zl))
              + SIZE_FIELD + SIZE_GAP)
          + 1.25 * qz SIZE_FONT)%Q)
        "#000000" (qz SIZE_FONT * 1.5)%Q (Py.str_of_int (Z.of_nat n + fst nl)))
     (fst (draw_numbers shape nl zl size)).
Proof.
  intros Hex Hn Hlab Hcol Hlen Hlow.
  pose proof (number_columns_member shape nl zl size n column i
                Hcol Hlen Hlow Hlab
                (seq 0 (Z.to_nat (snd nl - fst nl + 1)))) as Hm.
  unfold cell_position. cbn [fst snd].
  replace ((Z.of_nat n + fst nl - fst nl + 1) * SIZE_FIELD + SIZE_GAP)
    with ((Z.of_nat n + 1) * SIZE_FIELD + SIZE_GAP) by lia.
  replace (snd size - (Z.of_nat i + fst zl - fst zl + 2) * SIZE_FIELD
           + SIZE_FIELD + SIZE_GAP)
    with (snd size - (Z.of_nat i + 1) * SIZE_FIELD + SIZE_GAP)
    by (unfold SIZE_FIELD, SIZE_SHAPE, SIZE_GAP; lia).
  unfold draw_numbers in *.
  destruct (number_columns shape nl zl size _) as [calls [e |]];
    [discriminate |].
  destruct (number_rows shape nl zl size _) as [calls' e'].
  cbn [fst snd] in *. apply in_or_app. left. apply Hm; [| reflexivity].
  apply in_seq. lia.
Qed.

Lemma column_number_sits_under_lowest_cell_witness :
  In (draw_number 3
        ((qz (fst (cell_position sample_n_limits sample_z_limits
                     (picture_size sample_n_limits sample_z_limits)
                     (Z.of_nat 1 + fst sample_n_limits)
                     (Z.of_nat 1 + fst sample_z_limits)))
          + qz SIZE_SHAPE / 2)%Q,
         (qz (snd (cell_position sample_n_limits sample_z_limits
                     (picture_size sample_n_limits sample_z_limits)
                     (Z.of_nat 1 + fst sample_n_limits)
                     (Z.of_nat 1 + fst sample_z_limits))
              + SIZE_FIELD + SIZE_GAP)
          + 1.25 * qz SIZE_FONT)%Q)
        "#000000" (qz SIZE_FONT * 1.5)%Q
        (Py.str_of_int (Z.of_nat 1 + fst sample_n_limits)))
     (fst (draw_numbers sample_shape sample_n_limits sample_z_limits
             (picture_size sample_n_limits sample_z_limits))).
Proof.
  apply (column_number_sits_under_lowest_cell
           sample_shape sample_n_limits sample_z_limits
           (picture_size sample_n_limits sample_z_limits)
           1%nat [false; true] 1%nat).
  - reflexivity.
  - cbn. lia.
  - reflexivity.
  - reflexivity.
  - cbn. lia.
  - reflexivity.
Defined.

(** * The border of the targets *)

Lemma z_target_lines_shift nl zl size z_targets :
  forall c,
    flat_map line_ends (z_target_lines nl zl size c z_targets)
    = flat_map line_ends
        (flat_map (z_magic_lines nl zl size) (shift_keys c z_targets))
    /\ forallb is_border_on_layer_4 (z_target_lines nl zl size c z_targets) = true.
Proof.
  induction z_targets as [| [Z_ limits] rest IH]; intros c; [split; reflexivity |].
  destruct (IH (c + 1)) as [IH1 IH2].
  cbn [z_target_lines shift_keys flat_map z_magic_lines app line_ends fst snd
       forallb is_border_on_layer_4 andb].
  split; [| exact IH2]. now rewrite IH1.
Qed.

(** X30: [draw_target_border] draws, on layer 4, lines with the end points
    that [draw_magic_lines] would give, except that in the second loop the
    entry in place [k] of [z_targets] (insertion order, from 0) is framed
    as the row of proton number [Z - k], not [Z]: the counter of line 824
    moves each later entry one more row down. *)
Theorem target_border_shifts_later_rows n_targets z_targets nl zl size :
  flat_map line_ends (draw_target_border n_targets z_targets nl zl size)
  = flat_map line_ends
      (draw_magic_lines n_targets (shift_keys 0 z_targets) nl zl size)
  /\ forallb is_border_on_layer_4
       (draw_target_border n_targets z_targets nl zl size) = true.
Proof.
  unfold draw_target_border, draw_magic_lines.
  destruct (z_target_lines_shift nl zl size z_targets 0) as [H1 H2].
  rewrite !flat_map_app, forallb_app, H1, H2. split.
  - f_equal. induction n_targets as [| e rest IH]; [reflexivity |].
    cbn [flat_map n_target_lines n_magic_lines app line_ends].
    now rewrite IH.
  - rewrite andb_true_r. induction n_targets as [| e rest IH]; [reflexivity |].
    cbn [flat_map n_target_lines app forallb is_border_on_layer_4 andb].
    exact IH.
Qed.
